(** * cursor_machine_id.py: identifier generation and configuration store

    A shallow embedding of [cursor_machine_id.py].  Python [str] values are
    lists of Unicode code points, [bytes] values are lists of [Byte.byte],
    and the operating system (file system, clock, random sources, terminal)
    is an explicit [world] threaded through a state-and-exception monad. *)

From Stdlib Require Import NArith ZArith List Bool Lia.
From Stdlib Require Import DecimalFacts DecimalPos DecimalN.
From Stdlib.Strings Require Import String Ascii Byte.
From stdpp Require Import base option list gmap.

Set Warnings "-register-all".

Local Open Scope N_scope.

(* ================================================================== *)
(** ** Text and bytes *)
(* ================================================================== *)

(** A Python [str] is a sequence of code points. *)
Abbreviation pystr := (list N).

(** [str "..."] embeds an ASCII literal. *)
Definition str (s : string) : pystr :=
  List.map N_of_ascii (list_ascii_of_string s).

Abbreviation bytes := (list byte).

Definition chr_in (lo hi c : N) : bool := (lo <=? c) && (c <=? hi).

Definition is_digit (c : N) : bool := chr_in 48 57 c.
Definition is_upper (c : N) : bool := chr_in 65 90 c.
Definition is_lower_hex (c : N) : bool := is_digit c || chr_in 97 102 c.

(** [string.ascii_uppercase] and [string.digits]. *)
Definition ascii_uppercase : pystr := str "ABCDEFGHIJKLMNOPQRSTUVWXYZ".
Definition digits : pystr := str "0123456789".

(** [s.replace(c, '')] for a one-character pattern [c]. *)
Definition remove_char (c : N) (s : pystr) : pystr :=
  List.filter (fun x => negb (x =? c)) s.

(** Lowercase hexadecimal digit of a nibble. *)
Definition hexdigit (n : N) : N :=
  if n <? 10 then 48 + n else 87 + n.

(** [bytes.hex()]: two lowercase digits per byte, high nibble first. *)
Definition hex_byte (b : byte) : pystr :=
  let n := Byte.to_N b in [hexdigit (n / 16); hexdigit (n mod 16)].

Definition hex (bs : bytes) : pystr := List.concat (List.map hex_byte bs).

(** Value of a lowercase hexadecimal digit, the inverse reading of [hex]. *)
Definition unhexdigit (c : N) : option N :=
  if is_digit c then Some (c - 48)
  else if chr_in 97 102 c then Some (c - 87)
  else None.

Definition byte_of_N (n : N) : byte :=
  match Byte.of_N n with Some b => b | None => x00 end.

Fixpoint unhex (s : pystr) : option bytes :=
  match s with
  | [] => Some []
  | h :: l :: rest =>
      match unhexdigit h, unhexdigit l, unhex rest with
      | Some a, Some b, Some bs => Some (byte_of_N (16 * a + b) :: bs)
      | _, _, _ => None
      end
  | _ => None
  end.

(** Decimal digits of a number, as [str(n)] prints them. *)
Fixpoint uint_chars (u : Decimal.uint) : pystr :=
  match u with
  | Decimal.Nil => []
  | Decimal.D0 u => 48 :: uint_chars u
  | Decimal.D1 u => 49 :: uint_chars u
  | Decimal.D2 u => 50 :: uint_chars u
  | Decimal.D3 u => 51 :: uint_chars u
  | Decimal.D4 u => 52 :: uint_chars u
  | Decimal.D5 u => 53 :: uint_chars u
  | Decimal.D6 u => 54 :: uint_chars u
  | Decimal.D7 u => 55 :: uint_chars u
  | Decimal.D8 u => 56 :: uint_chars u
  | Decimal.D9 u => 57 :: uint_chars u
  end.

Definition dec_of_N (n : N) : pystr := uint_chars (N.to_uint n).

Definition dec_of_Z (z : Z) : pystr :=
  match z with
  | Zneg p => 45 :: dec_of_N (Npos p)
  | _ => dec_of_N (Z.to_N z)
  end.

(** [f"{z:02d}"]: the sign, then the digits zero-padded so that the whole
    field is at least two characters wide. *)
Definition zero_pad (width : nat) (ds : pystr) : pystr :=
  List.repeat 48 (width - length ds) ++ ds.

Definition format_02d (z : Z) : pystr :=
  match z with
  | Zneg p => 45 :: zero_pad 1 (dec_of_N (Npos p))
  | _ => zero_pad 2 (dec_of_N (Z.to_N z))
  end.

(* ------------------------------------------------------------------ *)
(** *** UTF-8 *)

Definition cont (b : N) : bool := chr_in 128 191 b.

(** Strict UTF-8 decoding, as [bytes.decode('utf-8')]: overlong forms,
    surrogates and values above U+10FFFF are rejected. *)
Fixpoint utf8_decode_N (bs : list N) : option pystr :=
  match bs with
  | [] => Some []
  | b0 :: r0 =>
      if b0 <? 128 then option_map (cons b0) (utf8_decode_N r0)
      else if chr_in 194 223 b0 then
        match r0 with
        | b1 :: r1 =>
            if cont b1
            then option_map (cons ((b0 - 192) * 64 + (b1 - 128)))
                            (utf8_decode_N r1)
            else None
        | _ => None
        end
      else if chr_in 224 239 b0 then
        match r0 with
        | b1 :: b2 :: r2 =>
            let lo := if b0 =? 224 then 160 else 128 in
            let hi := if b0 =? 237 then 159 else 191 in
            if chr_in lo hi b1 && cont b2
            then option_map
                   (cons ((b0 - 224) * 4096 + (b1 - 128) * 64 + (b2 - 128)))
                   (utf8_decode_N r2)
            else None
        | _ => None
        end
      else if chr_in 240 244 b0 then
        match r0 with
        | b1 :: b2 :: b3 :: r3 =>
            let lo := if b0 =? 240 then 144 else 128 in
            let hi := if b0 =? 244 then 143 else 191 in
            if chr_in lo hi b1 && cont b2 && cont b3
            then option_map
                   (cons ((b0 - 240) * 262144 + (b1 - 128) * 4096
                          + (b2 - 128) * 64 + (b3 - 128)))
                   (utf8_decode_N r3)
            else None
        | _ => None
        end
      else None
  end.

Definition utf8_decode (bs : bytes) : option pystr :=
  utf8_decode_N (List.map Byte.to_N bs).

Definition is_surrogate (c : N) : bool := chr_in 55296 57343 c.

(** [str.encode('utf-8')]: [None] stands for [UnicodeEncodeError], raised
    for a surrogate code point. *)
Definition utf8_encode_char (c : N) : option bytes :=
  if c <? 128 then Some [byte_of_N c]
  else if c <? 2048 then
    Some [byte_of_N (192 + c / 64); byte_of_N (128 + c mod 64)]
  else if is_surrogate c then None
  else if c <? 65536 then
    Some [byte_of_N (224 + c / 4096); byte_of_N (128 + (c / 64) mod 64);
          byte_of_N (128 + c mod 64)]
  else if c <? 1114112 then
    Some [byte_of_N (240 + c / 262144); byte_of_N (128 + (c / 4096) mod 64);
          byte_of_N (128 + (c / 64) mod 64); byte_of_N (128 + c mod 64)]
  else None.

Fixpoint utf8_encode (s : pystr) : option bytes :=
  match s with
  | [] => Some []
  | c :: rest =>
      match utf8_encode_char c, utf8_encode rest with
      | Some bs, Some tl => Some (bs ++ tl)
      | _, _ => None
      end
  end.

(** Universal-newline translation applied by a text-mode read
    ([newline=None]): both a carriage return followed by a line feed and a
    lone carriage return become one line feed. *)
Fixpoint universal_newlines (s : pystr) : pystr :=
  match s with
  | [] => []
  | c :: rest =>
      if c =? 13 then
        match rest with
        | c' :: rest' =>
            if c' =? 10 then 10 :: universal_newlines rest'
            else 10 :: universal_newlines rest
        | [] => [10]
        end
      else c :: universal_newlines rest
  end.

(* ================================================================== *)
(** ** SHA-256 ([hashlib.sha256]) *)
(* ================================================================== *)

Module Sha256.

Definition mask32 : N := 4294967295.
Definition w32 (x : N) : N := N.land x mask32.
Definition add32 (x y : N) : N := w32 (x + y).
Definition not32 (x : N) : N := N.lxor x mask32.
Definition rotr (n x : N) : N :=
  N.lor (N.shiftr x n) (w32 (N.shiftl x (32 - n))).

Definition Ch (x y z : N) : N := N.lxor (N.land x y) (N.land (not32 x) z).
Definition Maj (x y z : N) : N :=
  N.lxor (N.lxor (N.land x y) (N.land x z)) (N.land y z).
Definition Sigma0 (x : N) : N :=
  N.lxor (N.lxor (rotr 2 x) (rotr 13 x)) (rotr 22 x).
Definition Sigma1 (x : N) : N :=
  N.lxor (N.lxor (rotr 6 x) (rotr 11 x)) (rotr 25 x).
Definition sigma0 (x : N) : N :=
  N.lxor (N.lxor (rotr 7 x) (rotr 18 x)) (N.shiftr x 3).
Definition sigma1 (x : N) : N :=
  N.lxor (N.lxor (rotr 17 x) (rotr 19 x)) (N.shiftr x 10).

(** The first 64 primes. *)
Definition is_prime (n : nat) : bool :=
  (2 <=? n)%nat
  && List.forallb (fun d => negb (n mod d =? 0)%nat) (List.seq 2 (n - 2)).

Definition primes : list N :=
  List.map N.of_nat (List.filter is_prime (List.seq 2 310)).

(** Integer cube root, one bit at a time. *)
Fixpoint cube_root (bits : nat) (n r : N) : N :=
  match bits with
  | O => r
  | S b =>
      let c := r + 2 ^ N.of_nat b in
      if c ^ 3 <=? n then cube_root b n c else cube_root b n r
  end.

(** Round constants: the first 32 bits of the fractional parts of the cube
    roots of the first 64 primes. *)
Definition K : list N :=
  Eval vm_compute in
    List.map (fun p => w32 (cube_root 36 (p * 2 ^ 96) 0)) primes.

(** The eight working variables. *)
Record state := State { sa : N; sb : N; sc : N; sd : N;
                        se : N; sf : N; sg : N; sh : N }.

(** Initial hash value: the first 32 bits of the fractional parts of the
    square roots of the first 8 primes. *)
Definition frac_sqrt (p : N) : N := w32 (N.sqrt (p * 2 ^ 64)).

Definition H0 : state :=
  Eval vm_compute in
    State (frac_sqrt 2) (frac_sqrt 3) (frac_sqrt 5) (frac_sqrt 7)
          (frac_sqrt 11) (frac_sqrt 13) (frac_sqrt 17) (frac_sqrt 19).

(** Big-endian bytes of a number, [n] of them. *)
Fixpoint be_bytes (n : nat) (x : N) : list N :=
  match n with
  | O => []
  | S n' => (x / 256 ^ N.of_nat n') mod 256 :: be_bytes n' x
  end.

Definition be_word (bs : list N) : N :=
  List.fold_left (fun acc b => acc * 256 + b) bs 0.

(** Padding: a one bit, zero bits up to 56 modulo 64 bytes, then the
    message length in bits as a 64-bit big-endian number. *)
Definition pad (msg : list N) : list N :=
  let len := length msg in
  let zeros := ((119 - len mod 64) mod 64)%nat in
  msg ++ [128] ++ List.repeat 0 zeros ++ be_bytes 8 (8 * N.of_nat len).

Fixpoint words (n : nat) (bs : list N) : list N :=
  match n with
  | O => []
  | S n' => be_word (List.firstn 4 bs) :: words n' (List.skipn 4 bs)
  end.

(** Message schedule: [W] extended from 16 to 64 words. *)
Fixpoint extend (n : nat) (w : list N) : list N :=
  match n with
  | O => w
  | S n' =>
      let t := length w in
      let at_ k := List.nth (t - k) w 0 in
      extend n' (w ++ [add32 (add32 (sigma1 (at_ 2%nat)) (at_ 7%nat))
                             (add32 (sigma0 (at_ 15%nat)) (at_ 16%nat))])
  end.

Definition round (s : state) (kw : N * N) : state :=
  let t1 := add32 (add32 (add32 (sh s) (Sigma1 (se s)))
                         (add32 (Ch (se s) (sf s) (sg s)) (fst kw)))
                  (snd kw) in
  let t2 := add32 (Sigma0 (sa s)) (Maj (sa s) (sb s) (sc s)) in
  State (add32 t1 t2) (sa s) (sb s) (sc s)
        (add32 (sd s) t1) (se s) (sf s) (sg s).

Definition compress (h : state) (block : list N) : state :=
  let w := extend 48 (words 16 block) in
  let s := List.fold_left round (List.combine K w) h in
  State (add32 (sa h) (sa s)) (add32 (sb h) (sb s))
        (add32 (sc h) (sc s)) (add32 (sd h) (sd s))
        (add32 (se h) (se s)) (add32 (sf h) (sf s))
        (add32 (sg h) (sg s)) (add32 (sh h) (sh s)).

Fixpoint blocks (n : nat) (h : state) (bs : list N) : state :=
  match n with
  | O => h
  | S n' => blocks n' (compress h (List.firstn 64 bs)) (List.skipn 64 bs)
  end.

Definition state_bytes (s : state) : bytes :=
  List.map byte_of_N
    (List.concat (List.map (be_bytes 4)
       [sa s; sb s; sc s; sd s; se s; sf s; sg s; sh s])).

(** [hashlib.sha256(data).digest()]. *)
Definition digest (data : bytes) : bytes :=
  let m := pad (List.map Byte.to_N data) in
  state_bytes (blocks (length m / 64) H0 m).

(** [hashlib.sha256(data).hexdigest()]. *)
Definition hexdigest (data : bytes) : pystr := hex (digest data).

End Sha256.

(* ================================================================== *)
(** ** Python values and the [json] module *)
(* ================================================================== *)

(** The objects [json.load] builds: [None], [bool], [int], [float], [str],
    [list] and [dict] (insertion-ordered, keys are [str]).  A float is kept
    as the literal that denotes it; binary rounding is not modelled. *)
Inductive value :=
| VNone
| VBool (b : bool)
| VInt (z : Z)
| VFloat (lexeme : pystr)
| VStr (s : pystr)
| VList (items : list value)
| VDict (members : list (pystr * value)).

Abbreviation dict := (list (list N * value)).

Definition pystr_eqb (a b : pystr) : bool := bool_decide (a = b).

(** [d.get(k)]. *)
Fixpoint dict_get (d : dict) (k : pystr) : option value :=
  match d with
  | [] => None
  | (k', v) :: rest => if pystr_eqb k' k then Some v else dict_get rest k
  end.

(** [d[k] = v]: an existing key keeps its position. *)
Fixpoint dict_set (d : dict) (k : pystr) (v : value) : dict :=
  match d with
  | [] => [(k, v)]
  | (k', v') :: rest =>
      if pystr_eqb k' k then (k', v) :: rest
      else (k', v') :: dict_set rest k v
  end.

(** [dict(pairs)] and [d.update(pairs)]. *)
Definition dict_update (d : dict) (pairs : list (pystr * value)) : dict :=
  List.fold_left (fun acc kv => dict_set acc (fst kv) (snd kv)) pairs d.

Definition dict_of_pairs (pairs : list (pystr * value)) : dict :=
  dict_update [] pairs.

Module Json.

Definition is_ws (c : N) : bool :=
  (c =? 32) || (c =? 9) || (c =? 10) || (c =? 13).

Fixpoint skip_ws (s : pystr) : pystr :=
  match s with
  | c :: rest => if is_ws c then skip_ws rest else s
  | [] => []
  end.

(* ---------------------------------------------------------------- *)
(** *** Decoding *)

Definition hexval (c : N) : option N :=
  if is_digit c then Some (c - 48)
  else if chr_in 97 102 c then Some (c - 87)
  else if chr_in 65 70 c then Some (c - 55)
  else None.

Definition hex4 (a b c d : N) : option N :=
  match hexval a, hexval b, hexval c, hexval d with
  | Some x, Some y, Some z, Some w => Some (((x * 16 + y) * 16 + z) * 16 + w)
  | _, _, _, _ => None
  end.

(** The one-character escapes after a backslash. *)
Definition unescape (e : N) : option N :=
  if e =? 34 then Some 34          (* quote *)
  else if e =? 92 then Some 92     (* backslash *)
  else if e =? 47 then Some 47     (* slash *)
  else if e =? 98 then Some 8      (* b *)
  else if e =? 102 then Some 12    (* f *)
  else if e =? 110 then Some 10    (* n *)
  else if e =? 114 then Some 13    (* r *)
  else if e =? 116 then Some 9     (* t *)
  else None.

Definition is_high (c : N) : bool := chr_in 55296 56319 c.
Definition is_low (c : N) : bool := chr_in 56320 57343 c.

Definition join_surrogates (hi lo : N) : N :=
  65536 + ((hi - 55296) * 1024 + (lo - 56320)).

Definition push (c : N) (r : option (pystr * pystr)) :
  option (pystr * pystr) :=
  match r with
  | Some (k, rest) => Some (c :: k, rest)
  | None => None
  end.

(** [scanstring] in strict mode, entered after the opening quote: the
    decoded string and the text after the closing quote. *)
Fixpoint scan_string (s : pystr) : option (pystr * pystr) :=
  match s with
  | [] => None
  | c :: r =>
      if c =? 34 then Some ([], r)
      else if c =? 92 then
        match r with
        | [] => None
        | e :: r1 =>
            if e =? 117 then
              match r1 with
              | h1 :: h2 :: h3 :: h4 :: r2 =>
                  match hex4 h1 h2 h3 h4 with
                  | None => None
                  | Some uni =>
                      if is_high uni then
                        match r2 with
                        | a :: b :: r3 =>
                            if (a =? 92) && (b =? 117) then
                              match r3 with
                              | l1 :: l2 :: l3 :: l4 :: r4 =>
                                  match hex4 l1 l2 l3 l4 with
                                  | None => None
                                  | Some uni2 =>
                                      if is_low uni2
                                      then push (join_surrogates uni uni2)
                                                (scan_string r4)
                                      else push uni (scan_string r2)
                                  end
                              | _ => None
                              end
                            else push uni (scan_string r2)
                        | _ => push uni (scan_string r2)
                        end
                      else push uni (scan_string r2)
                  end
              | _ => None
              end
            else
              match unescape e with
              | Some c' => push c' (scan_string r1)
              | None => None
              end
        end
      else if c <? 32 then None
      else push c (scan_string r)
  end.

(** Longest prefix of decimal digits. *)
Fixpoint span_digits (s : pystr) : pystr * pystr :=
  match s with
  | c :: rest =>
      if is_digit c
      then let '(ds, r) := span_digits rest in (c :: ds, r)
      else ([], s)
  | [] => ([], [])
  end.

Definition digit_value (acc c : N) : N := acc * 10 + (c - 48).
Definition nat_of_digits (ds : pystr) : N := List.fold_left digit_value ds 0.

(** Integer part: an optional minus sign, then a single zero or a
    nonzero digit followed by digits.  Returns sign, digits, rest. *)
Definition scan_digits (s : pystr) : option (pystr * pystr) :=
  match s with
  | c :: r =>
      if c =? 48 then Some ([48], r)
      else if is_digit c then Some (span_digits s)
      else None
  | [] => None
  end.

Definition scan_int (s : pystr) : option (bool * pystr * pystr) :=
  match s with
  | c :: r =>
      if c =? 45 then
        match scan_digits r with
        | Some (ds, r') => Some (true, ds, r')
        | None => None
        end
      else
        match scan_digits s with
        | Some (ds, r') => Some (false, ds, r')
        | None => None
        end
  | [] => None
  end.

(** Optional fraction part: a dot and at least one digit. *)
Definition scan_frac (s : pystr) : pystr * pystr :=
  match s with
  | c :: r =>
      if c =? 46 then
        match span_digits r with
        | ([], _) => ([], s)
        | (ds, r') => (46 :: ds, r')
        end
      else ([], s)
  | [] => ([], s)
  end.

(** Optional exponent part: e or E, an optional sign, at least one
    digit. *)
Definition scan_exp (s : pystr) : pystr * pystr :=
  match s with
  | e :: r =>
      if (e =? 101) || (e =? 69) then
        let '(sign, r1) :=
          match r with
          | c :: r' => if (c =? 45) || (c =? 43) then ([c], r') else ([], r)
          | [] => ([], r)
          end in
        match span_digits r1 with
        | ([], _) => ([], s)
        | (ds, r2) => (e :: sign ++ ds, r2)
        end
      else ([], s)
  | [] => ([], s)
  end.

Definition scan_number (s : pystr) : option (value * pystr) :=
  match scan_int s with
  | None => None
  | Some (neg, ds, r) =>
      let '(frac, r1) := scan_frac r in
      let '(ex, r2) := scan_exp r1 in
      match frac, ex with
      | [], [] =>
          let n := Z.of_N (nat_of_digits ds) in
          Some (VInt (if neg then (- n)%Z else n), r2)
      | _, _ =>
          Some (VFloat ((if neg then [45] else []) ++ ds ++ frac ++ ex), r2)
      end
  end.

(** [s.startswith(lit)], returning the remainder. *)
Fixpoint strip_prefix (lit s : pystr) : option pystr :=
  match lit, s with
  | [], _ => Some s
  | a :: lit', b :: s' => if a =? b then strip_prefix lit' s' else None
  | _ :: _, [] => None
  end.

Definition scan_constant (s : pystr) : option (value * pystr) :=
  match strip_prefix (str "null") s with
  | Some r => Some (VNone, r)
  | None =>
  match strip_prefix (str "true") s with
  | Some r => Some (VBool true, r)
  | None =>
  match strip_prefix (str "false") s with
  | Some r => Some (VBool false, r)
  | None =>
  match scan_number s with
  | Some res => Some res
  | None =>
  match strip_prefix (str "NaN") s with
  | Some r => Some (VFloat (str "NaN"), r)
  | None =>
  match strip_prefix (str "Infinity") s with
  | Some r => Some (VFloat (str "Infinity"), r)
  | None =>
  match strip_prefix (str "-Infinity") s with
  | Some r => Some (VFloat (str "-Infinity"), r)
  | None => None
  end end end end end end end.

(** [scan_once], [JSONArray] and [JSONObject].  [fuel] bounds the number
    of nested calls; every call consumes a character first, so the length
    of the text is enough. *)
Fixpoint scan_once (fuel : nat) (s : pystr) : option (value * pystr) :=
  match fuel with
  | O => None
  | S fuel' =>
      match s with
      | [] => None
      | c :: r =>
          if c =? 34 then
            match scan_string r with
            | Some (k, r') => Some (VStr k, r')
            | None => None
            end
          else if c =? 123 then
            match skip_ws r with
            | c1 :: r' =>
                if c1 =? 125 then Some (VDict [], r')
                else if c1 =? 34 then
                  match scan_members fuel' r' with
                  | Some (pairs, r'') =>
                      Some (VDict (dict_of_pairs pairs), r'')
                  | None => None
                  end
                else None
            | [] => None
            end
          else if c =? 91 then
            match skip_ws r with
            | c1 :: r' =>
                if c1 =? 93 then Some (VList [], r')
                else
                  match scan_items fuel' (c1 :: r') with
                  | Some (vs, r'') => Some (VList vs, r'')
                  | None => None
                  end
            | [] => None
            end
          else scan_constant s
      end
  end

(** The items of an array, entered at the first character of an item. *)
with scan_items (fuel : nat) (s : pystr) : option (list value * pystr) :=
  match fuel with
  | O => None
  | S fuel' =>
      match scan_once fuel' s with
      | None => None
      | Some (v, r) =>
          match skip_ws r with
          | c :: r' =>
              if c =? 93 then Some ([v], r')
              else if c =? 44 then
                match scan_items fuel' (skip_ws r') with
                | Some (vs, r'') => Some (v :: vs, r'')
                | None => None
                end
              else None
          | [] => None
          end
      end
  end

(** The members of an object, entered after the opening quote of a key. *)
with scan_members (fuel : nat) (s : pystr) :
  option (list (pystr * value) * pystr) :=
  match fuel with
  | O => None
  | S fuel' =>
      match scan_string s with
      | None => None
      | Some (k, r) =>
          match skip_ws r with
          | c :: r1 =>
              if c =? 58 then
                match scan_once fuel' (skip_ws r1) with
                | None => None
                | Some (v, r2) =>
                    match skip_ws r2 with
                    | c2 :: r3 =>
                        if c2 =? 125 then Some ([(k, v)], r3)
                        else if c2 =? 44 then
                          match skip_ws r3 with
                          | c3 :: r4 =>
                              if c3 =? 34 then
                                match scan_members fuel' r4 with
                                | Some (kvs, r5) => Some ((k, v) :: kvs, r5)
                                | None => None
                                end
                              else None
                          | [] => None
                          end
                        else None
                    | [] => None
                    end
                end
              else None
          | [] => None
          end
      end
  end.

(** [json.loads]: one value with optional white space around it; [None]
    stands for [JSONDecodeError]. *)
Definition loads (s : pystr) : option value :=
  if match s with c :: _ => c =? 65279 | [] => false end
  then None                         (* a byte order mark is refused *)
  else
    match scan_once (S (length s)) (skip_ws s) with
    | Some (v, r) =>
        match skip_ws r with
        | [] => Some v
        | _ => None
        end
    | None => None
    end.

(* ---------------------------------------------------------------- *)
(** *** Encoding *)

Definition hex4_of (n : N) : pystr :=
  [hexdigit (n / 4096 mod 16); hexdigit (n / 256 mod 16);
   hexdigit (n / 16 mod 16); hexdigit (n mod 16)].

Definition u_escape (n : N) : pystr := 92 :: 117 :: hex4_of n.

(** [encode_basestring_ascii] for one character. *)
Definition escape_char (c : N) : pystr :=
  if c =? 34 then [92; 34]
  else if c =? 92 then [92; 92]
  else if c =? 8 then [92; 98]
  else if c =? 12 then [92; 102]
  else if c =? 10 then [92; 110]
  else if c =? 13 then [92; 114]
  else if c =? 9 then [92; 116]
  else if chr_in 32 126 c then [c]
  else if c <? 65536 then u_escape c
  else
    let n := c - 65536 in
    u_escape (55296 + (n / 1024) mod 1024) ++ u_escape (56320 + n mod 1024).

Definition encode_string (s : pystr) : pystr :=
  34 :: List.concat (List.map escape_char s) ++ [34].

(** A line break followed by [indent * level] spaces, [indent = 2]. *)
Definition newline_indent (level : nat) : pystr :=
  10 :: List.repeat 32 (2 * level).

(** [json.dumps(v, indent=2)] at nesting depth [level]. *)
Fixpoint encode (level : nat) (v : value) : pystr :=
  match v with
  | VNone => str "null"
  | VBool true => str "true"
  | VBool false => str "false"
  | VInt z => dec_of_Z z
  | VFloat lexeme => lexeme
  | VStr s => encode_string s
  | VList [] => str "[]"
  | VList (x :: xs) =>
      [91] ++ newline_indent (S level) ++ encode (S level) x
      ++ List.flat_map
           (fun y => [44] ++ newline_indent (S level) ++ encode (S level) y)
           xs
      ++ newline_indent level ++ [93]
  | VDict [] => str "{}"
  | VDict ((k, x) :: kxs) =>
      [123] ++ newline_indent (S level)
      ++ encode_string k ++ [58; 32] ++ encode (S level) x
      ++ List.flat_map
           (fun kv =>
              let '(k', y) := kv in
              [44] ++ newline_indent (S level)
              ++ encode_string k' ++ [58; 32] ++ encode (S level) y)
           kxs
      ++ newline_indent level ++ [125]
  end.

Definition dumps (v : value) : pystr := encode 0 v.

End Json.

(* ------------------------------------------------------------------ *)
(** *** Well-formed values *)

(** Nesting budget that decoding the encoding of [v] needs. *)
Fixpoint weight (v : value) : nat :=
  match v with
  | VList items =>
      S (List.fold_right (fun x acc => S (weight x + acc)) 0%nat items)
  | VDict members =>
      S (List.fold_right
           (fun kv acc => let '(_, x) := kv in S (weight x + acc))
           0%nat members)
  | _ => 1%nat
  end.

(** A code point of decoded text: at most U+10FFFF and no surrogate. *)
Definition is_scalar (c : N) : bool := (c <? 1114112) && negb (is_surrogate c).

Definition valid_text (t : pystr) : bool := List.forallb is_scalar t.

(** The strings the decoder builds never hold a high surrogate directly
    followed by a low one: it joins such a pair into one code point. *)
Fixpoint no_surrogate_pair (s : pystr) : bool :=
  match s with
  | [] => true
  | a :: rest =>
      match rest with
      | b :: _ => negb (Json.is_high a && Json.is_low b)
      | [] => true
      end && no_surrogate_pair rest
  end.

Definition wf_str (s : pystr) : bool :=
  List.forallb (fun c => c <? 1114112) s && no_surrogate_pair s.

(** A float literal: one of the three constants, or a number with a
    fraction or an exponent, exactly as the decoder reads it. *)
Definition wf_float (lexeme : pystr) : bool :=
  pystr_eqb lexeme (str "NaN") || pystr_eqb lexeme (str "Infinity")
  || pystr_eqb lexeme (str "-Infinity")
  || match Json.scan_number lexeme with
     | Some (VFloat l, []) => pystr_eqb l lexeme
     | _ => false
     end.

(** The values [json.loads] can return (and every identifier the program
    generates): well-formed strings and floats, distinct keys. *)
Fixpoint wf_value (v : value) : bool :=
  match v with
  | VNone | VBool _ | VInt _ => true
  | VFloat lexeme => wf_float lexeme
  | VStr s => wf_str s
  | VList items => List.forallb wf_value items
  | VDict members =>
      bool_decide (NoDup (List.map fst members))
      && List.forallb (fun kv => let '(k, x) := kv in wf_str k && wf_value x)
                      members
  end.

Definition bytes_of (s : string) : bytes := list_byte_of_string s.

(* ================================================================== *)
(** ** The world: file system, clock, random sources, terminal *)
(* ================================================================== *)

(** A path is the list of its components below the root; components are
    opaque names (no [.] or [..] resolution, no symbolic links). *)
Abbreviation path := (list (list N)).

Definition dirname (p : path) : path := List.removelast p.

(** [f"{p}{suffix}"]: the suffix extends the last component. *)
Fixpoint path_suffix (p : path) (suffix : pystr) : path :=
  match p with
  | [] => [suffix]
  | [x] => [x ++ suffix]
  | x :: rest => x :: path_suffix rest suffix
  end.

Inductive node :=
| Dir (mode : N)
| File (mode : N) (data : bytes).

(** The system calls the program makes; [faults] tells which of them the
    operating system refuses (permissions, read-only media, ...). *)
Inductive syscall :=
| SysMkdir (p : path)
| SysChmod (p : path)
| SysOpenRead (p : path)
| SysOpenWrite (p : path)
| SysKill (pid : Z).

Inductive errno := ENOENT | EEXIST | ENOTDIR | EISDIR | EACCES.

Inductive exn :=
| OSError (code : errno) (call : syscall)
| UnicodeDecodeError
| UnicodeEncodeError
| JSONDecodeError
| AttributeError
| TypeError
| IndexError
| EOFError
| UnboundLocalError (name : string)
| AppError (error_type op : pystr) (p : path) (err : exn).

(** A source of randomness: an unbounded sequence of draws and a cursor. *)
Record tape := Tape { draws : nat -> N; pos : nat }.

Record StorageConfig := mkStorageConfig {
  telemetry_mac_machine_id : value;
  telemetry_machine_id : value;
  telemetry_dev_device_id : value;
  telemetry_sqm_id : value }.

Definition wf_config (c : StorageConfig) : bool :=
  wf_value (telemetry_mac_machine_id c) && wf_value (telemetry_machine_id c)
  && wf_value (telemetry_dev_device_id c) && wf_value (telemetry_sqm_id c).

(** What the program prints and logs. *)
Inductive title := CurrentConfig | NewConfig.
Inductive question := AskContinue | AskOverwrite.

Inductive message :=
| MsgNoUser
| MsgProcessesFound (pids : list Z)
| MsgAskKill
| MsgKilled (pid : Z)
| MsgManualKill (pids : list Z)
| MsgBanner
| MsgReadingConfig
| MsgTitle (t : title)
| MsgField (name : string) (v : value)
| MsgNoConfig
| MsgReadFailed (e : exn)
| MsgPrompt (q : question)
| MsgInvalidAnswer
| MsgGenerating
| MsgCancelled
| MsgSaving
| MsgBackupCreated (p : path)
| MsgBackupFailed (e : exn)
| MsgSuccess
| MsgDone
| MsgError (e : exn)
| MsgFatal (e : exn)
| MsgPressEnter.

Record world := World {
  fs : gmap path node;          (* the file system *)
  faults : syscall -> bool;     (* calls the system refuses *)
  umask : N;
  now : Z;                      (* int(time.time()) *)
  system : pystr;               (* platform.system() *)
  environ : gmap pystr pystr;   (* os.environ *)
  stdin : list pystr;           (* lines still to be read by input() *)
  procs : list Z;               (* pids that pgrep -i cursor reports *)
  os_random : tape;             (* os.urandom *)
  py_random : tape;             (* the random module's generator *)
  out : list message }.         (* console and log, oldest first *)

Definition set_fs (f : gmap path node) (w : world) : world :=
  World f (faults w) (umask w) (now w) (system w) (environ w) (stdin w)
        (procs w) (os_random w) (py_random w) (out w).
Definition set_stdin (l : list pystr) (w : world) : world :=
  World (fs w) (faults w) (umask w) (now w) (system w) (environ w) l
        (procs w) (os_random w) (py_random w) (out w).
Definition set_procs (l : list Z) (w : world) : world :=
  World (fs w) (faults w) (umask w) (now w) (system w) (environ w) (stdin w)
        l (os_random w) (py_random w) (out w).
Definition set_os_random (t : tape) (w : world) : world :=
  World (fs w) (faults w) (umask w) (now w) (system w) (environ w) (stdin w)
        (procs w) t (py_random w) (out w).
Definition set_py_random (t : tape) (w : world) : world :=
  World (fs w) (faults w) (umask w) (now w) (system w) (environ w) (stdin w)
        (procs w) (os_random w) t (out w).
Definition set_out (l : list message) (w : world) : world :=
  World (fs w) (faults w) (umask w) (now w) (system w) (environ w) (stdin w)
        (procs w) (os_random w) (py_random w) l.

(* ------------------------------------------------------------------ *)
(** *** State and exceptions *)

Inductive result (A : Type) :=
| Ok (a : A)
| Raise (e : exn).
Arguments Ok {A} a.
Arguments Raise {A} e.

Definition M (A : Type) : Type := world -> result A * world.

Definition ret {A} (a : A) : M A := fun w => (Ok a, w).
Definition raise {A} (e : exn) : M A := fun w => (Raise e, w).

Definition bind {A B} (m : M A) (k : A -> M B) : M B :=
  fun w =>
    match m w with
    | (Ok a, w') => k a w'
    | (Raise e, w') => (Raise e, w')
    end.

(** [try: m except Exception as e: h e]. *)
Definition try_except {A} (m : M A) (h : exn -> M A) : M A :=
  fun w =>
    match m w with
    | (Ok a, w') => (Ok a, w')
    | (Raise e, w') => h e w'
    end.

Definition get {A} (f : world -> A) : M A := fun w => (Ok (f w), w).
Definition modify (f : world -> world) : M unit := fun w => (Ok tt, f w).

Declare Scope py_scope.
Delimit Scope py_scope with py.
Notation "x <- m ;; k" := (bind m (fun x => k))
  (at level 62, m at next level, right associativity) : py_scope.
Local Open Scope py_scope.

(* ------------------------------------------------------------------ *)
(** *** Random sources *)

Definition draw (t : tape) : N * tape :=
  (draws t (pos t), Tape (draws t) (S (pos t))).

Fixpoint draw_many (n : nat) (t : tape) : list N * tape :=
  match n with
  | O => ([], t)
  | S n' =>
      let '(x, t1) := draw t in
      let '(xs, t2) := draw_many n' t1 in
      (x :: xs, t2)
  end.

(** [os.urandom(n)]. *)
Definition urandom (n : nat) : M bytes :=
  fun w =>
    let '(xs, t) := draw_many n (os_random w) in
    (Ok (List.map (fun x => byte_of_N (x mod 256)) xs), set_os_random t w).

(** [random.randint(a, b)]: a number between [a] and [b], both included. *)
Definition randint (a b : Z) : M Z :=
  fun w =>
    let '(x, t) := draw (py_random w) in
    (Ok (a + Z.of_N x mod (b - a + 1))%Z, set_py_random t w).

(** [random.choices(population, k=k)]: [k] independent picks. *)
Definition choices (population : pystr) (k : nat) : M pystr :=
  fun w =>
    match population with
    | [] => (Raise IndexError, w)
    | c0 :: _ =>
        let '(xs, t) := draw_many k (py_random w) in
        let n := N.of_nat (length population) in
        (Ok (List.map (fun x => List.nth (N.to_nat (x mod n)) population c0) xs),
         set_py_random t w)
    end.

(** [s.encode()]. *)
Definition encode_utf8 (s : pystr) : M bytes :=
  match utf8_encode s with
  | Some b => ret b
  | None => raise UnicodeEncodeError
  end.

(* ------------------------------------------------------------------ *)
(** *** Files *)

(** The root always exists and is a directory. *)
Definition stat (f : gmap path node) (p : path) : option node :=
  match p with
  | [] => Some (Dir 493)
  | _ => f !! p
  end.

Definition is_dir (f : gmap path node) (p : path) : bool :=
  match stat f p with Some (Dir _) => true | _ => false end.

(** [os.path.exists(p)]. *)
Definition path_exists (p : path) : M bool :=
  get (fun w => match stat (fs w) p with Some _ => true | None => false end).

(** [os.path.isdir(p)]. *)
Definition path_isdir (p : path) : M bool := get (fun w => is_dir (fs w) p).

Definition new_mode (base : N) (w : world) : N := N.ldiff base (umask w).

(** [os.mkdir(p)] with the default mode [0o777]. *)
Definition mkdir (p : path) : M unit :=
  fun w =>
    if faults w (SysMkdir p) then (Raise (OSError EACCES (SysMkdir p)), w)
    else
      match stat (fs w) p with
      | Some _ => (Raise (OSError EEXIST (SysMkdir p)), w)
      | None =>
          match stat (fs w) (dirname p) with
          | None => (Raise (OSError ENOENT (SysMkdir p)), w)
          | Some (File _ _) => (Raise (OSError ENOTDIR (SysMkdir p)), w)
          | Some (Dir _) =>
              (Ok tt, set_fs (<[p := Dir (new_mode 511 w)]> (fs w)) w)
          end
      end.

(** [os.makedirs(p, exist_ok=True)], by recursion on the reversed path:
    create the parent chain first when the parent is missing (an
    already-existing parent is not an error), then the directory itself,
    tolerating a failure when the directory is there afterwards. *)
Fixpoint makedirs_rev (rp : list pystr) : M unit :=
  match rp with
  | [] => ret tt
  | tail :: rhead =>
      let name := List.rev rp in
      let head := List.rev rhead in
      ex <- path_exists head ;;
      _ <- (if negb ex
            then try_except (makedirs_rev rhead)
                   (fun e => match e with
                             | OSError EEXIST _ => ret tt
                             | _ => raise e
                             end)
            else ret tt) ;;
      try_except (mkdir name)
        (fun e => match e with
                  | OSError _ _ =>
                      d <- path_isdir name ;;
                      if d then ret tt else raise e
                  | _ => raise e
                  end)
  end.

Definition makedirs (p : path) : M unit := makedirs_rev (List.rev p).

(** [os.chmod(p, mode)]. *)
Definition chmod (p : path) (mode : N) : M unit :=
  fun w =>
    if faults w (SysChmod p) then (Raise (OSError EACCES (SysChmod p)), w)
    else
      match stat (fs w) p with
      | None => (Raise (OSError ENOENT (SysChmod p)), w)
      | Some (Dir _) => (Ok tt, set_fs (<[p := Dir mode]> (fs w)) w)
      | Some (File _ d) => (Ok tt, set_fs (<[p := File mode d]> (fs w)) w)
      end.

(** [open(p, 'r', encoding='utf-8')]: the handle is the content at the
    time of opening. *)
Definition open_read (p : path) : M bytes :=
  fun w =>
    if faults w (SysOpenRead p) then (Raise (OSError EACCES (SysOpenRead p)), w)
    else
      match stat (fs w) p with
      | None => (Raise (OSError ENOENT (SysOpenRead p)), w)
      | Some (Dir _) => (Raise (OSError EISDIR (SysOpenRead p)), w)
      | Some (File _ d) => (Ok d, w)
      end.

(** [f.read()] on a text-mode handle. *)
Definition read_text (handle : bytes) : M pystr :=
  match utf8_decode handle with
  | Some t => ret (universal_newlines t)
  | None => raise UnicodeDecodeError
  end.

(** [open(p, 'w', encoding='utf-8')]: creates the file or empties it. *)
Definition open_write (p : path) : M unit :=
  fun w =>
    if faults w (SysOpenWrite p)
    then (Raise (OSError EACCES (SysOpenWrite p)), w)
    else
      match stat (fs w) p with
      | Some (Dir _) => (Raise (OSError EISDIR (SysOpenWrite p)), w)
      | Some (File m _) => (Ok tt, set_fs (<[p := File m []]> (fs w)) w)
      | None =>
          match stat (fs w) (dirname p) with
          | None => (Raise (OSError ENOENT (SysOpenWrite p)), w)
          | Some (File _ _) => (Raise (OSError ENOTDIR (SysOpenWrite p)), w)
          | Some (Dir _) =>
              (Ok tt, set_fs (<[p := File (new_mode 438 w) []]> (fs w)) w)
          end
      end.

(** [f.write(text)] on a file opened by [open_write] (on the platforms the
    program supports a line feed is written as it is). *)
Definition write_text (p : path) (text : pystr) : M unit :=
  fun w =>
    match utf8_encode text with
    | None => (Raise UnicodeEncodeError, w)
    | Some b =>
        match fs w !! p with
        | Some (File m d) => (Ok tt, set_fs (<[p := File m (d ++ b)]> (fs w)) w)
        | _ => (Ok tt, w)
        end
    end.

(** [json.load(f)]. *)
Definition json_load (handle : bytes) : M value :=
  text <- read_text handle ;;
  match Json.loads text with
  | Some v => ret v
  | None => raise JSONDecodeError
  end.

(** [json.dump(v, f, indent=2)]. *)
Definition json_dump (v : value) (p : path) : M unit :=
  write_text p (Json.dumps v).

(* ------------------------------------------------------------------ *)
(** *** Terminal, environment, processes *)

Definition emit (m : message) : M unit :=
  modify (fun w => set_out (out w ++ [m]) w).

(** [input()]. *)
Definition input : M pystr :=
  fun w =>
    match stdin w with
    | [] => (Raise EOFError, w)
    | line :: rest => (Ok line, set_stdin rest w)
    end.

(** [os.getenv(name)]. *)
Definition getenv (name : pystr) : M (option pystr) :=
  get (fun w => environ w !! name).

(** [s.lower()] on the letters A to Z. *)
Definition lower (s : pystr) : pystr :=
  List.map (fun c => if is_upper c then c + 32 else c) s.

(** The characters [str.strip()] removes. *)
Definition is_space (c : N) : bool :=
  chr_in 9 13 c || chr_in 28 32 c || (c =? 133) || (c =? 160)
  || (c =? 5760) || chr_in 8192 8202 c || (c =? 8232) || (c =? 8233)
  || (c =? 8239) || (c =? 8287) || (c =? 12288).

Fixpoint lstrip (s : pystr) : pystr :=
  match s with
  | c :: rest => if is_space c then lstrip rest else s
  | [] => []
  end.

Definition strip (s : pystr) : pystr :=
  List.rev (lstrip (List.rev (lstrip s))).

(* ================================================================== *)
(** ** The program *)
(* ================================================================== *)

Definition ERR_CONFIG : pystr := str "config_error".

(** [StorageConfig.to_dict]. *)
Definition to_dict (self : StorageConfig) : dict :=
  [(str "telemetry.macMachineId", telemetry_mac_machine_id self);
   (str "telemetry.machineId", telemetry_machine_id self);
   (str "telemetry.devDeviceId", telemetry_dev_device_id self);
   (str "telemetry.sqmId", telemetry_sqm_id self)].

Definition darwin_path (username : pystr) : path :=
  [str "Users"; username; str "Library"; str "Application Support";
   str "Cursor"; str "User"; str "globalStorage"; str "storage.json"].

Definition linux_path (username : pystr) : path :=
  [str "home"; username; str ".config"; str "Cursor"; str "User";
   str "globalStorage"; str "storage.json"].

Definition config_path_of (sys username : pystr) : path :=
  if pystr_eqb sys (str "Darwin")
  then darwin_path username
  else linux_path username.

Definition get_config_path (username : pystr) : M path :=
  sys <- get system ;;
  ret (config_path_of sys username).

(** The alphabet of the unique part: A to Z and 2 to 9. *)
Definition id_alphabet : pystr :=
  ascii_uppercase ++ remove_char 49 (remove_char 48 digits).

Definition generate_machine_id : M pystr :=
  let prefix := str "auth0|user_" in
  n <- randint 0 99 ;;
  let sequence := format_02d n in
  unique_id <- choices id_alphabet 23 ;;
  let full_id := prefix ++ sequence ++ unique_id in
  b <- encode_utf8 full_id ;;
  ret (hex b).

Definition generate_mac_machine_id : M pystr :=
  data <- urandom 32 ;;
  ret (Sha256.hexdigest data).

(** [str(uuid.uuid4())]: sixteen random bytes with the version and variant
    bits set, printed as five hyphenated groups of hex digits. *)
Definition uuid4_bytes (b : bytes) : bytes :=
  alter (fun x => byte_of_N (N.lor (N.land (Byte.to_N x) 63) 128)) 8%nat
    (alter (fun x => byte_of_N (N.lor (N.land (Byte.to_N x) 15) 64)) 6%nat b).

Definition uuid_str (b : bytes) : pystr :=
  hex (List.firstn 4 b) ++ [45]
  ++ hex (List.firstn 2 (List.skipn 4 b)) ++ [45]
  ++ hex (List.firstn 2 (List.skipn 6 b)) ++ [45]
  ++ hex (List.firstn 2 (List.skipn 8 b)) ++ [45]
  ++ hex (List.skipn 10 b).

Definition generate_dev_device_id : M pystr :=
  b <- urandom 16 ;;
  ret (uuid_str (uuid4_bytes b)).

(** Whether a float literal denotes zero: a zero mantissa, or a value that
    rounds to zero (at most half the smallest positive float). *)
Definition exponent_of (ex : pystr) : Z :=
  match ex with
  | _ :: c :: ds =>
      if c =? 45 then (- Z.of_N (Json.nat_of_digits ds))%Z
      else if c =? 43 then Z.of_N (Json.nat_of_digits ds)
      else Z.of_N (Json.nat_of_digits (c :: ds))
  | _ => 0%Z
  end.

Definition float_is_zero (lexeme : pystr) : bool :=
  match Json.scan_int lexeme with
  | None => false
  | Some (_, ds, r) =>
      let '(frac, r1) := Json.scan_frac r in
      let '(ex, _) := Json.scan_exp r1 in
      let fdigits := List.tl frac in
      let m := Json.nat_of_digits (ds ++ fdigits) in
      let e := (exponent_of ex - Z.of_nat (length fdigits))%Z in
      (m =? 0) || ((e <? 0)%Z && (m * 2 ^ 1075 <=? 10 ^ Z.to_N (- e)))
  end.

(** Truth value of an object in a condition. *)
Definition truthy (v : value) : bool :=
  match v with
  | VNone => false
  | VBool b => b
  | VInt z => negb (z =? 0)%Z
  | VFloat lexeme => negb (float_is_zero lexeme)
  | VStr [] => false
  | VStr (_ :: _) => true
  | VList [] => false
  | VList (_ :: _) => true
  | VDict [] => false
  | VDict (_ :: _) => true
  end.

Definition with_sqm_id (config : StorageConfig) (v : value) : StorageConfig :=
  mkStorageConfig (telemetry_mac_machine_id config)
                  (telemetry_machine_id config)
                  (telemetry_dev_device_id config) v.

Definition new_storage_config (old_config : option StorageConfig) :
  M StorageConfig :=
  mac <- generate_mac_machine_id ;;
  mid <- generate_machine_id ;;
  dev <- generate_dev_device_id ;;
  let config := mkStorageConfig (VStr mac) (VStr mid) (VStr dev) (VStr []) in
  match old_config with
  | Some old =>
      if truthy (telemetry_sqm_id old)
      then ret (with_sqm_id config (telemetry_sqm_id old))
      else sqm <- generate_mac_machine_id ;;
           ret (with_sqm_id config (VStr sqm))
  | None =>
      sqm <- generate_mac_machine_id ;;
      ret (with_sqm_id config (VStr sqm))
  end.

(** [data.get(key, default)]: only a [dict] has the method. *)
Definition py_get (data : value) (key : pystr) (default : value) : M value :=
  match data with
  | VDict d =>
      match dict_get d key with
      | Some v => ret v
      | None => ret default
      end
  | _ => raise AttributeError
  end.

Definition read_existing_config (username : pystr) :
  M (option StorageConfig) :=
  config_path <- get_config_path username ;;
  try_except
    (ex <- path_exists config_path ;;
     if ex then
       f <- open_read config_path ;;
       data <- json_load f ;;
       mac <- py_get data (str "telemetry.macMachineId") (VStr []) ;;
       mid <- py_get data (str "telemetry.machineId") (VStr []) ;;
       dev <- py_get data (str "telemetry.devDeviceId") (VStr []) ;;
       sqm <- py_get data (str "telemetry.sqmId") (VStr []) ;;
       ret (Some (mkStorageConfig mac mid dev sqm))
     else ret None)
    (fun e => raise (AppError ERR_CONFIG (str "read_config") config_path e)).

(** [{**original_data, **d}]: the left operand must be a mapping. *)
Definition dict_merge (original_data : value) (d : dict) : M dict :=
  match original_data with
  | VDict o => ret (dict_update o d)
  | _ => raise TypeError
  end.

Definition backup_path_of (config_path : path) (t : Z) : path :=
  path_suffix config_path ([46] ++ dec_of_Z t ++ str ".bak").

(** The backup block of [save_config] (source lines 166 to 176), entered
    when the configuration file exists. *)
Definition create_backup (config_path : path) : M unit :=
  _ <- chmod config_path 438 ;;
  t <- get now ;;
  let backup_path := backup_path_of config_path t in
  try_except
    (src <- open_read config_path ;;
     _ <- open_write backup_path ;;
     text <- read_text src ;;
     _ <- write_text backup_path text ;;
     emit (MsgBackupCreated backup_path))
    (fun e => emit (MsgBackupFailed e)).

(** The guarded block of [save_config] (source lines 178 to 193): load,
    merge, write. *)
Definition write_merged (config : StorageConfig) (config_path : path) :
  M unit :=
  try_except
    (ex <- path_exists config_path ;;
     original_data <- (if ex then
                         f <- open_read config_path ;;
                         json_load f
                       else ret (VDict [])) ;;
     new_data <- dict_merge original_data (to_dict config) ;;
     _ <- open_write config_path ;;
     json_dump (VDict new_data) config_path)
    (fun e => raise (AppError ERR_CONFIG (str "save_config") config_path e)).

Definition save_config (config : StorageConfig) (username : pystr) : M unit :=
  config_path <- get_config_path username ;;
  _ <- makedirs (dirname config_path) ;;
  ex <- path_exists config_path ;;
  _ <- (if ex then create_backup config_path else ret tt) ;;
  write_merged config config_path.

(* ------------------------------------------------------------------ *)
(** *** The command-line flow *)

Definition get_running_cursor_processes : M (list Z) := get procs.

(** [sorted(set(pids))]. *)
Fixpoint insert_sorted (x : Z) (l : list Z) : list Z :=
  match l with
  | [] => [x]
  | y :: rest =>
      if (x <? y)%Z then x :: l
      else if (x =? y)%Z then l
      else y :: insert_sorted x rest
  end.

Definition sorted_set (l : list Z) : list Z :=
  List.fold_right insert_sorted [] l.

(** [subprocess.run(['kill', '-9', pid], check=False)]. *)
Definition kill (pid : Z) : M unit :=
  modify (fun w =>
    if faults w (SysKill pid) then w
    else set_procs (List.filter (fun q => negb (q =? pid)%Z) (procs w)) w).

Fixpoint kill_all (pids : list Z) : M unit :=
  match pids with
  | [] => ret tt
  | pid :: rest =>
      _ <- kill pid ;;
      _ <- emit (MsgKilled pid) ;;
      kill_all rest
  end.

Definition check_cursor_running : M bool :=
  pids <- get_running_cursor_processes ;;
  match pids with
  | [] => ret false
  | _ :: _ =>
      let unique_pids := sorted_set pids in
      _ <- emit (MsgProcessesFound unique_pids) ;;
      _ <- emit MsgAskKill ;;
      line <- input ;;
      let choice := lower line in
      if pystr_eqb choice (str "y")
      then _ <- kill_all unique_pids ;; ret false
      else _ <- emit (MsgManualKill unique_pids) ;; ret true
  end.

Definition wait_exit : M unit :=
  am <- getenv (str "AUTOMATED_MODE") ;;
  match am with
  | Some v =>
      if pystr_eqb v (str "1") then ret tt
      else _ <- emit MsgPressEnter ;; _ <- input ;; ret tt
  | None => _ <- emit MsgPressEnter ;; _ <- input ;; ret tt
  end.

Definition show_config (config : StorageConfig) (t : title) : M unit :=
  _ <- emit (MsgTitle t) ;;
  _ <- emit (MsgField "Machine ID" (telemetry_machine_id config)) ;;
  _ <- emit (MsgField "Mac Machine ID" (telemetry_mac_machine_id config)) ;;
  _ <- emit (MsgField "Dev Device ID" (telemetry_dev_device_id config)) ;;
  emit (MsgField "SQM ID" (telemetry_sqm_id config)).

Definition said_yes (response : pystr) : bool :=
  pystr_eqb response (str "y") || pystr_eqb response (str "yes")
  || pystr_eqb response [26159].

Definition said_no (response : pystr) : bool :=
  pystr_eqb response (str "n") || pystr_eqb response (str "no")
  || pystr_eqb response [21542].

(** [confirm_action]: asks until the answer is a yes or a no.  The loop
    runs over the lines that standard input still holds; [input] raises
    [EOFError] when they are used up. *)
Fixpoint confirm_loop (q : question) (lines : list pystr) : M bool :=
  _ <- emit (MsgPrompt q) ;;
  line <- input ;;
  match lines with
  | [] => raise EOFError
  | _ :: rest =>
      let response := strip (lower line) in
      if said_yes response then ret true
      else if said_no response then ret false
      else _ <- emit MsgInvalidAnswer ;; confirm_loop q rest
  end.

Definition confirm_action (q : question) : M bool :=
  fun w => confirm_loop q (stdin w) w.

(** [try: m except AppError as e: h e]. *)
Definition try_except_AppError {A} (m : M A) (h : exn -> M A) : M A :=
  fun w =>
    match m w with
    | (Raise (AppError t o p e), w') => h (AppError t o p e) w'
    | r => r
    end.

(** A local variable of [main]: unbound until first assigned. *)
Definition read_local {A} (name : string) (v : option A) : M A :=
  match v with
  | Some a => ret a
  | None => raise (UnboundLocalError name)
  end.

(** How a block of [main] ends: by falling through or by [return]. *)
Inductive flow (A : Type) := Next (a : A) | Return.
Arguments Next {A} a.
Arguments Return {A}.

(** The guarded part of [main] (source lines 375 to 408). *)
Definition main_body (username : pystr) : M (flow unit) :=
  try_except
    (_ <- emit MsgReadingConfig ;;
     r <- try_except_AppError
            (current_config <- read_existing_config username ;;
             _ <- match current_config with
                  | Some c => show_config c CurrentConfig
                  | None => emit MsgNoConfig
                  end ;;
             ret (Next (Some current_config)))
            (fun e =>
               _ <- emit (MsgReadFailed e) ;;
               go <- confirm_action AskContinue ;;
               if go then ret (Next None) else ret Return) ;;
     match r with
     | Return => ret Return
     | Next current_config =>
         _ <- emit MsgGenerating ;;
         old <- read_local "current_config" current_config ;;
         new_config <- new_storage_config old ;;
         _ <- show_config new_config NewConfig ;;
         go <- confirm_action AskOverwrite ;;
         if negb go then
           _ <- emit MsgCancelled ;;
           _ <- wait_exit ;;
           ret Return
         else
           _ <- emit MsgSaving ;;
           _ <- save_config new_config username ;;
           _ <- emit MsgSuccess ;;
           _ <- emit MsgDone ;;
           ret (Next tt)
     end)
    (fun e => _ <- emit (MsgError e) ;; ret (Next tt)).

Definition main : M unit :=
  username <- getenv (str "USER") ;;
  match username with
  | None | Some [] => emit MsgNoUser
  | Some username =>
      running <- check_cursor_running ;;
      if running then wait_exit
      else
        _ <- emit MsgBanner ;;
        r <- main_body username ;;
        match r with
        | Return => ret tt
        | Next _ =>
            am <- getenv (str "AUTOMATED_MODE") ;;
            if bool_decide (am = Some (str "1")) then ret tt else wait_exit
        end
  end.

(** The script entry point: the exit status and the final world. *)
Definition run (w : world) : Z * world :=
  match main w with
  | (Ok _, w') => (0%Z, w')
  | (Raise e, w') => (1%Z, snd (emit (MsgFatal e) w'))
  end.

(** The file system is a tree: whatever exists lies in a directory. *)
Definition fs_tree (f : gmap path node) : Prop :=
  forall q n, f !! q = Some n -> is_dir f (dirname q) = true.

(** The content of a regular file. *)
Definition file_data (f : gmap path node) (p : path) : option bytes :=
  match stat f p with
  | Some (File _ d) => Some d
  | _ => None
  end.

(** [^[0-9a-f]{64}$]. *)
Definition matches_hex64 (s : pystr) : bool :=
  (length s =? 64)%nat && List.forallb is_lower_hex s.

(** A character of the unique part of a machine id: A to Z or 2 to 9. *)
Definition in_id_alphabet (c : N) : bool := is_upper c || chr_in 50 57 c.

(* ================================================================== *)
(** ** Vocabulary of the properties, and a sample machine *)
(* ================================================================== *)

Definition is_ascii (c : N) : bool := c <? 128.

Definition two_digits_ok (k : nat) : bool :=
  let s := format_02d (Z.of_nat k) in
  (length s =? 2)%nat && List.forallb is_digit s
  && (Json.nat_of_digits s =? N.of_nat k).

(** Whether the old [sqmId] is carried over. *)
Definition inherits_sqm (old_config : option StorageConfig) : bool :=
  match old_config with
  | Some old => truthy (telemetry_sqm_id old)
  | None => false
  end.

(** [w'] is [w] with some directories added along the path [d]. *)
Definition grows_dirs (w w' : world) (d : path) : Prop :=
  w' = set_fs (fs w') w
  /\ (fs_tree (fs w) -> fs_tree (fs w'))
  /\ forall q, fs w' !! q = fs w !! q
               \/ (fs w !! q = None /\ q `prefix_of` d
                   /\ exists m, fs w' !! q = Some (Dir m)).

(** Every prefix of [d] is a directory or can be created. *)
Definition creatable (w : world) (d : path) : Prop :=
  forall a, a `prefix_of` d ->
    is_dir (fs w) a = true
    \/ (stat (fs w) a = None /\ faults w (SysMkdir a) = false).

(** Text that does not begin with the escape of a low surrogate. *)
Definition no_low_escape (r : pystr) : Prop :=
  match r with
  | a :: b :: r3 =>
      (a =? 92) && (b =? 117) = true ->
      match r3 with
      | l1 :: l2 :: l3 :: l4 :: _ =>
          exists u, Json.hex4 l1 l2 l3 l4 = Some u /\ Json.is_low u = false
      | _ => False
      end
  | _ => True
  end.

(** What may follow a number in encoded text: the end, or a character that
    cannot continue the number (in encoded text, a comma or a line
    break). *)
Definition delimiter (c : N) : bool :=
  negb (is_digit c || (c =? 46) || (c =? 101) || (c =? 69)
        || (c =? 43) || (c =? 45)).

Definition delimited (rest : pystr) : Prop :=
  match rest with
  | [] => True
  | c :: _ => delimiter c = true
  end.

(** The first character of an encoding decides how it is decoded. *)
Definition starts_value (c : N) : Prop :=
  Json.is_ws c = false /\ (c =? 93) = false /\ (c =? 65279) = false.

Definition items_weight (items : list value) : nat :=
  List.fold_right (fun x acc => S (weight x + acc)) 0%nat items.

Definition members_weight (members : list (pystr * value)) : nat :=
  List.fold_right (fun kv acc => let '(_, x) := kv in S (weight x + acc))
                  0%nat members.

(** The claim of the round trip, for one value. *)
Definition decodes_back (v : value) : Prop :=
  wf_value v = true ->
  forall level rest fuel,
    delimited rest -> (weight v <= fuel)%nat ->
    Json.scan_once fuel (Json.encode level v ++ rest) = Some (v, rest).

Definition items_text (level : nat) (xs : list value) : pystr :=
  List.flat_map
    (fun y => [44] ++ Json.newline_indent (S level) ++ Json.encode (S level) y)
    xs.

Definition members_text (level : nat) (kxs : list (pystr * value)) : pystr :=
  List.flat_map
    (fun kv =>
       let '(k', y) := kv in
       [44] ++ Json.newline_indent (S level)
       ++ Json.encode_string k' ++ [58; 32] ++ Json.encode (S level) y)
    kxs.

Definition wf_member (kv : pystr * value) : bool :=
  let '(k, x) := kv in wf_str k && wf_value x.

Definition nodigit (rest : pystr) : Prop :=
  match rest with
  | [] => True
  | c :: _ => is_digit c = false
  end.

(** Digits of an integer part: a single zero, or no leading zero. *)
Definition int_digits (ds : pystr) : Prop :=
  List.forallb is_digit ds = true
  /\ exists c ds', ds = c :: ds' /\ ((c =? 48) = true -> ds' = []).

Definition frac_part (frac : pystr) : Prop :=
  frac = []
  \/ exists c fd, frac = 46 :: c :: fd /\ List.forallb is_digit (c :: fd) = true.

Definition exp_part (ex : pystr) : Prop :=
  ex = []
  \/ exists e sg c ed,
       ex = e :: sg ++ c :: ed
       /\ (e =? 101) || (e =? 69) = true
       /\ (sg = [] \/ sg = [45] \/ sg = [43])
       /\ List.forallb is_digit (c :: ed) = true.

Definition sign_text (neg : bool) : pystr := if neg then [45] else [].

(** The characters of encoded text: printable ASCII and the line feed. *)
Definition text_char (c : N) : bool := (c =? 10) || chr_in 32 126 c.

(** The text begins with the escape of the code point [b]. *)
Definition escape_head (s : pystr) (b : N) : Prop :=
  exists l1 l2 l3 l4 r,
    s = 92 :: 117 :: l1 :: l2 :: l3 :: l4 :: r
    /\ Json.hex4 l1 l2 l3 l4 = Some b.

Definition string_ok (s k r : pystr) : Prop :=
  wf_str k = true /\ valid_text r = true
  /\ forall b k', k = b :: k' -> Json.is_low b = true -> escape_head s b.

(** The part of the world the program only reads. *)
Definition env_of (w : world) :=
  (faults w, umask w, now w, system w, environ w).

Definition keeps_env {A} (m : M A) : Prop :=
  forall w r w', m w = (r, w') -> env_of w' = env_of w.

Definition known_keys : list pystr :=
  [str "telemetry.macMachineId"; str "telemetry.machineId";
   str "telemetry.devDeviceId"; str "telemetry.sqmId"].

(** The bytes of the pretty-printed document. *)
Definition document (v : value) : bytes := List.map byte_of_N (Json.dumps v).

(** Why the load of step 3 fails on a file with content [data]: the open
    is refused, the bytes are not UTF-8, the text is not JSON, or the
    document is not an object. *)
Definition load_failure (w : world) (p : path) (data : bytes) : option exn :=
  if faults w (SysOpenRead p) then Some (OSError EACCES (SysOpenRead p))
  else match utf8_decode data with
       | None => Some UnicodeDecodeError
       | Some t =>
           match Json.loads (universal_newlines t) with
           | None => Some JSONDecodeError
           | Some (VDict _) => None
           | Some _ => Some TypeError
           end
       end.

(** The text copy succeeds. *)
Definition backup_done (w w1 : world) (b : path) (data : bytes) : Prop :=
  exists t bs,
    utf8_decode data = Some t
    /\ utf8_encode (universal_newlines t) = Some bs
    /\ file_data (fs w1) b = Some bs
    /\ out w1 = out w ++ [MsgBackupCreated b].

Definition prefixes (d : path) : list path :=
  List.map (fun n => List.firstn n d) (List.seq 0 (S (length d))).

(** [fs_tree] and [creatable], decided. *)
Definition fs_tree_check (f : gmap path node) : bool :=
  List.forallb (fun qn => is_dir f (dirname (fst qn))) (map_to_list f).

Definition creatable_check (w : world) (d : path) : bool :=
  List.forallb
    (fun a => is_dir (fs w) a
              || (match stat (fs w) a with None => true | Some _ => false end
                  && negb (faults w (SysMkdir a))))
    (prefixes d).

Definition no_faults : syscall -> bool := fun _ => false.

Definition sample_tape : tape := Tape (fun i => N.of_nat i * 7919 + 13) 0.

Definition alice : pystr := str "alice".

Definition alice_home : gmap path node :=
  list_to_map [([str "home"], Dir 493); ([str "home"; alice], Dir 493)].

(** Alice's machine once the application has stored [data]. *)
Definition alice_disk (data : bytes) : gmap path node :=
  <[linux_path alice := File 420 data]>
    (List.fold_right (fun a f => <[a := Dir 493]> f) ∅
       (List.tl (prefixes (dirname (linux_path alice))))).

Definition sample_world (f : gmap path node) (lines : list pystr) : world :=
  World f no_faults 18 1700000000 (str "Linux") {[ str "USER" := alice ]}
        lines [] sample_tape sample_tape [].

Definition sample_config : StorageConfig :=
  mkStorageConfig (VStr (str "0a1b")) (VStr (str "6175"))
                  (VStr (str "9f8e-7d")) (VStr (str "c0de")).

Definition crlf_document : bytes := bytes_of "{}" ++ [x0d; x0a].

Definition is_object (v : value) : bool :=
  match v with VDict _ => true | _ => false end.

(** A document the application left behind. *)
Definition theme_only : dict := [(str "theme", VStr (str "dark"))].

(** Alice's machine before the application ever ran, with the
    application's document, and after a save over that document. *)
Definition fresh_world : world := sample_world alice_home [].

Definition themed_world : world :=
  sample_world (alice_disk (document (VDict theme_only))) [].

Definition saved_world : world :=
  snd (save_config sample_config alice themed_world).

(** Alice's machine with a document that is no JSON, with a document the
    system refuses to open for reading, and with a document whose lines
    end in CR LF. *)
Definition broken_world : world :=
  sample_world (alice_disk (bytes_of "{")) [str "y"].

Definition read_refused (c : syscall) : bool :=
  match c with SysOpenRead _ => true | _ => false end.

Definition locked_world : world :=
  World (alice_disk (bytes_of "{}")) read_refused 18 1700000000 (str "Linux")
        {[ str "USER" := alice ]} [] [] sample_tape sample_tape [].

Definition crlf_world : world := sample_world (alice_disk crlf_document) [].

(** The text of a version-4 UUID: lowercase hex digits in groups of 8, 4,
    4, 4 and 12 between hyphens, the version digit [4] first in the third
    group and one of [8], [9], [a], [b] first in the fourth. *)
Definition matches_uuid4 (s : pystr) : bool :=
  (length s =? 36)%nat
  && List.forallb is_lower_hex (List.firstn 8 s)
  && (List.nth 8 s 0 =? 45)
  && List.forallb is_lower_hex (List.firstn 4 (List.skipn 9 s))
  && (List.nth 13 s 0 =? 45)
  && List.forallb is_lower_hex (List.firstn 4 (List.skipn 14 s))
  && (List.nth 18 s 0 =? 45)
  && List.forallb is_lower_hex (List.firstn 4 (List.skipn 19 s))
  && (List.nth 23 s 0 =? 45)
  && List.forallb is_lower_hex (List.skipn 24 s)
  && (List.nth 14 s 0 =? 52)
  && List.existsb (N.eqb (List.nth 19 s 0)) (str "89ab").

(** Everything in the world but the two random sources. *)
Definition outside_random (w : world) :=
  (fs w, env_of w, stdin w, procs w, out w).

Definition keeps_outside {A} (m : M A) : Prop :=
  forall w, outside_random (snd (m w)) = outside_random w.

(** The configuration that one run of the generator gives on Alice's
    machine. *)
Definition generated_config : StorageConfig :=
  Eval vm_compute in
    match fst (new_storage_config None fresh_world) with
    | Ok c => c
    | Raise _ => sample_config
    end.

(** The configuration read from a document without telemetry keys. *)
Definition empty_config : StorageConfig :=
  mkStorageConfig (VStr []) (VStr []) (VStr []) (VStr []).

(** What the generator gives on Alice's machine when it starts from the
    application's document. *)
Definition regenerated_config : StorageConfig :=
  Eval vm_compute in
    match fst (new_storage_config (Some empty_config) themed_world) with
    | Ok c => c
    | Raise _ => sample_config
    end.

(** Alice's machine along one pass of the pipeline: after the read, after
    the generation, after the save. *)
Definition reread_world : world :=
  snd (read_existing_config alice themed_world).

Definition regenerated_world : world :=
  snd (new_storage_config (Some empty_config) reread_world).

Definition resaved_world : world :=
  snd (save_config regenerated_config alice regenerated_world).

Definition chmod_refused (c : syscall) : bool :=
  match c with SysChmod _ => true | _ => false end.

(** Alice's machine with a document whose mode the system will not let
    the program change. *)
Definition foreign_world : world :=
  World (alice_disk (bytes_of "{}")) chmod_refused 18 1700000000 (str "Linux")
        {[ str "USER" := alice ]} [] [] sample_tape sample_tape [].

(** The member [kv] of the old object after the merge with [pairs]: the
    key stays, the value is the new one when [pairs] has the key. *)
Definition overridden (pairs : dict) (kv : pystr * value) : pystr * value :=
  (fst kv, default (snd kv) (dict_get pairs (fst kv))).

(** Whether the object [d] lacks the key of [kv]. *)
Definition is_new_key (d : dict) (kv : pystr * value) : bool :=
  match dict_get d (fst kv) with Some _ => false | None => true end.

(** An answer that [confirm_action] accepts, once in lower case and
    stripped. *)
Definition valid_answer (line : pystr) : bool :=
  said_yes (strip (lower line)) || said_no (strip (lower line)).

(** What [confirm_action] prints while it goes through unusable answers. *)
Definition reprompts (q : question) (bad : list pystr) : list message :=
  List.flat_map (fun _ => [MsgPrompt q; MsgInvalidAnswer]) bad.

(** Strictly ascending. *)
Fixpoint ascending (l : list Z) : bool :=
  match l with
  | x :: rest =>
      match rest with
      | y :: _ => (x <? y)%Z
      | [] => true
      end && ascending rest
  | [] => true
  end.

(** Whether the kill of [pid], among the pids [l], takes [q] away. *)
Definition killed_by (w : world) (l : list Z) (q : Z) : bool :=
  List.existsb (fun pid => (q =? pid)%Z && negb (faults w (SysKill pid))) l.

Definition kill_refused (c : syscall) : bool :=
  match c with SysKill pid => (pid =? 4242)%Z | _ => false end.

(** Alice's machine with three Cursor processes, one listed twice and one
    that cannot be killed. *)
Definition busy_world (lines : list pystr) : world :=
  World alice_home kill_refused 18 1700000000 (str "Linux")
        {[ str "USER" := alice ]} lines [4242; 17; 4242; 300]%Z
        sample_tape sample_tape [].

(** What [show_config] prints. *)
Definition shown (config : StorageConfig) (t : title) : list message :=
  [MsgTitle t;
   MsgField "Machine ID" (telemetry_machine_id config);
   MsgField "Mac Machine ID" (telemetry_mac_machine_id config);
   MsgField "Dev Device ID" (telemetry_dev_device_id config);
   MsgField "SQM ID" (telemetry_sqm_id config)].


Definition keeps_file (p : path) {A} (m : M A) : Prop :=
  forall w r w', m w = (r, w') -> file_data (fs w') p = file_data (fs w) p.

(** Alice's machine with a broken document and the answer no. *)
Definition broken_declining_world : world :=
  sample_world (alice_disk (bytes_of "{")) [str "no"].

(** Alice's machine in unattended mode, with a document that is no JSON
    and no answers on standard input. *)
Definition unattended_world : world :=
  World (alice_disk (bytes_of "{")) no_faults 18 1700000000 (str "Linux")
        {[ str "USER" := alice; str "AUTOMATED_MODE" := str "1" ]}
        [] [] sample_tape sample_tape [].

(** What [main] prints about the configuration it has read. *)
Definition seen (old : option StorageConfig) : list message :=
  match old with
  | Some c => shown c CurrentConfig
  | None => [MsgNoConfig]
  end.

(** The world in which [main] generates, after a read that returned
    [old], and the world in which it saves, after the generation left [wg],
    the new configuration [c] was shown and the answer was read. *)
Definition before_generation (w : world) (old : option StorageConfig) : world :=
  set_out (out w ++ [MsgReadingConfig] ++ seen old ++ [MsgGenerating]) w.

Definition before_save (wg : world) (c : StorageConfig) (rest : list pystr) :
  world :=
  set_out (out wg ++ shown c NewConfig ++ [MsgPrompt AskOverwrite; MsgSaving])
    (set_stdin rest wg).

(** Alice's machine when she is about to confirm the overwrite. *)
Definition confirming_world : world :=
  sample_world (alice_disk (document (VDict theme_only))) [str "y"].

(* ================================================================== *)
(** * Properties *)
(* ================================================================== *)

Example sha256_abc :
  Sha256.hexdigest (bytes_of "abc")
  = str "ba7816bf8f01cfea414140de5dae2223b00361a396177a9cb410ff61f20015ad".
Proof. vm_compute. reflexivity. Qed.

Example sha256_two_blocks :
  Sha256.hexdigest
    (bytes_of "abcdbcdecdefdefgefghfghighijhijkijkljklmklmnlmnomnopnopq")
  = str "248d6a61d20638b8e5c026930c3e6039a33ce45964ff2167f6ecedd419db06c1".
Proof. vm_compute. reflexivity. Qed.

(** ** The monad *)

Lemma bind_ok {A B} (m : M A) (k : A -> M B) w a w' :
  m w = (Ok a, w') -> bind m k w = k a w'.
Proof. intros H. unfold bind. rewrite H. reflexivity. Qed.

Lemma bind_raise {A B} (m : M A) (k : A -> M B) w e w' :
  m w = (Raise e, w') -> bind m k w = (Raise e, w').
Proof. intros H. unfold bind. rewrite H. reflexivity. Qed.

(** ** Hexadecimal text *)

Lemma hex_byte_lower b : List.forallb is_lower_hex (hex_byte b) = true.
Proof. destruct b; vm_compute; reflexivity. Qed.

Lemma hex_length bs : length (hex bs) = (2 * length bs)%nat.
Proof.
  unfold hex. induction bs as [|b bs IH]; [reflexivity|].
  cbn [List.map List.concat]. rewrite length_app, IH. cbn. lia.
Qed.

Lemma hex_lower bs : List.forallb is_lower_hex (hex bs) = true.
Proof.
  unfold hex. induction bs as [|b bs IH]; [reflexivity|].
  cbn [List.map List.concat]. rewrite forallb_app, IH, hex_byte_lower.
  reflexivity.
Qed.

Lemma unhex_hex_byte b rest :
  unhex (hex_byte b ++ rest)
  = match unhex rest with Some bs => Some (b :: bs) | None => None end.
Proof. destruct b; reflexivity. Qed.

Lemma unhex_hex bs : unhex (hex bs) = Some bs.
Proof.
  unfold hex. induction bs as [|b bs IH]; [reflexivity|].
  cbn [List.map List.concat]. rewrite unhex_hex_byte, IH. reflexivity.
Qed.

(** ** SHA-256 digests *)

Lemma state_bytes_length s : length (Sha256.state_bytes s) = 32%nat.
Proof. reflexivity. Qed.

Lemma digest_length data : length (Sha256.digest data) = 32%nat.
Proof. unfold Sha256.digest. apply state_bytes_length. Qed.

Lemma hexdigest_hex64 data : matches_hex64 (Sha256.hexdigest data) = true.
Proof.
  unfold matches_hex64, Sha256.hexdigest.
  rewrite hex_length, digest_length, hex_lower. reflexivity.
Qed.

(** From here on the digest is used through the lemmas above only. *)
Opaque Sha256.hexdigest Sha256.digest.

(** ** ASCII text and UTF-8 *)

Lemma to_N_byte_of_N n : n < 256 -> Byte.to_N (byte_of_N n) = n.
Proof.
  intros Hn. unfold byte_of_N.
  destruct (Byte.of_N n) as [b|] eqn:E.
  - apply Byte.to_of_N. exact E.
  - apply Byte.of_N_None_iff in E. lia.
Qed.

Lemma utf8_encode_ascii s :
  List.forallb is_ascii s = true ->
  utf8_encode s = Some (List.map byte_of_N s).
Proof.
  induction s as [|c s IH]; [reflexivity|].
  cbn [List.forallb]. intros H. apply andb_prop in H as [Hc Hs].
  cbn [utf8_encode List.map]. rewrite (IH Hs).
  unfold utf8_encode_char. unfold is_ascii in Hc. rewrite Hc. reflexivity.
Qed.

Lemma utf8_decode_N_ascii s :
  List.forallb is_ascii s = true -> utf8_decode_N s = Some s.
Proof.
  induction s as [|c s IH]; [reflexivity|].
  cbn [List.forallb]. intros H. apply andb_prop in H as [Hc Hs].
  cbn [utf8_decode_N]. unfold is_ascii in Hc. rewrite Hc, (IH Hs).
  reflexivity.
Qed.

Lemma map_to_N_byte_of_N s :
  List.forallb is_ascii s = true ->
  List.map Byte.to_N (List.map byte_of_N s) = s.
Proof.
  induction s as [|c s IH]; [reflexivity|].
  cbn [List.forallb]. intros H. apply andb_prop in H as [Hc Hs].
  cbn [List.map]. rewrite (IH Hs), to_N_byte_of_N; [reflexivity|].
  unfold is_ascii in Hc. apply N.ltb_lt in Hc. lia.
Qed.

Lemma utf8_decode_ascii s :
  List.forallb is_ascii s = true ->
  utf8_decode (List.map byte_of_N s) = Some s.
Proof.
  intros H. unfold utf8_decode.
  rewrite (map_to_N_byte_of_N _ H). apply utf8_decode_N_ascii, H.
Qed.

(** ** Random draws *)

Lemma draw_many_length n t : length (fst (draw_many n t)) = n.
Proof.
  revert t. induction n as [|n IH]; intros t; [reflexivity|].
  cbn [draw_many]. destruct (draw t) as [x t1].
  specialize (IH t1). destruct (draw_many n t1) as [xs t2].
  cbn in *. congruence.
Qed.

Lemma urandom_run n w :
  exists bs, length bs = n /\
    urandom n w = (Ok bs, set_os_random (snd (draw_many n (os_random w))) w).
Proof.
  unfold urandom. pose proof (draw_many_length n (os_random w)) as L.
  destruct (draw_many n (os_random w)) as [xs t]. cbn in *.
  eexists. split; [|reflexivity]. rewrite length_map. exact L.
Qed.

Lemma randint_run a b w :
  (a <= b)%Z ->
  exists n, (a <= n <= b)%Z /\
    randint a b w = (Ok n, set_py_random (snd (draw (py_random w))) w).
Proof.
  intros Hab. unfold randint, draw. cbn.
  eexists. split; [|reflexivity].
  pose proof (Z.mod_pos_bound (Z.of_N (draws (py_random w) (pos (py_random w))))
                              (b - a + 1)). lia.
Qed.

Lemma choices_run population k w (P : N -> bool) :
  population <> [] ->
  List.forallb P population = true ->
  exists picks, length picks = k /\ List.forallb P picks = true /\
    choices population k w
    = (Ok picks, set_py_random (snd (draw_many k (py_random w))) w).
Proof.
  intros Hne HP. unfold choices.
  destruct population as [|c0 rest]; [congruence|].
  pose proof (draw_many_length k (py_random w)) as L.
  destruct (draw_many k (py_random w)) as [xs t]. cbn [fst snd] in *.
  eexists. split; [|split; [|reflexivity]].
  - rewrite length_map. exact L.
  - rewrite forallb_forall in *. intros c Hc.
    apply in_map_iff in Hc as (x & <- & _).
    apply HP, nth_In.
    assert (x mod N.of_nat (length (c0 :: rest)) < N.of_nat (length (c0 :: rest)))
      by (apply N.mod_lt; cbn [length]; lia).
    lia.
Qed.

(** ** Identifier generation *)

Lemma format_02d_two_digits n :
  (0 <= n <= 99)%Z ->
  length (format_02d n) = 2%nat
  /\ List.forallb is_digit (format_02d n) = true
  /\ Z.of_N (Json.nat_of_digits (format_02d n)) = n.
Proof.
  intros Hn.
  assert (H : List.forallb two_digits_ok (List.seq 0 100) = true)
    by (vm_compute; reflexivity).
  rewrite forallb_forall in H.
  specialize (H (Z.to_nat n)).
  rewrite in_seq in H. unfold two_digits_ok in H.
  rewrite Z2Nat.id in H by lia.
  assert (Hr : (0 <= Z.to_nat n < 0 + 100)%nat) by lia.
  apply H in Hr. apply andb_prop in Hr as [Hr H3].
  apply andb_prop in Hr as [H1 H2].
  apply Nat.eqb_eq in H1. apply N.eqb_eq in H3.
  repeat split; [exact H1|exact H2|]. rewrite H3. lia.
Qed.

Lemma digit_is_ascii c : is_digit c = true -> is_ascii c = true.
Proof.
  unfold is_digit, chr_in, is_ascii. intros H.
  apply andb_prop in H as [_ H]. apply N.leb_le in H. apply N.ltb_lt. lia.
Qed.

Lemma id_alphabet_is_ascii c : in_id_alphabet c = true -> is_ascii c = true.
Proof.
  unfold in_id_alphabet, is_upper, chr_in, is_ascii. intros H.
  apply N.ltb_lt. apply orb_prop in H as [H|H];
    apply andb_prop in H as [_ H]; apply N.leb_le in H; lia.
Qed.

Lemma forallb_impl {A} (P Q : A -> bool) l :
  (forall x, P x = true -> Q x = true) ->
  List.forallb P l = true -> List.forallb Q l = true.
Proof.
  intros HPQ. rewrite !forallb_forall. intros H x Hx. apply HPQ, H, Hx.
Qed.

(** What one call of [generate_machine_id] does: one number, 23 picks, and
    the hex form of the ASCII bytes of the assembled identifier. *)
Lemma generate_machine_id_run w :
  exists n unique_id w',
    (0 <= n <= 99)%Z
    /\ length unique_id = 23%nat
    /\ List.forallb in_id_alphabet unique_id = true
    /\ generate_machine_id w
       = (Ok (hex (List.map byte_of_N
                     (str "auth0|user_" ++ format_02d n ++ unique_id))), w').
Proof.
  destruct (randint_run 0 99 w ltac:(lia)) as (n & Hn & Hr).
  set (w1 := set_py_random (snd (draw (py_random w))) w) in *.
  destruct (choices_run id_alphabet 23 w1 in_id_alphabet) as (u & Hlen & Hu & Hc).
  { vm_compute. discriminate. }
  { vm_compute. reflexivity. }
  exists n, u. eexists. repeat split; [lia|lia|exact Hlen|exact Hu|].
  unfold generate_machine_id.
  rewrite (bind_ok _ _ _ _ _ Hr), (bind_ok _ _ _ _ _ Hc).
  unfold encode_utf8. rewrite utf8_encode_ascii; [reflexivity|].
  rewrite !forallb_app. apply andb_true_intro. split; [reflexivity|].
  apply andb_true_intro. split.
  - eapply forallb_impl; [apply digit_is_ascii|].
    apply format_02d_two_digits, Hn.
  - eapply forallb_impl; [apply id_alphabet_is_ascii|exact Hu].
Qed.

Lemma generate_mac_machine_id_run w :
  exists data,
    length data = 32%nat
    /\ generate_mac_machine_id w
       = (Ok (Sha256.hexdigest data),
          set_os_random (snd (draw_many 32 (os_random w))) w).
Proof.
  destruct (urandom_run 32 w) as (bs & Hlen & Hu).
  exists bs. split; [exact Hlen|].
  unfold generate_mac_machine_id. rewrite (bind_ok _ _ _ _ _ Hu). reflexivity.
Qed.

Lemma uuid_str_length b : length b = 16%nat -> length (uuid_str b) = 36%nat.
Proof.
  intros H. unfold uuid_str.
  repeat (rewrite ?length_app, ?hex_length, ?length_firstn, ?length_skipn).
  rewrite H. reflexivity.
Qed.

Lemma generate_dev_device_id_run w :
  exists b,
    length b = 16%nat
    /\ generate_dev_device_id w
       = (Ok (uuid_str (uuid4_bytes b)),
          set_os_random (snd (draw_many 16 (os_random w))) w).
Proof.
  destruct (urandom_run 16 w) as (bs & Hlen & Hu).
  exists bs. split; [exact Hlen|].
  unfold generate_dev_device_id. rewrite (bind_ok _ _ _ _ _ Hu). reflexivity.
Qed.

Lemma uuid4_bytes_length b : length (uuid4_bytes b) = length b.
Proof. unfold uuid4_bytes. rewrite !length_alter. reflexivity. Qed.

(** C8: every value returned by [generate_mac_machine_id] is the lowercase
    hex SHA-256 digest of 32 random bytes and matches [^[0-9a-f]{64}$]. *)
Theorem generate_mac_machine_id_hex64 (w : world) :
  exists data w',
    length data = 32%nat
    /\ generate_mac_machine_id w = (Ok (Sha256.hexdigest data), w')
    /\ matches_hex64 (Sha256.hexdigest data) = true.
Proof.
  destruct (generate_mac_machine_id_run w) as (data & Hlen & Hrun).
  exists data. eexists. split; [exact Hlen|]. split; [exact Hrun|].
  apply hexdigest_hex64.
Qed.

(** C7: every value returned by [generate_machine_id] hex-decodes to the
    bytes of a text of the form [auth0|user_], two digits that are the
    zero-padded decimal of a number from 0 to 99, and 23 characters each
    in A-Z or 2-9 (so never the digit 0 or 1). *)
Theorem generate_machine_id_form (w : world) :
  exists v w' raw n unique_id,
    generate_machine_id w = (Ok v, w')
    /\ unhex v = Some raw
    /\ utf8_decode raw = Some (str "auth0|user_" ++ format_02d n ++ unique_id)
    /\ (0 <= n <= 99)%Z
    /\ length (format_02d n) = 2%nat
    /\ List.forallb is_digit (format_02d n) = true
    /\ Z.of_N (Json.nat_of_digits (format_02d n)) = n
    /\ length unique_id = 23%nat
    /\ List.forallb in_id_alphabet unique_id = true
    /\ List.forallb (fun c => negb (c =? 48) && negb (c =? 49)) unique_id
       = true.
Proof.
  destruct (generate_machine_id_run w) as (n & u & w' & Hn & Hlen & Hu & Hrun).
  destruct (format_02d_two_digits n Hn) as (H1 & H2 & H3).
  eexists. exists w'. eexists. exists n, u.
  split; [exact Hrun|]. split; [apply unhex_hex|].
  split.
  { apply utf8_decode_ascii. rewrite !forallb_app.
    apply andb_true_intro. split; [reflexivity|].
    apply andb_true_intro. split.
    - eapply forallb_impl; [apply digit_is_ascii|exact H2].
    - eapply forallb_impl; [apply id_alphabet_is_ascii|exact Hu]. }
  repeat split; try assumption; try lia.
  eapply forallb_impl; [|exact Hu].
  intros c Hc. unfold in_id_alphabet, is_upper, chr_in in Hc.
  apply andb_true_intro.
  apply orb_prop in Hc as [Hc|Hc]; apply andb_prop in Hc as [Ha Hb];
    apply N.leb_le in Ha; apply N.leb_le in Hb;
    split; apply negb_true_iff, N.eqb_neq; lia.
Qed.

Lemma truthy_VStr s : truthy (VStr s) = true <-> s <> [].
Proof. destruct s; cbn; split; congruence. Qed.

Lemma hex64_nonempty s : matches_hex64 s = true -> truthy (VStr s) = true.
Proof.
  unfold matches_hex64. intros H. apply andb_prop in H as [H _].
  apply Nat.eqb_eq in H. destruct s; [discriminate|reflexivity].
Qed.

(** One run of [new_storage_config]: three generators in turn, then either
    the old [sqmId] or one more run of the mac-machine-id generator. *)
Lemma new_storage_config_run old_config w :
  exists d1 mid b d4 w1 w2,
    let w3 := set_os_random (snd (draw_many 16 (os_random w2))) w2 in
    let w4 := set_os_random (snd (draw_many 32 (os_random w3))) w3 in
    length d1 = 32%nat /\ length b = 16%nat /\ length d4 = 32%nat
    /\ mid <> []
    /\ List.forallb is_lower_hex mid = true
    /\ generate_mac_machine_id w = (Ok (Sha256.hexdigest d1), w1)
    /\ generate_machine_id w1 = (Ok mid, w2)
    /\ generate_dev_device_id w2 = (Ok (uuid_str (uuid4_bytes b)), w3)
    /\ generate_mac_machine_id w3 = (Ok (Sha256.hexdigest d4), w4)
    /\ new_storage_config old_config w
       = (Ok (mkStorageConfig
                (VStr (Sha256.hexdigest d1)) (VStr mid)
                (VStr (uuid_str (uuid4_bytes b)))
                (if inherits_sqm old_config
                 then match old_config with
                      | Some old => telemetry_sqm_id old
                      | None => VNone
                      end
                 else VStr (Sha256.hexdigest d4))),
          if inherits_sqm old_config then w3 else w4).
Proof.
  destruct (generate_mac_machine_id_run w) as (d1 & Hd1 & H1).
  set (w1 := set_os_random _ w) in H1.
  destruct (generate_machine_id_run w1) as (n & u & w2 & Hn & Hu & Hal & H2).
  destruct (generate_dev_device_id_run w2) as (b & Hb & H3).
  destruct (generate_mac_machine_id_run
              (set_os_random (snd (draw_many 16 (os_random w2))) w2))
    as (d4 & Hd4 & H4).
  exists d1,
    (hex (List.map byte_of_N (str "auth0|user_" ++ format_02d n ++ u))),
    b, d4, w1, w2.
  lazy zeta.
  split; [exact Hd1|]. split; [exact Hb|]. split; [exact Hd4|].
  split; [|split; [apply hex_lower|]].
  { intros E. apply (f_equal (@length N)) in E.
    rewrite hex_length, (length_map byte_of_N), !length_app in E.
    cbn in E. lia. }
  split; [exact H1|]. split; [exact H2|]. split; [exact H3|].
  split; [exact H4|].
  unfold new_storage_config.
  rewrite (bind_ok _ _ _ _ _ H1), (bind_ok _ _ _ _ _ H2),
    (bind_ok _ _ _ _ _ H3).
  destruct old_config as [old|]; cbn [inherits_sqm].
  - destruct (truthy (telemetry_sqm_id old)); [reflexivity|].
    rewrite (bind_ok _ _ _ _ _ H4). reflexivity.
  - rewrite (bind_ok _ _ _ _ _ H4). reflexivity.
Qed.

(** C1: [new_storage_config] always regenerates [macMachineId],
    [machineId] and [devDeviceId] by running the three generators in turn;
    the new [sqmId] is the old one when an old set is given whose [sqmId]
    is non-empty (true in a condition), and otherwise the result of one
    more run of the mac-machine-id procedure, a 64-character lowercase hex
    string; all four fields are non-empty. *)
Theorem new_storage_config_fields
  (old_config : option StorageConfig) (w : world) :
  exists mac mid dev w1 w2 w3 config w',
    generate_mac_machine_id w = (Ok mac, w1)
    /\ generate_machine_id w1 = (Ok mid, w2)
    /\ generate_dev_device_id w2 = (Ok dev, w3)
    /\ new_storage_config old_config w = (Ok config, w')
    /\ telemetry_mac_machine_id config = VStr mac
    /\ telemetry_machine_id config = VStr mid
    /\ telemetry_dev_device_id config = VStr dev
    /\ (forall old, old_config = Some old ->
          truthy (telemetry_sqm_id old) = true ->
          telemetry_sqm_id config = telemetry_sqm_id old /\ w' = w3)
    /\ ((old_config = None
         \/ exists old, old_config = Some old
                        /\ truthy (telemetry_sqm_id old) = false) ->
        exists sqm,
          generate_mac_machine_id w3 = (Ok sqm, w')
          /\ telemetry_sqm_id config = VStr sqm
          /\ matches_hex64 sqm = true)
    /\ truthy (telemetry_mac_machine_id config) = true
    /\ truthy (telemetry_machine_id config) = true
    /\ truthy (telemetry_dev_device_id config) = true
    /\ truthy (telemetry_sqm_id config) = true.
Proof.
  destruct (new_storage_config_run old_config w)
    as (d1 & mid & b & d4 & w1 & w2 & Hd1 & Hb & Hd4 & Hmid & _
        & H1 & H2 & H3 & H4 & Hrun).
  do 6 eexists. eexists. eexists.
  split; [exact H1|]. split; [exact H2|]. split; [exact H3|].
  split; [exact Hrun|].
  cbn [telemetry_mac_machine_id telemetry_machine_id
       telemetry_dev_device_id telemetry_sqm_id].
  split; [reflexivity|]. split; [reflexivity|]. split; [reflexivity|].
  assert (Hdev : truthy (VStr (uuid_str (uuid4_bytes b))) = true).
  { apply truthy_VStr. intros E. apply (f_equal (@length N)) in E.
    rewrite uuid_str_length in E; [discriminate|].
    rewrite uuid4_bytes_length. exact Hb. }
  split; [|split; [|split; [|split; [|split]]]].
  - intros old -> Ht. cbn [inherits_sqm]. rewrite Ht. split; reflexivity.
  - intros Hno.
    assert (Hi : inherits_sqm old_config = false).
    { destruct Hno as [->|(old & -> & Ht)]; [reflexivity|exact Ht]. }
    rewrite Hi. eexists. split; [exact H4|]. split; [reflexivity|].
    apply hexdigest_hex64.
  - apply hex64_nonempty, hexdigest_hex64.
  - apply truthy_VStr, Hmid.
  - exact Hdev.
  - clear Hrun. destruct old_config as [old|]; cbn [inherits_sqm].
    + destruct (truthy (telemetry_sqm_id old)) eqn:Hi; [exact Hi|].
      apply hex64_nonempty, hexdigest_hex64.
    + apply hex64_nonempty, hexdigest_hex64.
Qed.

(** ** Worlds *)

Lemma set_fs_id w : set_fs (fs w) w = w.
Proof. destruct w; reflexivity. Qed.

Lemma set_out_id w : set_out (out w) w = w.
Proof. destruct w; reflexivity. Qed.

(** ** Paths *)

Lemma dirname_app (d : path) x : dirname (d ++ [x]) = d.
Proof. apply removelast_last. Qed.

Lemma path_suffix_app (d : path) x suffix :
  path_suffix (d ++ [x]) suffix = d ++ [x ++ suffix].
Proof.
  induction d as [|y d IH]; [reflexivity|].
  cbn [app path_suffix]. rewrite IH.
  destruct (d ++ [x]) eqn:E; [|reflexivity].
  destruct d; discriminate.
Qed.

Lemma config_path_split sys username :
  exists d, d <> [] /\ config_path_of sys username = d ++ [str "storage.json"].
Proof.
  unfold config_path_of.
  destruct (pystr_eqb sys (str "Darwin")).
  - exists (List.removelast (darwin_path username)). split; [discriminate|reflexivity].
  - exists (List.removelast (linux_path username)). split; [discriminate|reflexivity].
Qed.

Lemma backup_path_split (d : path) x t :
  backup_path_of (d ++ [x]) t = d ++ [x ++ [46] ++ dec_of_Z t ++ str ".bak"].
Proof. unfold backup_path_of. apply path_suffix_app. Qed.

Lemma backup_path_neq (d : path) x t : backup_path_of (d ++ [x]) t <> d ++ [x].
Proof.
  rewrite backup_path_split. intros E. apply app_inv_head in E.
  injection E as E. apply (f_equal (@length N)) in E.
  rewrite !length_app in E. cbn in E. lia.
Qed.

Lemma backup_path_dirname (d : path) x t :
  dirname (backup_path_of (d ++ [x]) t) = d.
Proof. rewrite backup_path_split. apply dirname_app. Qed.

(** ** File-system operations *)

Lemma stat_insert_eq f p n : p <> [] -> stat (<[p := n]> f) p = Some n.
Proof. intros H. destruct p; [congruence|]. cbn. apply lookup_insert_eq. Qed.

Lemma stat_insert_ne f p q n : p <> q -> stat (<[p := n]> f) q = stat f q.
Proof.
  intros H. destruct q; [reflexivity|]. cbn. apply lookup_insert_ne. exact H.
Qed.

Lemma stat_lookup f p : p <> [] -> stat f p = f !! p.
Proof. destruct p; [congruence|reflexivity]. Qed.

Lemma is_dir_insert_dir f p m q :
  is_dir f q = true -> is_dir (<[p := Dir m]> f) q = true.
Proof.
  unfold is_dir. destruct q as [|x q]; [intros _; reflexivity|].
  destruct (decide (p = x :: q)) as [->|Hne].
  - intros _. rewrite stat_insert_eq by discriminate. reflexivity.
  - rewrite stat_insert_ne by exact Hne. trivial.
Qed.

(** Replacing a node by one of the same kind keeps every [is_dir]. *)
Lemma is_dir_insert_same_kind f p n n' q :
  stat f p = Some n ->
  (match n, n' with Dir _, Dir _ | File _ _, File _ _ => True | _, _ => False end) ->
  is_dir (<[p := n']> f) q = is_dir f q.
Proof.
  intros Hp Hk. unfold is_dir.
  destruct q as [|x q]; [reflexivity|].
  destruct (decide (p = x :: q)) as [->|Hne].
  - rewrite stat_insert_eq by discriminate. rewrite Hp.
    destruct n, n'; tauto.
  - rewrite stat_insert_ne by exact Hne. reflexivity.
Qed.

Lemma is_dir_insert_file f p m d q :
  stat f p = None -> is_dir f q = true ->
  is_dir (<[p := File m d]> f) q = true.
Proof.
  intros Hp. unfold is_dir. destruct q as [|x q]; [intros _; reflexivity|].
  destruct (decide (p = x :: q)) as [->|Hne].
  - rewrite Hp. discriminate.
  - rewrite stat_insert_ne by exact Hne. trivial.
Qed.

Lemma fs_tree_insert_dir f p m :
  fs_tree f -> is_dir f (dirname p) = true -> fs_tree (<[p := Dir m]> f).
Proof.
  intros Ht Hd q n Hq.
  destruct (decide (p = q)) as [->|Hne].
  - apply is_dir_insert_dir, Hd.
  - rewrite lookup_insert_ne in Hq by exact Hne.
    apply is_dir_insert_dir. eapply Ht, Hq.
Qed.

Lemma fs_tree_insert_same_kind f p n n' :
  fs_tree f -> stat f p = Some n ->
  (match n, n' with Dir _, Dir _ | File _ _, File _ _ => True | _, _ => False end) ->
  fs_tree (<[p := n']> f).
Proof.
  intros Ht Hp Hk q n0 Hq.
  rewrite (is_dir_insert_same_kind _ _ _ _ _ Hp Hk).
  destruct (decide (p = q)) as [->|Hne].
  - destruct q as [|x q]; [reflexivity|]. cbn in Hp. eapply Ht, Hp.
  - rewrite lookup_insert_ne in Hq by exact Hne. eapply Ht, Hq.
Qed.

Lemma fs_tree_insert_file f p m d :
  fs_tree f -> stat f p = None -> is_dir f (dirname p) = true ->
  fs_tree (<[p := File m d]> f).
Proof.
  intros Ht Hp Hd q n Hq.
  destruct (decide (p = q)) as [->|Hne].
  - apply is_dir_insert_file; assumption.
  - rewrite lookup_insert_ne in Hq by exact Hne.
    apply is_dir_insert_file; [assumption|]. eapply Ht, Hq.
Qed.

(** In a tree every ancestor of a directory is a directory. *)
Lemma fs_tree_ancestors f (d : path) :
  fs_tree f -> is_dir f d = true ->
  forall a, a `prefix_of` d -> is_dir f a = true.
Proof.
  intros Ht. induction d as [|x d IH] using rev_ind; intros Hd a [r Hr].
  - destruct a; [reflexivity|discriminate].
  - destruct r as [|y r _] using rev_ind.
    + rewrite app_nil_r in Hr. subst a. exact Hd.
    + rewrite app_assoc in Hr. apply app_inj_tail in Hr as [Hr _].
      apply IH; [|exists r; exact Hr].
      unfold is_dir in Hd.
      destruct (stat f (d ++ [x])) as [n|] eqn:E; [|discriminate].
      rewrite stat_lookup in E by (destruct d; discriminate).
      apply Ht in E. rewrite dirname_app in E. exact E.
Qed.

Lemma try_except_ok {A} (m : M A) h w a w' :
  m w = (Ok a, w') -> try_except m h w = (Ok a, w').
Proof. intros H. unfold try_except. rewrite H. reflexivity. Qed.

Lemma try_except_raise {A} (m : M A) h w e w' :
  m w = (Raise e, w') -> try_except m h w = h e w'.
Proof. intros H. unfold try_except. rewrite H. reflexivity. Qed.

Lemma mkdir_ok p w w' :
  mkdir p w = (Ok tt, w') ->
  stat (fs w) p = None /\ is_dir (fs w) (dirname p) = true
  /\ w' = set_fs (<[p := Dir (new_mode 511 w)]> (fs w)) w.
Proof.
  unfold mkdir, is_dir.
  destruct (faults w (SysMkdir p)); [discriminate|].
  destruct (stat (fs w) p); [discriminate|].
  destruct (stat (fs w) (dirname p)) as [[m|m d]|]; try discriminate.
  intros [= <-]. auto.
Qed.

Lemma mkdir_raise p w e w' :
  mkdir p w = (Raise e, w') -> w' = w /\ exists c, e = OSError c (SysMkdir p).
Proof.
  unfold mkdir.
  destruct (faults w (SysMkdir p)); [intros [= <- <-]; eauto|].
  destruct (stat (fs w) p); [intros [= <- <-]; eauto|].
  destruct (stat (fs w) (dirname p)) as [[m|m d]|];
    try discriminate; intros [= <- <-]; eauto.
Qed.

Lemma grows_dirs_refl w d : grows_dirs w w d.
Proof.
  split; [symmetry; apply set_fs_id|]. split; [trivial|]. intros q. auto.
Qed.

Lemma grows_dirs_trans w1 w2 w3 d1 d2 :
  d1 `prefix_of` d2 ->
  grows_dirs w1 w2 d1 -> grows_dirs w2 w3 d2 -> grows_dirs w1 w3 d2.
Proof.
  intros Hp (E1 & T1 & F1) (E2 & T2 & F2). split; [|split].
  - rewrite E2 at 1. rewrite E1 at 1. reflexivity.
  - auto.
  - intros q. destruct (F2 q) as [E|(N2 & P2 & m & S2)].
    + rewrite E. destruct (F1 q) as [E'|(N1 & P1 & m & S1)]; [auto|].
      right. split; [exact N1|]. split; [|eauto].
      etransitivity; [exact P1|exact Hp].
    + destruct (F1 q) as [E'|(N1 & P1 & m' & S1)]; [|congruence].
      right. split; [congruence|]. split; [exact P2|eauto].
Qed.

Lemma grows_dirs_mkdir p w w' :
  mkdir p w = (Ok tt, w') -> grows_dirs w w' p.
Proof.
  intros H. apply mkdir_ok in H as (Hn & Hd & ->).
  split; [reflexivity|]. split.
  - intros Ht. apply fs_tree_insert_dir; assumption.
  - intros q. cbn. destruct (decide (p = q)) as [<-|Hne].
    + right. rewrite lookup_insert_eq. split; [|split; [reflexivity|eauto]].
      destruct p; [discriminate|exact Hn].
    + left. apply lookup_insert_ne, Hne.
Qed.

Lemma makedirs_rev_spec rp :
  forall w r w',
    makedirs_rev rp w = (r, w') ->
    grows_dirs w w' (List.rev rp)
    /\ (r = Ok tt -> is_dir (fs w') (List.rev rp) = true).
Proof.
  induction rp as [|tail rhead IH]; intros w r w' H.
  - injection H as <- <-. split; [apply grows_dirs_refl|reflexivity].
  - cbn [makedirs_rev] in H. cbn [List.rev] in *.
    set (name := List.rev rhead ++ [tail]) in *.
    unfold bind at 1 in H. unfold path_exists at 1, get at 1 in H.
    assert (Hpre : List.rev rhead `prefix_of` name) by (eexists; reflexivity).
    (* the parent chain *)
    assert (Hchain : forall w1 r1,
      (if negb (match stat (fs w) (List.rev rhead) with
                | Some _ => true | None => false end)
       then try_except (makedirs_rev rhead)
              (fun e => match e with
                        | OSError EEXIST _ => ret tt
                        | _ => raise e
                        end)
       else ret tt) w = (r1, w1) -> grows_dirs w w1 (List.rev rhead)).
    { intros w1 r1 Hc.
      destruct (stat (fs w) (List.rev rhead)); cbn [negb] in Hc.
      - injection Hc as <- <-. apply grows_dirs_refl.
      - unfold try_except in Hc.
        destruct (makedirs_rev rhead w) as [[[]|e] w2] eqn:E;
          apply IH in E as [G _].
        + injection Hc as <- <-. exact G.
        + destruct e as [[] call| | | | | | | | |];
            injection Hc as <- <-; exact G. }
    unfold bind at 1 in H.
    match type of H with
    | context [match ?c w with _ => _ end] => destruct (c w) as [[[]|e] w1] eqn:E1
    end.
    + specialize (Hchain _ _ eq_refl). clear E1. rename Hchain into E1.
      unfold try_except in H.
      destruct (mkdir name w1) as [[[]|e] w2] eqn:E2.
      * injection H as <- <-. split.
        -- eapply grows_dirs_trans; [exact Hpre|exact E1|].
           apply grows_dirs_mkdir, E2.
        -- intros _. apply mkdir_ok in E2 as (_ & _ & ->). cbn.
           unfold is_dir. rewrite stat_insert_eq; [reflexivity|].
           subst name. destruct (List.rev rhead); discriminate.
      * apply mkdir_raise in E2 as (-> & c & ->).
        unfold bind, path_isdir, get in H.
        destruct (is_dir (fs w1) name) eqn:D; injection H as <- <-.
        -- split; [|intros _; exact D].
           eapply grows_dirs_trans; [exact Hpre|exact E1|apply grows_dirs_refl].
        -- split; [|discriminate].
           eapply grows_dirs_trans; [exact Hpre|exact E1|apply grows_dirs_refl].
    + specialize (Hchain _ _ eq_refl). clear E1. rename Hchain into E1. injection H as <- <-. split; [|discriminate].
      eapply grows_dirs_trans; [exact Hpre|exact E1|apply grows_dirs_refl].
Qed.

Lemma makedirs_spec d w r w' :
  makedirs d w = (r, w') ->
  grows_dirs w w' d /\ (r = Ok tt -> is_dir (fs w') d = true).
Proof.
  unfold makedirs. intros H. apply makedirs_rev_spec in H.
  rewrite rev_involutive in H. exact H.
Qed.

Lemma path_exists_run p w :
  path_exists p w
  = (Ok (match stat (fs w) p with Some _ => true | None => false end), w).
Proof. reflexivity. Qed.

Lemma makedirs_rev_total rp :
  forall w, fs_tree (fs w) -> creatable w (List.rev rp) ->
            exists w', makedirs_rev rp w = (Ok tt, w').
Proof.
  induction rp as [|tail rhead IH]; intros w Ht Hc.
  - eexists. reflexivity.
  - cbn [makedirs_rev List.rev] in *.
    set (name := List.rev rhead ++ [tail]) in *.
    assert (Hpre : List.rev rhead `prefix_of` name) by (eexists; reflexivity).
    assert (Hname : name <> []) by (subst name; destruct (List.rev rhead); discriminate).
    rewrite (bind_ok _ _ _ _ _ (path_exists_run _ _)).
    (* after the parent chain the parent is a directory *)
    assert (Hchain : exists w1,
      (if negb (match stat (fs w) (List.rev rhead) with
                | Some _ => true | None => false end)
       then try_except (makedirs_rev rhead)
              (fun e => match e with
                        | OSError EEXIST _ => ret tt
                        | _ => raise e
                        end)
       else ret tt) w = (Ok tt, w1)
      /\ grows_dirs w w1 (List.rev rhead)
      /\ is_dir (fs w1) (List.rev rhead) = true).
    { destruct (stat (fs w) (List.rev rhead)) as [n|] eqn:E; cbn [negb].
      - exists w. split; [reflexivity|]. split; [apply grows_dirs_refl|].
        destruct (Hc _ Hpre) as [D|[N _]]; [exact D|congruence].
      - destruct (IH w Ht) as (w1 & H1).
        { intros a Ha. apply Hc. etransitivity; [exact Ha|exact Hpre]. }
        exists w1. rewrite (try_except_ok _ _ _ _ _ H1).
        apply makedirs_rev_spec in H1 as [G D]. auto. }
    destruct Hchain as (w1 & Hch & G & D).
    rewrite (bind_ok _ _ _ _ _ Hch).
    assert (Hsame : fs w1 !! name = fs w !! name).
    { destruct G as (_ & _ & F). destruct (F name) as [E|(_ & [r Hr] & _)];
        [exact E|].
      exfalso. apply (f_equal (@length (list N))) in Hr.
      subst name. rewrite !length_app in Hr. cbn in Hr. lia. }
    assert (Hf : faults w1 = faults w) by (destruct G as (-> & _); reflexivity).
    destruct (mkdir name w1) as [[[]|e] w2] eqn:E2.
    + exists w2. apply try_except_ok. exact E2.
    + pose proof E2 as E2'. apply mkdir_raise in E2' as (-> & c & ->).
      exists w1. rewrite (try_except_raise _ _ _ _ _ E2).
      assert (Hstat : stat (fs w1) name = stat (fs w) name)
        by (rewrite !stat_lookup by exact Hname; exact Hsame).
      destruct (Hc name) as [Dn|[Nn Fn]]; [reflexivity| |].
      * unfold bind, path_isdir, get, is_dir. rewrite Hstat.
        unfold is_dir in Dn. rewrite Dn. reflexivity.
      * exfalso. unfold mkdir in E2. rewrite Hf, Fn, Hstat, Nn in E2.
        subst name. rewrite dirname_app in E2. unfold is_dir in D.
        destruct (stat (fs w1) (rev rhead)) as [[|]|]; discriminate.
Qed.

Lemma makedirs_total d w :
  fs_tree (fs w) -> creatable w d -> exists w', makedirs d w = (Ok tt, w').
Proof.
  intros Ht Hc. apply makedirs_rev_total; [exact Ht|].
  rewrite rev_involutive. exact Hc.
Qed.

(** In a tree, the directory of an existing node needs no creation. *)
Lemma creatable_existing w (d : path) x n :
  fs_tree (fs w) -> fs w !! (d ++ [x]) = Some n -> creatable w d.
Proof.
  intros Ht Hn a Ha. left.
  apply (fs_tree_ancestors (fs w) d Ht); [|exact Ha].
  apply Ht in Hn. rewrite dirname_app in Hn. exact Hn.
Qed.

(** ** The JSON codec: strings *)

Ltac Zify.zify_post_hook ::= Z.to_euclidean_division_equations.

Lemma hexval_hexdigit n : n < 16 -> Json.hexval (hexdigit n) = Some n.
Proof.
  intros H.
  assert (Hc : List.forallb
                 (fun k => match Json.hexval (hexdigit (N.of_nat k)) with
                           | Some m => m =? N.of_nat k
                           | None => false
                           end)
                 (List.seq 0 16) = true) by (vm_compute; reflexivity).
  rewrite forallb_forall in Hc. specialize (Hc (N.to_nat n)).
  rewrite in_seq, N2Nat.id in Hc.
  assert (Hr : (0 <= N.to_nat n < 0 + 16)%nat) by lia.
  apply Hc in Hr. destruct (Json.hexval (hexdigit n)); [|discriminate].
  apply N.eqb_eq in Hr. congruence.
Qed.

Lemma hex4_hex4_of c :
  c < 65536 ->
  Json.hex4 (hexdigit (c / 4096 mod 16)) (hexdigit (c / 256 mod 16))
            (hexdigit (c / 16 mod 16)) (hexdigit (c mod 16)) = Some c.
Proof.
  intros H. unfold Json.hex4.
  rewrite !hexval_hexdigit by (apply N.mod_lt; discriminate).
  f_equal. lia.
Qed.

Lemma scan_string_u_escape c r :
  c < 65536 ->
  (Json.is_high c = true -> no_low_escape r) ->
  Json.scan_string (Json.u_escape c ++ r) = Json.push c (Json.scan_string r).
Proof.
  intros Hc Hr. unfold Json.u_escape, Json.hex4_of. cbn [app].
  cbn [Json.scan_string]. cbn [N.eqb Pos.eqb].
  rewrite (hex4_hex4_of c Hc).
  destruct (Json.is_high c) eqn:Hh; [|reflexivity].
  specialize (Hr eq_refl). unfold no_low_escape in Hr.
  destruct r as [|a [|b r]]; [reflexivity..|].
  destruct ((a =? 92) && (b =? 117)); [|reflexivity].
  specialize (Hr eq_refl).
  destruct r as [|l1 [|l2 [|l3 [|l4 r]]]]; try contradiction.
  destruct Hr as (u & -> & ->). reflexivity.
Qed.
Lemma scan_string_escape_char c r :
  c < 1114112 ->
  (Json.is_high c = true -> no_low_escape r) ->
  Json.scan_string (Json.escape_char c ++ r) = Json.push c (Json.scan_string r).
Proof.
  intros Hc Hr. unfold Json.escape_char.
  destruct (c =? 34) eqn:E1; [apply N.eqb_eq in E1; subst; reflexivity|].
  destruct (c =? 92) eqn:E2; [apply N.eqb_eq in E2; subst; reflexivity|].
  destruct (c =? 8) eqn:E3; [apply N.eqb_eq in E3; subst; reflexivity|].
  destruct (c =? 12) eqn:E4; [apply N.eqb_eq in E4; subst; reflexivity|].
  destruct (c =? 10) eqn:E5; [apply N.eqb_eq in E5; subst; reflexivity|].
  destruct (c =? 13) eqn:E6; [apply N.eqb_eq in E6; subst; reflexivity|].
  destruct (c =? 9) eqn:E7; [apply N.eqb_eq in E7; subst; reflexivity|].
  destruct (chr_in 32 126 c) eqn:E8.
  { cbn [app Json.scan_string]. rewrite E1, E2.
    unfold chr_in in E8. apply andb_prop in E8 as [E8 _].
    apply N.leb_le in E8.
    destruct (c <? 32) eqn:E9; [apply N.ltb_lt in E9; lia|reflexivity]. }
  destruct (c <? 65536) eqn:E9.
  { apply N.ltb_lt in E9. apply scan_string_u_escape; assumption. }
  apply N.ltb_ge in E9.
  set (n := c - 65536).
  set (hi := 55296 + (n / 1024) mod 1024).
  set (lo := 56320 + n mod 1024).
  assert (Hhi : Json.is_high hi = true).
  { unfold Json.is_high, chr_in. apply andb_true_intro.
    split; apply N.leb_le; subst hi; lia. }
  assert (Hlo : Json.is_low lo = true).
  { unfold Json.is_low, chr_in. apply andb_true_intro.
    split; apply N.leb_le; subst lo; lia. }
  unfold Json.u_escape at 1, Json.hex4_of. cbn [app].
  cbn [Json.scan_string]. cbn [N.eqb Pos.eqb].
  rewrite (hex4_hex4_of hi) by (subst hi; lia). rewrite Hhi.
  unfold Json.u_escape, Json.hex4_of. cbn [app].
  change ((92 =? 92) && (117 =? 117)) with true. cbn iota.
  rewrite (hex4_hex4_of lo) by (subst lo; lia). rewrite Hlo.
  f_equal. unfold Json.join_surrogates. subst hi lo n. lia.
Qed.

Lemma no_low_escape_escape_char c r :
  c < 1114112 -> Json.is_low c = false ->
  no_low_escape (Json.escape_char c ++ r).
Proof.
  intros Hc Hl. unfold Json.escape_char.
  destruct (c =? 34); [intros [=]|].
  destruct (c =? 92) eqn:E2; [intros [=]|].
  destruct (c =? 8); [intros [=]|].
  destruct (c =? 12); [intros [=]|].
  destruct (c =? 10); [intros [=]|].
  destruct (c =? 13); [intros [=]|].
  destruct (c =? 9); [intros [=]|].
  destruct (chr_in 32 126 c) eqn:E8.
  { cbn [app]. unfold no_low_escape. destruct r as [|b r]; [exact I|].
    rewrite E2. intros [=]. }
  destruct (c <? 65536) eqn:E9.
  { apply N.ltb_lt in E9. unfold Json.u_escape, Json.hex4_of. cbn [app].
    intros _. exists c. split; [apply hex4_hex4_of, E9|exact Hl]. }
  apply N.ltb_ge in E9.
  unfold Json.u_escape at 1, Json.hex4_of. cbn [app]. intros _.
  eexists. split; [apply hex4_hex4_of; lia|].
  unfold Json.is_low, chr_in. apply andb_false_intro1, N.leb_gt. lia.
Qed.

Lemma scan_string_encode s rest :
  wf_str s = true ->
  Json.scan_string (List.concat (List.map Json.escape_char s) ++ 34 :: rest)
  = Some (s, rest).
Proof.
  unfold wf_str. induction s as [|c s IH]; intros H; [reflexivity|].
  apply andb_prop in H as [Hb Hp]. cbn [List.forallb] in Hb.
  apply andb_prop in Hb as [Hc Hb]. apply N.ltb_lt in Hc.
  cbn [no_surrogate_pair] in Hp. apply andb_prop in Hp as [Hpair Hp].
  cbn [List.map List.concat]. rewrite <- app_assoc.
  rewrite scan_string_escape_char; [|exact Hc|].
  - rewrite IH; [reflexivity|]. rewrite Hb, Hp. reflexivity.
  - intros Hh. destruct s as [|b s].
    { cbn [List.map List.concat app]. destruct rest; [exact I|intros [=]]. }
    cbn [List.map List.concat]. rewrite <- app_assoc.
    cbn [List.forallb] in Hb. apply andb_prop in Hb as [Hb' _].
    apply N.ltb_lt in Hb'.
    apply no_low_escape_escape_char; [exact Hb'|].
    rewrite Hh in Hpair. destruct (Json.is_low b); [discriminate|reflexivity].
Qed.

Lemma scan_encode_string s rest :
  wf_str s = true ->
  Json.scan_string (List.tl (Json.encode_string s) ++ rest) = Some (s, rest).
Proof.
  intros H. unfold Json.encode_string. cbn [List.tl].
  rewrite <- app_assoc. apply scan_string_encode, H.
Qed.

(** ** The JSON codec: numbers *)

Lemma delimiter_inv c :
  delimiter c = true ->
  is_digit c = false /\ (c =? 46) = false /\ (c =? 101) = false
  /\ (c =? 69) = false /\ (c =? 43) = false /\ (c =? 45) = false.
Proof.
  unfold delimiter. intros H. apply negb_true_iff in H.
  repeat (apply orb_false_elim in H as [H ?]). repeat split; assumption.
Qed.

Lemma span_digits_spec s :
  s = fst (Json.span_digits s) ++ snd (Json.span_digits s)
  /\ List.forallb is_digit (fst (Json.span_digits s)) = true
  /\ match snd (Json.span_digits s) with
     | c :: _ => is_digit c = false
     | [] => True
     end.
Proof.
  induction s as [|c s IH]; [cbn; auto|]. cbn [Json.span_digits].
  destruct (is_digit c) eqn:E.
  - destruct (Json.span_digits s) as [ds r]. cbn [fst snd] in *.
    destruct IH as (-> & Hd & Hr). cbn. rewrite E, Hd. auto.
  - cbn. auto.
Qed.

Lemma span_digits_app s rest :
  delimited rest ->
  Json.span_digits (s ++ rest)
  = (fst (Json.span_digits s), snd (Json.span_digits s) ++ rest).
Proof.
  intros Hr. induction s as [|c s IH]; cbn [app Json.span_digits].
  - destruct rest as [|c rest]; [reflexivity|].
    cbn [Json.span_digits]. apply delimiter_inv in Hr as (-> & _).
    reflexivity.
  - destruct (is_digit c); [|reflexivity].
    rewrite IH. destruct (Json.span_digits s). reflexivity.
Qed.

Lemma span_digits_all ds rest :
  List.forallb is_digit ds = true -> delimited rest ->
  Json.span_digits (ds ++ rest) = (ds, rest).
Proof.
  intros Hd Hr. induction ds as [|c ds IH]; cbn [app Json.span_digits].
  - destruct rest as [|c rest]; [reflexivity|].
    cbn [Json.span_digits]. apply delimiter_inv in Hr as (-> & _).
    reflexivity.
  - cbn [List.forallb] in Hd. apply andb_prop in Hd as [-> Hd].
    rewrite (IH Hd). reflexivity.
Qed.

Lemma scan_digits_app s rest ds r :
  delimited rest ->
  Json.scan_digits s = Some (ds, r) ->
  Json.scan_digits (s ++ rest) = Some (ds, r ++ rest).
Proof.
  intros Hd. unfold Json.scan_digits.
  destruct s as [|c s]; [discriminate|]. cbn [app].
  destruct (c =? 48); [intros [= <- <-]; reflexivity|].
  destruct (is_digit c); [|discriminate].
  intros H.
  assert (H' : Json.span_digits (c :: s) = (ds, r)) by congruence.
  change (c :: s ++ rest) with ((c :: s) ++ rest).
  rewrite (span_digits_app _ _ Hd), H'. reflexivity.
Qed.

Lemma scan_int_app s rest neg ds r :
  delimited rest ->
  Json.scan_int s = Some (neg, ds, r) ->
  Json.scan_int (s ++ rest) = Some (neg, ds, r ++ rest).
Proof.
  intros Hd. unfold Json.scan_int.
  destruct s as [|c s]; [discriminate|]. cbn [app].
  destruct (c =? 45).
  - destruct (Json.scan_digits s) as [[ds0 r0]|] eqn:E; [|discriminate].
    intros [= <- <- <-]. rewrite (scan_digits_app _ _ _ _ Hd E). reflexivity.
  - destruct (Json.scan_digits (c :: s)) as [[ds0 r0]|] eqn:E; [|discriminate].
    intros [= <- <- <-].
    change (c :: s ++ rest) with ((c :: s) ++ rest).
    rewrite (scan_digits_app _ _ _ _ Hd E). reflexivity.
Qed.

Lemma scan_frac_app s rest :
  delimited rest ->
  Json.scan_frac (s ++ rest)
  = (fst (Json.scan_frac s), snd (Json.scan_frac s) ++ rest).
Proof.
  intros Hd. unfold Json.scan_frac. destruct s as [|c s]; cbn [app].
  - destruct rest as [|c rest]; [reflexivity|].
    apply delimiter_inv in Hd as (_ & -> & _). reflexivity.
  - destruct (c =? 46); [|reflexivity].
    rewrite (span_digits_app _ _ Hd).
    destruct (Json.span_digits s) as [[|d ds] r]; reflexivity.
Qed.

Lemma scan_exp_app s rest :
  delimited rest ->
  Json.scan_exp (s ++ rest)
  = (fst (Json.scan_exp s), snd (Json.scan_exp s) ++ rest).
Proof.
  intros Hd. unfold Json.scan_exp. destruct s as [|e s]; cbn [app].
  - destruct rest as [|c rest]; [reflexivity|].
    apply delimiter_inv in Hd as (_ & _ & -> & -> & _). reflexivity.
  - destruct ((e =? 101) || (e =? 69)); [|reflexivity].
    destruct s as [|c s]; cbn [app].
    + destruct rest as [|c rest]; [reflexivity|].
      pose proof Hd as Hd'.
      apply delimiter_inv in Hd' as (Hdig & _ & _ & _ & -> & ->).
      cbn [orb Json.span_digits]. rewrite Hdig. reflexivity.
    + destruct ((c =? 45) || (c =? 43)).
      * rewrite (span_digits_app _ _ Hd).
        destruct (Json.span_digits s) as [[|d ds] r]; reflexivity.
      * change (c :: s ++ rest) with ((c :: s) ++ rest).
        rewrite (span_digits_app _ _ Hd).
        destruct (Json.span_digits (c :: s)) as [[|d ds] r]; reflexivity.
Qed.

Lemma scan_number_app s rest v r :
  delimited rest ->
  Json.scan_number s = Some (v, r) ->
  Json.scan_number (s ++ rest) = Some (v, r ++ rest).
Proof.
  intros Hd. unfold Json.scan_number.
  destruct (Json.scan_int s) as [[[neg ds] r0]|] eqn:E; [|discriminate].
  rewrite (scan_int_app _ _ _ _ _ Hd E).
  rewrite (scan_frac_app _ _ Hd).
  destruct (Json.scan_frac r0) as [frac r1]. cbn [fst snd].
  rewrite (scan_exp_app _ _ Hd).
  destruct (Json.scan_exp r1) as [ex r2]. cbn [fst snd].
  destruct frac, ex; intros [= <- <-]; reflexivity.
Qed.

Lemma uint_chars_digits u : List.forallb is_digit (uint_chars u) = true.
Proof. induction u; cbn; auto. Qed.

Lemma nat_of_digits_uint u acc :
  List.fold_left Json.digit_value (uint_chars u) acc
  = DecimalPos.Unsigned.of_lu (Decimal.rev u)
    + acc * 10 ^ DecimalPos.Unsigned.usize u.
Proof.
  revert acc. induction u; intros acc; cbn [uint_chars List.fold_left];
    [cbn; lia|..];
    rewrite IHu; unfold Decimal.rev; cbn [Decimal.revapp];
    match goal with
    | |- _ = DecimalPos.Unsigned.of_lu (Decimal.revapp u ?d) + _ =>
        rewrite (DecimalPos.Unsigned.of_lu_revapp u d)
    end;
    cbn [DecimalPos.Unsigned.usize DecimalPos.Unsigned.of_lu];
    rewrite N.pow_succ_r'; unfold Json.digit_value, Decimal.rev;
    match goal with
    | |- context [N.pos ?a - 48] =>
        let v := eval vm_compute in (N.pos a - 48) in
        change (N.pos a - 48) with v
    end; ring.
Qed.

Lemma nat_of_digits_dec_of_N n : Json.nat_of_digits (dec_of_N n) = n.
Proof.
  unfold Json.nat_of_digits, dec_of_N. rewrite nat_of_digits_uint.
  rewrite <- DecimalPos.Unsigned.of_uint_alt.
  change (Pos.of_uint (N.to_uint n)) with (N.of_uint (N.to_uint n)).
  rewrite DecimalN.Unsigned.of_to. lia.
Qed.

Lemma nzhead_not_D0 u v : Decimal.nzhead u <> Decimal.D0 v.
Proof. induction u; cbn; try discriminate. exact IHu. Qed.

Lemma to_uint_head p :
  exists c cs, uint_chars (Pos.to_uint p) = c :: cs
               /\ (c =? 48) = false /\ is_digit c = true.
Proof.
  assert (Hn : Decimal.unorm (Pos.to_uint p) = Pos.to_uint p).
  { rewrite <- DecimalPos.Unsigned.to_of, DecimalPos.Unsigned.of_to.
    reflexivity. }
  pose proof (DecimalPos.Unsigned.to_uint_nonzero p) as Hz.
  pose proof (DecimalPos.Unsigned.to_uint_nonnil p) as Hnil.
  destruct (Pos.to_uint p) as [|u|u|u|u|u|u|u|u|u|u] eqn:E;
    [congruence| |eexists; eexists; split; [reflexivity|split; reflexivity]..].
  exfalso. rewrite DecimalFacts.unorm_D0 in Hn. unfold Decimal.unorm in Hn.
  destruct (Decimal.nzhead u) eqn:En;
    try discriminate; try (eapply nzhead_not_D0; rewrite En; exact Hn).
  injection Hn as <-. apply Hz. reflexivity.
Qed.

Lemma scan_digits_dec_of_N n rest :
  delimited rest ->
  Json.scan_digits (dec_of_N n ++ rest) = Some (dec_of_N n, rest).
Proof.
  intros Hd. destruct n as [|p]; [reflexivity|].
  unfold dec_of_N. cbn [N.to_uint].
  pose proof (uint_chars_digits (Pos.to_uint p)) as Hdig.
  destruct (to_uint_head p) as (c & cs & E & H48 & Hc).
  rewrite E in *. cbn [app]. unfold Json.scan_digits. rewrite H48, Hc.
  change (c :: cs ++ rest) with ((c :: cs) ++ rest).
  rewrite (span_digits_all _ _ Hdig Hd). reflexivity.
Qed.

Lemma dec_of_N_head n :
  exists c cs, dec_of_N n = c :: cs /\ is_digit c = true.
Proof.
  destruct n as [|p]; [exists 48, []; split; reflexivity|].
  destruct (to_uint_head p) as (c & cs & E & _ & Hc). eauto.
Qed.

Lemma digit_not_minus c : is_digit c = true -> (c =? 45) = false.
Proof.
  unfold is_digit, chr_in. intros H. apply andb_prop in H as [H _].
  apply N.leb_le in H. apply N.eqb_neq. lia.
Qed.

Lemma scan_number_dec_of_Z z rest :
  delimited rest ->
  Json.scan_number (dec_of_Z z ++ rest) = Some (VInt z, rest).
Proof.
  intros Hd.
  assert (Hint : Json.scan_int (dec_of_Z z ++ rest)
                 = Some ((z <? 0)%Z, dec_of_N (Z.abs_N z), rest)).
  { unfold Json.scan_int, dec_of_Z.
    destruct z as [|p|p].
    - reflexivity.
    - change (Z.to_N (Z.pos p)) with (N.pos p).
      change (Z.abs_N (Z.pos p)) with (N.pos p).
      pose proof (scan_digits_dec_of_N (N.pos p) rest Hd) as Hs.
      destruct (dec_of_N_head (N.pos p)) as (c & cs & E & Hc).
      rewrite E in *. cbn [app] in *. rewrite (digit_not_minus _ Hc), Hs.
      reflexivity.
    - cbn [app]. change (45 =? 45) with true. cbn iota.
      rewrite (scan_digits_dec_of_N _ _ Hd). reflexivity. }
  unfold Json.scan_number. rewrite Hint.
  pose proof (scan_frac_app [] rest Hd) as Hf. cbn in Hf. rewrite Hf.
  pose proof (scan_exp_app [] rest Hd) as He. cbn in He. rewrite He.
  rewrite nat_of_digits_dec_of_N.
  do 2 f_equal. destruct z; cbn; try reflexivity.
Qed.

(** ** The JSON codec: values *)

(** Induction over values, through lists and dictionaries. *)
Lemma value_ind' (P : value -> Prop) :
  P VNone -> (forall b, P (VBool b)) -> (forall z, P (VInt z)) ->
  (forall l, P (VFloat l)) -> (forall s, P (VStr s)) ->
  (forall items, Forall P items -> P (VList items)) ->
  (forall members, Forall (fun kv => P (snd kv)) members -> P (VDict members)) ->
  forall v, P v.
Proof.
  intros HN HB HI HF HS HL HD.
  fix IH 1. intros [| b | z | l | s | items | members];
    [apply HN|apply HB|apply HI|apply HF|apply HS| |].
  - apply HL. induction items as [|x xs IHxs]; constructor; [apply IH|exact IHxs].
  - apply HD. induction members as [|[k x] kxs IHkxs]; constructor;
      [apply IH|exact IHkxs].
Qed.

Lemma skip_ws_newline_indent level s :
  Json.skip_ws (Json.newline_indent level ++ s) = Json.skip_ws s.
Proof.
  unfold Json.newline_indent. cbn [app Json.skip_ws].
  change (Json.is_ws 10) with true. cbn iota.
  induction (2 * level)%nat as [|n IH]; [reflexivity|].
  cbn [List.repeat app Json.skip_ws]. change (Json.is_ws 32) with true.
  exact IH.
Qed.

Lemma skip_ws_head c s : Json.is_ws c = false -> Json.skip_ws (c :: s) = c :: s.
Proof. intros H. cbn [Json.skip_ws]. rewrite H. reflexivity. Qed.

Lemma scan_number_head s v r :
  Json.scan_number s = Some (v, r) ->
  exists c s', s = c :: s' /\ (is_digit c = true \/ c = 45).
Proof.
  unfold Json.scan_number, Json.scan_int.
  destruct s as [|c s]; [discriminate|]. intros H. exists c, s.
  split; [reflexivity|].
  destruct (c =? 45) eqn:E; [apply N.eqb_eq in E; auto|].
  unfold Json.scan_digits in H.
  destruct (c =? 48) eqn:E48; [apply N.eqb_eq in E48; subst; auto|].
  destruct (is_digit c); [auto|discriminate].
Qed.

Lemma wf_float_cases l :
  wf_float l = true ->
  l = str "NaN" \/ l = str "Infinity" \/ l = str "-Infinity"
  \/ Json.scan_number l = Some (VFloat l, []).
Proof.
  unfold wf_float, pystr_eqb. intros H.
  apply orb_prop in H as [H|H]; [|right; right; right].
  - apply orb_prop in H as [H|H]; [|right; right; left].
    + apply orb_prop in H as [H|H]; [left|right; left];
        apply bool_decide_eq_true in H; exact H.
    + apply bool_decide_eq_true in H; exact H.
  - destruct (Json.scan_number l) as [[[] [|]]|]; try discriminate.
    apply bool_decide_eq_true in H. subst. reflexivity.
Qed.

Lemma digit_or_minus_dispatch c :
  is_digit c = true \/ c = 45 ->
  (c =? 34) = false /\ (c =? 123) = false /\ (c =? 91) = false
  /\ (c =? 110) = false /\ (c =? 116) = false /\ (c =? 102) = false
  /\ starts_value c.
Proof.
  unfold starts_value, Json.is_ws, is_digit, chr_in. intros [H| ->].
  - apply andb_prop in H as [H1 H2].
    apply N.leb_le in H1. apply N.leb_le in H2.
    repeat split; try (apply N.eqb_neq; lia).
    repeat (apply orb_false_intro); apply N.eqb_neq; lia.
  - repeat split; reflexivity.
Qed.

Lemma scan_constant_number s rest v :
  delimited rest ->
  Json.scan_number s = Some (v, []) ->
  Json.scan_constant (s ++ rest) = Some (v, rest).
Proof.
  intros Hd H.
  destruct (scan_number_head _ _ _ H) as (c & s' & -> & Hc).
  apply digit_or_minus_dispatch in Hc as (_ & _ & _ & Hn & Ht & Hf & _).
  pose proof (scan_number_app _ _ _ _ Hd H) as Hs. cbn [app] in *.
  unfold Json.scan_constant.
  change (str "null") with [110; 117; 108; 108].
  change (str "true") with [116; 114; 117; 101].
  change (str "false") with [102; 97; 108; 115; 101].
  cbn [Json.strip_prefix].
  rewrite N.eqb_sym, Hn. rewrite (N.eqb_sym 116), Ht.
  rewrite (N.eqb_sym 102), Hf. rewrite Hs. reflexivity.
Qed.

Lemma scan_once_atom fuel c s :
  (c =? 34) = false -> (c =? 123) = false -> (c =? 91) = false ->
  Json.scan_once (S fuel) (c :: s) = Json.scan_constant (c :: s).
Proof. intros H1 H2 H3. cbn [Json.scan_once]. rewrite H1, H2, H3. reflexivity. Qed.

Lemma scan_once_number fuel s rest v :
  delimited rest ->
  Json.scan_number s = Some (v, []) ->
  Json.scan_once (S fuel) (s ++ rest) = Some (v, rest).
Proof.
  intros Hd H.
  destruct (scan_number_head _ _ _ H) as (c & s' & E & Hc).
  apply digit_or_minus_dispatch in Hc as (H1 & H2 & H3 & _).
  rewrite <- (scan_constant_number _ _ _ Hd H). subst s. cbn [app].
  apply scan_once_atom; assumption.
Qed.

Lemma scan_once_float fuel l rest :
  wf_float l = true -> delimited rest ->
  Json.scan_once (S fuel) (l ++ rest) = Some (VFloat l, rest).
Proof.
  intros Hw Hd.
  destruct (wf_float_cases l Hw) as [-> | [-> | [-> | H]]];
    [reflexivity..|].
  apply scan_once_number; assumption.
Qed.

Lemma scan_once_int fuel z rest :
  delimited rest ->
  Json.scan_once (S fuel) (dec_of_Z z ++ rest) = Some (VInt z, rest).
Proof.
  intros Hd. apply scan_once_number; [exact Hd|].
  pose proof (scan_number_dec_of_Z z [] I) as H.
  rewrite app_nil_r in H. exact H.
Qed.

Lemma dec_of_Z_head z :
  exists c cs, dec_of_Z z = c :: cs /\ (is_digit c = true \/ c = 45).
Proof.
  destruct z as [|p|p].
  - exists 48, []. split; [reflexivity|left; reflexivity].
  - destruct (dec_of_N_head (N.pos p)) as (c & cs & E & Hc).
    exists c, cs. split; [exact E|left; exact Hc].
  - eexists 45, _. split; [reflexivity|right; reflexivity].
Qed.

Lemma encode_head level v :
  wf_value v = true ->
  exists c r, Json.encode level v = c :: r /\ starts_value c.
Proof.
  assert (Hlit : forall c, c < 128 -> Json.is_ws c = false -> c <> 93 ->
                           starts_value c).
  { intros c H1 H2 H3. split; [exact H2|]. split; apply N.eqb_neq; lia. }
  destruct v as [| [] | z | l | s | [|x xs] | [|[k x] kxs]]; intros Hw;
    try (eexists; eexists; split; [reflexivity|];
         apply Hlit; [reflexivity|reflexivity|discriminate]).
  - destruct (dec_of_Z_head z) as (c & cs & E & Hc).
    exists c, cs. split; [exact E|].
    apply digit_or_minus_dispatch in Hc. tauto.
  - cbn [wf_value] in Hw.
    destruct (wf_float_cases l Hw) as [-> | [-> | [-> | H]]];
      try (eexists; eexists; split; [reflexivity|];
           apply Hlit; [reflexivity|reflexivity|discriminate]).
    destruct (scan_number_head _ _ _ H) as (c & s' & E & Hc).
    exists c, s'. split; [exact E|].
    apply digit_or_minus_dispatch in Hc. tauto.
Qed.

Lemma starts_value_delimited_comma s : delimited (44 :: s).
Proof. reflexivity. Qed.

Lemma delimited_newline_indent level s :
  delimited (Json.newline_indent level ++ s).
Proof. reflexivity. Qed.

Lemma scan_items_encode level rest :
  forall xs x fuel,
    Forall decodes_back (x :: xs) ->
    List.forallb wf_value (x :: xs) = true ->
    (items_weight (x :: xs) <= fuel)%nat ->
    Json.scan_items fuel
      (Json.encode (S level) x ++ items_text level xs
       ++ Json.newline_indent level ++ 93 :: rest)
    = Some (x :: xs, rest).
Proof.
  induction xs as [|y ys IH]; intros x fuel HP Hw Hf.
  - apply Forall_cons in HP as [Hx _].
    cbn [List.forallb] in Hw. apply andb_prop in Hw as [Hwx _].
    destruct fuel as [|fuel]; [cbn in Hf; lia|].
    cbn [items_weight List.fold_right] in Hf.
    cbn [items_text List.flat_map app Json.scan_items].
    rewrite (Hx Hwx); [|apply delimited_newline_indent|lia].
    rewrite skip_ws_newline_indent, skip_ws_head by reflexivity.
    reflexivity.
  - apply Forall_cons in HP as [Hx HP].
    cbn [List.forallb] in Hw. apply andb_prop in Hw as [Hwx Hw].
    destruct fuel as [|fuel]; [cbn in Hf; lia|].
    change (items_weight (x :: y :: ys))
      with (S (weight x + items_weight (y :: ys))) in Hf.
    cbn [items_text List.flat_map Json.scan_items].
    rewrite <- !app_assoc. cbn [app].
    rewrite (Hx Hwx); [|reflexivity|lia].
    rewrite skip_ws_head by reflexivity.
    change (44 =? 93) with false. change (44 =? 44) with true. cbn iota.
    rewrite skip_ws_newline_indent.
    assert (Hwy : wf_value y = true).
    { cbn [List.forallb] in Hw. apply andb_prop in Hw as [Hwy _]. exact Hwy. }
    destruct (encode_head (S level) y Hwy) as (c & r & E & Hc & _).
    specialize (IH y fuel HP Hw ltac:(lia)).
    unfold items_text in IH.
    rewrite E in *. cbn [app] in *. rewrite skip_ws_head by exact Hc.
    rewrite IH. reflexivity.
Qed.

Lemma scan_members_encode level rest :
  forall kxs k x fuel,
    Forall (fun kv => decodes_back (snd kv)) ((k, x) :: kxs) ->
    List.forallb wf_member ((k, x) :: kxs) = true ->
    (members_weight ((k, x) :: kxs) <= fuel)%nat ->
    Json.scan_members fuel
      (List.tl (Json.encode_string k) ++ [58; 32] ++ Json.encode (S level) x
       ++ members_text level kxs ++ Json.newline_indent level ++ 125 :: rest)
    = Some ((k, x) :: kxs, rest).
Proof.
  induction kxs as [|[k' y] kys IH]; intros k x fuel HP Hw Hf.
  - apply Forall_cons in HP as [Hx _]. cbn [snd] in Hx.
    cbn [List.forallb wf_member] in Hw. apply andb_prop in Hw as [Hw _].
    apply andb_prop in Hw as [Hwk Hwx].
    destruct fuel as [|fuel]; [cbn in Hf; lia|].
    cbn [members_weight List.fold_right] in Hf.
    cbn [members_text List.flat_map Json.scan_members].
    rewrite (scan_encode_string _ _ Hwk). cbn [app].
    rewrite skip_ws_head by reflexivity.
    change (58 =? 58) with true. cbn iota.
    destruct (encode_head (S level) x Hwx) as (c & r & E & Hc & _).
    change (Json.skip_ws (32 :: ?s)) with (Json.skip_ws s).
    pose proof (Hx Hwx (S level) (Json.newline_indent level ++ 125 :: rest)
                   fuel (delimited_newline_indent _ _) ltac:(lia)) as Hs.
    rewrite E in *. cbn [app] in *. rewrite skip_ws_head by exact Hc.
    rewrite Hs.
    change (10 :: List.repeat 32 (2 * level) ++ 125 :: rest)
      with (Json.newline_indent level ++ 125 :: rest).
    rewrite skip_ws_newline_indent, skip_ws_head by reflexivity.
    reflexivity.
  - apply Forall_cons in HP as [Hx HP]. cbn [snd] in Hx.
    cbn [List.forallb] in Hw. apply andb_prop in Hw as [Hwkx Hw].
    cbn [wf_member] in Hwkx. apply andb_prop in Hwkx as [Hwk Hwx].
    destruct fuel as [|fuel]; [cbn in Hf; lia|].
    change (members_weight ((k, x) :: (k', y) :: kys))
      with (S (weight x + members_weight ((k', y) :: kys))) in Hf.
    specialize (IH k' y fuel HP Hw ltac:(lia)).
    cbn [members_text List.flat_map Json.scan_members].
    rewrite (scan_encode_string _ _ Hwk). cbn [app].
    rewrite skip_ws_head by reflexivity.
    change (58 =? 58) with true. cbn iota.
    destruct (encode_head (S level) x Hwx) as (c & r & E & Hc & _).
    change (Json.skip_ws (32 :: ?s)) with (Json.skip_ws s).
    rewrite <- !app_assoc.
    pose proof (Hx Hwx (S level)
                   (44 :: Json.newline_indent (S level)
                       ++ Json.encode_string k' ++ [58; 32]
                       ++ Json.encode (S level) y
                       ++ members_text level kys
                       ++ Json.newline_indent level ++ 125 :: rest)
                   fuel (starts_value_delimited_comma _) ltac:(lia)) as Hs.
    unfold members_text in Hs, IH.
    rewrite E in *. cbn [app] in *. rewrite skip_ws_head by exact Hc.
    rewrite Hs.
    rewrite skip_ws_head by reflexivity.
    change (44 =? 125) with false. change (44 =? 44) with true. cbn iota.
    change (10 :: List.repeat 32 (2 * S level) ++ ?s)
      with (Json.newline_indent (S level) ++ s).
    rewrite skip_ws_newline_indent.
    unfold Json.encode_string at 1. cbn [app].
    rewrite skip_ws_head by reflexivity.
    change (34 =? 34) with true. cbn iota.
    match goal with
    | |- context [Json.scan_members fuel ?t] =>
        match type of IH with
        | Json.scan_members fuel ?t' = _ => replace t with t'
        end
    end.
    + rewrite IH. reflexivity.
    + unfold Json.encode_string. cbn [List.tl app].
      rewrite <- !app_assoc. reflexivity.
Qed.

(** ** Dictionaries *)

Lemma pystr_eqb_eq a b : pystr_eqb a b = true <-> a = b.
Proof. unfold pystr_eqb. apply bool_decide_eq_true. Qed.

Lemma pystr_eqb_refl a : pystr_eqb a a = true.
Proof. apply pystr_eqb_eq. reflexivity. Qed.

Lemma pystr_eqb_neq a b : a <> b -> pystr_eqb a b = false.
Proof. unfold pystr_eqb. apply bool_decide_eq_false_2. Qed.

Lemma dict_get_set_eq d k v : dict_get (dict_set d k v) k = Some v.
Proof.
  induction d as [|[k' v'] d IH]; cbn [dict_set dict_get].
  - rewrite pystr_eqb_refl. reflexivity.
  - destruct (pystr_eqb k' k) eqn:E; cbn [dict_get]; rewrite E;
      [reflexivity|exact IH].
Qed.

Lemma dict_get_set_ne d k v k0 :
  k <> k0 -> dict_get (dict_set d k v) k0 = dict_get d k0.
Proof.
  intros Hne. induction d as [|[k' v'] d IH]; cbn [dict_set dict_get].
  - rewrite pystr_eqb_neq by exact Hne. reflexivity.
  - destruct (pystr_eqb k' k) eqn:E; cbn [dict_get].
    + apply pystr_eqb_eq in E. subst k'.
      rewrite pystr_eqb_neq by exact Hne. reflexivity.
    + rewrite IH. reflexivity.
Qed.

Lemma dict_set_keys_in d k v k0 :
  In k0 (List.map fst (dict_set d k v)) <-> k0 = k \/ In k0 (List.map fst d).
Proof.
  induction d as [|[k' v'] d IH]; cbn [dict_set List.map fst In].
  - intuition congruence.
  - destruct (pystr_eqb k' k) eqn:E; cbn [List.map fst In].
    + apply pystr_eqb_eq in E. subst. intuition congruence.
    + rewrite IH. intuition congruence.
Qed.

Lemma dict_set_fresh d k v :
  ~ In k (List.map fst d) -> dict_set d k v = d ++ [(k, v)].
Proof.
  induction d as [|[k' v'] d IH]; intros Hn; cbn [dict_set app]; [reflexivity|].
  cbn [List.map fst In] in Hn.
  rewrite pystr_eqb_neq by tauto. rewrite IH by tauto. reflexivity.
Qed.

Lemma dict_set_nodup d k v :
  NoDup (List.map fst d) -> NoDup (List.map fst (dict_set d k v)).
Proof.
  induction d as [|[k' v'] d IH]; intros Hn; cbn [dict_set List.map fst].
  - apply NoDup_singleton.
  - apply NoDup_cons in Hn as [Hk Hd].
    destruct (pystr_eqb k' k) eqn:E; cbn [List.map fst].
    + apply NoDup_cons. split; assumption.
    + apply NoDup_cons. split; [|apply IH, Hd].
      rewrite list_elem_of_In, dict_set_keys_in.
      rewrite list_elem_of_In in Hk.
      intros [->|H]; [|tauto].
      rewrite pystr_eqb_refl in E. discriminate.
Qed.

Lemma dict_update_nodup pairs d :
  NoDup (List.map fst d) -> NoDup (List.map fst (dict_update d pairs)).
Proof.
  unfold dict_update. revert d.
  induction pairs as [|[k v] pairs IH]; intros d Hd; cbn [List.fold_left];
    [exact Hd|].
  apply IH, dict_set_nodup, Hd.
Qed.

Lemma dict_update_fresh pairs d :
  NoDup (List.map fst (d ++ pairs)) -> dict_update d pairs = d ++ pairs.
Proof.
  unfold dict_update. revert d.
  induction pairs as [|[k v] pairs IH]; intros d Hd; cbn [List.fold_left].
  - rewrite app_nil_r. reflexivity.
  - cbn [fst snd].
    rewrite dict_set_fresh.
    + rewrite IH; rewrite <- app_assoc; [reflexivity|exact Hd].
    + rewrite map_app in Hd. cbn [List.map fst] in Hd.
      apply NoDup_app in Hd as (_ & Hd & _).
      intros Hin. apply (Hd k); [apply list_elem_of_In, Hin|left].
Qed.

Lemma dict_of_pairs_nodup pairs :
  NoDup (List.map fst pairs) -> dict_of_pairs pairs = pairs.
Proof. intros H. unfold dict_of_pairs. apply (dict_update_fresh pairs []), H. Qed.

(** ** The round trip of the codec *)

Lemma encode_decodes_back v : decodes_back v.
Proof.
  induction v as [| b | z | l | s | items IH | members IH] using value_ind';
    intros Hw level rest fuel Hd Hf;
    (destruct fuel as [|fuel]; [cbn in Hf; lia|]).
  - reflexivity.
  - destruct b; reflexivity.
  - apply scan_once_int, Hd.
  - apply scan_once_float; assumption.
  - cbn [wf_value] in Hw. cbn [Json.encode]. unfold Json.encode_string.
    cbn [app Json.scan_once]. change (34 =? 34) with true. cbn iota.
    rewrite <- app_assoc. cbn [app].
    rewrite (scan_string_encode _ _ Hw). reflexivity.
  - destruct items as [|x xs]; [reflexivity|].
    cbn [wf_value] in Hw.
    change (weight (VList (x :: xs))) with (S (items_weight (x :: xs))) in Hf.
    pose proof (scan_items_encode level rest xs x fuel IH Hw ltac:(lia)) as Hs.
    assert (Hwx : wf_value x = true).
    { cbn [List.forallb] in Hw. apply andb_prop in Hw as [Hwx _]. exact Hwx. }
    destruct (encode_head (S level) x Hwx) as (c & r & E & Hc & H93 & _).
    cbn [Json.encode]. fold (items_text level xs).
    cbn [app Json.scan_once].
    change (91 =? 34) with false. change (91 =? 123) with false.
    change (91 =? 91) with true. cbn iota.
    rewrite <- !app_assoc. rewrite skip_ws_newline_indent.
    rewrite E in *. cbn [app] in *. rewrite skip_ws_head by exact Hc.
    rewrite H93, Hs. reflexivity.
  - destruct members as [|[k x] kxs]; [reflexivity|].
    cbn [wf_value] in Hw. apply andb_prop in Hw as [Hnd Hw].
    apply bool_decide_eq_true in Hnd.
    change (weight (VDict ((k, x) :: kxs)))
      with (S (members_weight ((k, x) :: kxs))) in Hf.
    pose proof (scan_members_encode level rest kxs k x fuel IH Hw ltac:(lia))
      as Hs.
    cbn [Json.encode]. fold (members_text level kxs).
    cbn [app Json.scan_once].
    change (123 =? 34) with false. change (123 =? 123) with true. cbn iota.
    rewrite <- !app_assoc. rewrite skip_ws_newline_indent.
    unfold Json.encode_string at 1. cbn [app].
    rewrite skip_ws_head by reflexivity.
    change (34 =? 125) with false. change (34 =? 34) with true. cbn iota.
    match goal with
    | |- context [Json.scan_members fuel ?t] =>
        match type of Hs with
        | Json.scan_members fuel ?t' = _ => replace t with t'
        end
    end.
    + rewrite Hs, (dict_of_pairs_nodup _ Hnd). reflexivity.
    + unfold Json.encode_string. cbn [List.tl app].
      rewrite <- !app_assoc. reflexivity.
Qed.

Lemma items_weight_le level xs :
  Forall (fun x => forall level, (weight x <= length (Json.encode level x))%nat) xs ->
  (items_weight xs <= length (items_text level xs))%nat.
Proof.
  induction 1 as [|x xs Hx _ IH]; [cbn; lia|].
  cbn [items_weight List.fold_right items_text List.flat_map].
  fold (items_weight xs). fold (items_text level xs).
  rewrite !length_app. specialize (Hx (S level)). cbn [length]. lia.
Qed.

Lemma members_weight_le level kxs :
  Forall (fun kv => forall level,
            (weight (snd kv) <= length (Json.encode level (snd kv)))%nat) kxs ->
  (members_weight kxs <= length (members_text level kxs))%nat.
Proof.
  induction 1 as [|[k x] kxs Hx _ IH]; [cbn; lia|].
  cbn [members_weight List.fold_right members_text List.flat_map].
  fold (members_weight kxs). fold (members_text level kxs).
  rewrite !length_app. specialize (Hx (S level)). cbn [length snd] in *. lia.
Qed.

Lemma weight_le_length v :
  wf_value v = true ->
  forall level, (weight v <= length (Json.encode level v))%nat.
Proof.
  intros Hw level.
  destruct (encode_head level v Hw) as (c & r & E & _).
  revert level c r E.
  induction v as [| b | z | l | s | items IH | members IH] using value_ind';
    intros level c r E;
    try (rewrite E; cbn; lia).
  - destruct items as [|x xs]; [cbn; lia|].
    cbn [Json.encode]. fold (items_text level xs).
    change (weight (VList (x :: xs))) with (S (S (weight x + items_weight xs))).
    rewrite !length_app.
    cbn [wf_value List.forallb] in Hw. apply andb_prop in Hw as [Hwx Hw].
    apply Forall_cons in IH as [IHx IH].
    destruct (encode_head (S level) x Hwx) as (c' & r' & E' & _).
    specialize (IHx Hwx (S level) c' r' E').
    assert (items_weight xs <= length (items_text level xs))%nat.
    { apply items_weight_le.
      rewrite forallb_forall in Hw. rewrite Forall_forall in *.
      intros y Hy lv. apply list_elem_of_In in Hy as Hy'.
      destruct (encode_head lv y (Hw y Hy')) as (c2 & r2 & E2 & _).
      eapply IH; eauto. }
    cbn [length]. lia.
  - destruct members as [|[k x] kxs]; [cbn; lia|].
    cbn [Json.encode]. fold (members_text level kxs).
    change (weight (VDict ((k, x) :: kxs)))
      with (S (S (weight x + members_weight kxs))).
    rewrite !length_app.
    cbn [wf_value] in Hw. apply andb_prop in Hw as [_ Hw].
    cbn [List.forallb] in Hw. apply andb_prop in Hw as [Hwx Hw].
    apply andb_prop in Hwx as [_ Hwx].
    apply Forall_cons in IH as [IHx IH]. cbn [snd] in IHx.
    destruct (encode_head (S level) x Hwx) as (c' & r' & E' & _).
    specialize (IHx Hwx (S level) c' r' E').
    assert (members_weight kxs <= length (members_text level kxs))%nat.
    { apply members_weight_le.
      rewrite forallb_forall in Hw. rewrite Forall_forall in *.
      intros [k' y] Hy lv. apply list_elem_of_In in Hy as Hy'.
      specialize (Hw _ Hy'). cbn in Hw. apply andb_prop in Hw as [_ Hwy].
      destruct (encode_head lv y Hwy) as (c2 & r2 & E2 & _).
      eapply (IH _ Hy); eauto. }
    cbn [length]. lia.
Qed.

(** Decoding the encoding of a well-formed value gives the value back. *)
Lemma loads_dumps v : wf_value v = true -> Json.loads (Json.dumps v) = Some v.
Proof.
  intros Hw. unfold Json.loads, Json.dumps.
  destruct (encode_head 0 v Hw) as (c & r & E & Hws & _ & Hbom).
  pose proof (weight_le_length v Hw 0%nat) as Hlen.
  pose proof (encode_decodes_back v Hw 0%nat [] (S (length (Json.encode 0 v)))
                I ltac:(lia)) as Hs.
  rewrite app_nil_r in Hs.
  rewrite E in *. rewrite Hbom, skip_ws_head by exact Hws.
  rewrite Hs. reflexivity.
Qed.

(** ** The shape of number literals *)

Lemma span_digits_stop ds rest :
  List.forallb is_digit ds = true -> nodigit rest ->
  Json.span_digits (ds ++ rest) = (ds, rest).
Proof.
  intros Hd Hr. induction ds as [|c ds IH]; cbn [app Json.span_digits].
  - destruct rest as [|c rest]; [reflexivity|].
    cbn [Json.span_digits]. cbn in Hr. rewrite Hr. reflexivity.
  - cbn [List.forallb] in Hd. apply andb_prop in Hd as [-> Hd].
    rewrite (IH Hd). reflexivity.
Qed.

Lemma scan_digits_inv s ds r :
  Json.scan_digits s = Some (ds, r) -> s = ds ++ r /\ int_digits ds.
Proof.
  unfold Json.scan_digits. destruct s as [|c s]; [discriminate|].
  destruct (c =? 48) eqn:E.
  - intros [= <- <-]. apply N.eqb_eq in E. subst c.
    split; [reflexivity|]. split; [reflexivity|].
    exists 48, []. auto.
  - destruct (is_digit c) eqn:Ed; [|discriminate]. intros H.
    assert (H' : Json.span_digits (c :: s) = (ds, r)) by congruence.
    pose proof (span_digits_spec (c :: s)) as (Hs & Hd & _).
    rewrite H' in *. cbn [fst snd] in *. split; [exact Hs|].
    split; [exact Hd|].
    cbn [Json.span_digits] in H'. rewrite Ed in H'.
    destruct (Json.span_digits s) as [ds0 r0]. injection H' as <- <-.
    exists c, ds0. split; [reflexivity|]. congruence.
Qed.

Lemma scan_frac_inv s :
  s = fst (Json.scan_frac s) ++ snd (Json.scan_frac s)
  /\ frac_part (fst (Json.scan_frac s)).
Proof.
  unfold Json.scan_frac, frac_part. destruct s as [|c s]; [auto|].
  destruct (c =? 46) eqn:E; [|auto].
  apply N.eqb_eq in E. subst c.
  pose proof (span_digits_spec s) as (Hs & Hd & _).
  destruct (Json.span_digits s) as [[|d ds] r]; cbn [fst snd] in *; [auto|].
  split; [cbn [app] in *; congruence|]. right. exists d, ds. auto.
Qed.

Lemma scan_exp_inv s :
  s = fst (Json.scan_exp s) ++ snd (Json.scan_exp s)
  /\ exp_part (fst (Json.scan_exp s)).
Proof.
  unfold Json.scan_exp, exp_part. destruct s as [|e s]; [auto|].
  destruct ((e =? 101) || (e =? 69)) eqn:E; [|auto].
  destruct s as [|c s].
  - cbn. auto.
  - destruct ((c =? 45) || (c =? 43)) eqn:Es.
    + pose proof (span_digits_spec s) as (Hs & Hd & _).
      destruct (Json.span_digits s) as [[|d ds] r]; cbn [fst snd] in *; [auto|].
      split; [cbn [app] in *; congruence|]. right. exists e, [c], d, ds.
      split; [reflexivity|]. split; [exact E|]. split; [|exact Hd].
      apply orb_prop in Es as [Es|Es]; apply N.eqb_eq in Es; subst; auto.
    + pose proof (span_digits_spec (c :: s)) as (Hs & Hd & _).
      destruct (Json.span_digits (c :: s)) as [[|d ds] r]; cbn [fst snd] in *;
        [auto|].
      split; [cbn [app] in *; congruence|]. right. exists e, [], d, ds. auto.
Qed.

Lemma scan_int_inv s neg ds r :
  Json.scan_int s = Some (neg, ds, r) ->
  s = sign_text neg ++ ds ++ r /\ int_digits ds.
Proof.
  unfold Json.scan_int. destruct s as [|c s]; [discriminate|].
  destruct (c =? 45) eqn:E.
  - apply N.eqb_eq in E. subst c.
    destruct (Json.scan_digits s) as [[ds0 r0]|] eqn:Es; [|discriminate].
    intros [= <- <- <-]. apply scan_digits_inv in Es as [-> Hi]. auto.
  - destruct (Json.scan_digits (c :: s)) as [[ds0 r0]|] eqn:Es; [|discriminate].
    intros [= <- <- <-]. apply scan_digits_inv in Es as [-> Hi]. auto.
Qed.

(** Everything [scan_number] accepts is a sign, integer digits, a fraction
    part and an exponent part. *)
Lemma scan_number_inv s v r :
  Json.scan_number s = Some (v, r) ->
  exists neg ds frac ex,
    s = sign_text neg ++ ds ++ frac ++ ex ++ r
    /\ int_digits ds /\ frac_part frac /\ exp_part ex
    /\ v = match frac, ex with
           | [], [] =>
               let n := Z.of_N (Json.nat_of_digits ds) in
               VInt (if neg then (- n)%Z else n)
           | _, _ => VFloat (sign_text neg ++ ds ++ frac ++ ex)
           end.
Proof.
  unfold Json.scan_number.
  destruct (Json.scan_int s) as [[[neg ds] r0]|] eqn:Ei; [|discriminate].
  apply scan_int_inv in Ei as [-> Hi].
  pose proof (scan_frac_inv r0) as [Hf1 Hf2].
  destruct (Json.scan_frac r0) as [frac r1]. cbn [fst snd] in *.
  pose proof (scan_exp_inv r1) as [He1 He2].
  destruct (Json.scan_exp r1) as [ex r2]. cbn [fst snd] in *.
  intros H. exists neg, ds, frac, ex. subst r0 r1.
  assert (Hr : r2 = r) by (destruct frac, ex; congruence). subst r2.
  split; [reflexivity|]. do 3 (split; [assumption|]).
  destruct frac, ex; injection H as <-; reflexivity.
Qed.

Lemma int_digits_scan ds rest :
  int_digits ds -> nodigit rest ->
  Json.scan_digits (ds ++ rest) = Some (ds, rest).
Proof.
  intros [Hd (c & ds' & -> & H0)] Hr. unfold Json.scan_digits. cbn [app].
  destruct (c =? 48) eqn:E.
  - apply N.eqb_eq in E. subst c. rewrite (H0 eq_refl). reflexivity.
  - pose proof Hd as Hd'. cbn [List.forallb] in Hd'.
    apply andb_prop in Hd' as [-> _].
    change (c :: ds' ++ rest) with ((c :: ds') ++ rest).
    rewrite (span_digits_stop _ _ Hd Hr). reflexivity.
Qed.

Lemma int_digits_head ds :
  int_digits ds -> exists c ds', ds = c :: ds' /\ is_digit c = true.
Proof.
  intros [Hd (c & ds' & -> & _)]. exists c, ds'. split; [reflexivity|].
  cbn [List.forallb] in Hd. apply andb_prop in Hd as [Hc _]. exact Hc.
Qed.

Lemma scan_int_sign neg ds rest :
  int_digits ds -> nodigit rest ->
  Json.scan_int (sign_text neg ++ ds ++ rest) = Some (neg, ds, rest).
Proof.
  intros Hi Hr. pose proof (int_digits_scan _ _ Hi Hr) as Hs.
  unfold Json.scan_int. destruct neg; cbn [sign_text app].
  - change (45 =? 45) with true. cbn iota. rewrite Hs. reflexivity.
  - destruct (int_digits_head _ Hi) as (c & ds' & -> & Hc).
    cbn [app] in *. rewrite (digit_not_minus _ Hc), Hs. reflexivity.
Qed.

Lemma frac_part_scan frac rest :
  frac_part frac -> nodigit rest ->
  (frac = [] -> match rest with c :: _ => (c =? 46) = false | [] => True end) ->
  Json.scan_frac (frac ++ rest) = (frac, rest).
Proof.
  intros [->|(c & fd & -> & Hd)] Hr H0.
  - cbn [app]. unfold Json.scan_frac. destruct rest as [|c rest]; [reflexivity|].
    rewrite (H0 eq_refl). reflexivity.
  - cbn [app]. unfold Json.scan_frac. change (46 =? 46) with true. cbn iota.
    change (c :: fd ++ rest) with ((c :: fd) ++ rest).
    rewrite (span_digits_stop _ _ Hd Hr). reflexivity.
Qed.

Lemma digit_not_sign c : is_digit c = true -> (c =? 45) || (c =? 43) = false.
Proof.
  unfold is_digit, chr_in. intros H. apply andb_prop in H as [H _].
  apply N.leb_le in H. apply orb_false_intro; apply N.eqb_neq; lia.
Qed.

Lemma exp_part_scan ex : exp_part ex -> Json.scan_exp ex = (ex, []).
Proof.
  intros [->|(e & sg & c & ed & -> & He & Hsg & Hd)]; [reflexivity|].
  unfold Json.scan_exp. rewrite He.
  pose proof (span_digits_stop _ [] Hd I) as Hs. rewrite app_nil_r in Hs.
  destruct Hsg as [->|[->| ->]]; cbn [app].
  - pose proof Hd as Hd'. cbn [List.forallb] in Hd'.
    apply andb_prop in Hd' as [Hc _]. rewrite (digit_not_sign _ Hc), Hs.
    reflexivity.
  - change ((45 =? 45) || (45 =? 43)) with true. cbn iota. rewrite Hs.
    reflexivity.
  - change ((43 =? 45) || (43 =? 43)) with true. cbn iota. rewrite Hs.
    reflexivity.
Qed.

Lemma exp_part_head ex :
  exp_part ex ->
  match ex with
  | c :: _ => is_digit c = false /\ (c =? 46) = false
  | [] => True
  end.
Proof.
  intros [->|(e & sg & c & ed & -> & He & _)]; [exact I|].
  apply orb_prop in He as [He|He]; apply N.eqb_eq in He; subst e;
    split; reflexivity.
Qed.

(** A float literal read by the decoder is a well-formed float. *)
Lemma scan_number_float s l r :
  Json.scan_number s = Some (VFloat l, r) -> wf_float l = true.
Proof.
  intros H. apply scan_number_inv in H
    as (neg & ds & frac & ex & _ & Hi & Hf & He & Hv).
  assert (Hl : l = sign_text neg ++ ds ++ frac ++ ex
               /\ (frac <> [] \/ ex <> [])).
  { destruct frac, ex; try discriminate; injection Hv as ->;
      (split; [reflexivity|]); auto; left; discriminate. }
  destruct Hl as [-> Hne].
  unfold wf_float. apply orb_true_intro. right.
  unfold Json.scan_number.
  pose proof (exp_part_head _ He) as Hh.
  rewrite scan_int_sign; [|exact Hi|].
  2:{ destruct Hf as [->|(c & fd & -> & _)]; [|reflexivity].
      cbn [app]. destruct ex; [exact I|apply Hh]. }
  assert (Hnd : nodigit ex /\
                (frac = [] ->
                 match ex with c :: _ => (c =? 46) = false | [] => True end)).
  { destruct ex; [split; [exact I|trivial]|]. destruct Hh. split; trivial. }
  rewrite (frac_part_scan frac ex Hf (proj1 Hnd) (proj2 Hnd)).
  rewrite (exp_part_scan _ He).
  destruct frac, ex; try (destruct Hne; congruence);
    unfold pystr_eqb; apply bool_decide_eq_true; reflexivity.
Qed.

(** ** Encoded text is plain ASCII *)

Lemma digit_text c : is_digit c = true -> text_char c = true.
Proof.
  unfold is_digit, text_char, chr_in. intros H. apply andb_prop in H as [H1 H2].
  apply N.leb_le in H1. apply N.leb_le in H2. apply orb_true_intro. right.
  apply andb_true_intro. split; apply N.leb_le; lia.
Qed.

Lemma hexdigit_text n : text_char (hexdigit (n mod 16)) = true.
Proof.
  assert (H : n mod 16 < 16) by (apply N.mod_lt; discriminate).
  unfold hexdigit, text_char, chr_in.
  destruct (n mod 16 <? 10) eqn:E;
    [apply N.ltb_lt in E|apply N.ltb_ge in E];
    apply orb_true_intro; right; apply andb_true_intro;
    split; apply N.leb_le; lia.
Qed.

Lemma u_escape_text n : List.forallb text_char (Json.u_escape n) = true.
Proof.
  unfold Json.u_escape, Json.hex4_of. cbn [List.forallb].
  rewrite !hexdigit_text. reflexivity.
Qed.

Lemma escape_char_text c : List.forallb text_char (Json.escape_char c) = true.
Proof.
  unfold Json.escape_char.
  repeat match goal with
         | |- context [if ?b =? ?k then _ else _] =>
             destruct (b =? k); [reflexivity|]
         end.
  destruct (chr_in 32 126 c) eqn:E.
  { cbn [List.forallb]. unfold text_char. rewrite E, orb_true_r. reflexivity. }
  destruct (c <? 65536); [apply u_escape_text|].
  rewrite forallb_app, !u_escape_text. reflexivity.
Qed.

Lemma encode_string_text s :
  List.forallb text_char (Json.encode_string s) = true.
Proof.
  unfold Json.encode_string. cbn [List.forallb]. rewrite forallb_app.
  cbn [List.forallb andb]. rewrite andb_true_r.
  change (text_char 34) with true. cbn [andb].
  induction s as [|c s IH]; [reflexivity|].
  cbn [List.map List.concat]. rewrite forallb_app, escape_char_text, IH.
  reflexivity.
Qed.

Lemma dec_of_Z_text z : List.forallb text_char (dec_of_Z z) = true.
Proof.
  assert (H : forall n, List.forallb text_char (dec_of_N n) = true).
  { intros n. eapply forallb_impl; [apply digit_text|].
    apply uint_chars_digits. }
  destruct z; cbn [dec_of_Z]; [apply H|apply H|].
  cbn [List.forallb]. rewrite H. reflexivity.
Qed.

Lemma wf_float_text l : wf_float l = true -> List.forallb text_char l = true.
Proof.
  intros Hw. destruct (wf_float_cases l Hw) as [-> | [-> | [-> | H]]];
    [reflexivity..|].
  apply scan_number_inv in H
    as (neg & ds & frac & ex & E & [Hd _] & Hf & He & _).
  rewrite app_nil_r in E. subst l. rewrite !forallb_app.
  repeat (apply andb_true_intro; split).
  - destruct neg; reflexivity.
  - eapply forallb_impl; [apply digit_text|exact Hd].
  - destruct Hf as [->|(c & fd & -> & Hfd)]; [reflexivity|].
    cbn [List.forallb] in *. change (text_char 46) with true.
    apply andb_prop in Hfd as [Hc Hfd].
    rewrite (digit_text _ Hc). cbn [andb].
    eapply forallb_impl; [apply digit_text|exact Hfd].
  - destruct He as [->|(e & sg & c & ed & -> & He & Hsg & Hed)]; [reflexivity|].
    assert (H1 : List.forallb text_char (c :: ed) = true)
      by (eapply forallb_impl; [apply digit_text|exact Hed]).
    assert (H2 : List.forallb text_char [e] = true)
      by (apply orb_prop in He as [He|He]; apply N.eqb_eq in He; subst;
          reflexivity).
    assert (H3 : List.forallb text_char sg = true)
      by (destruct Hsg as [->|[->| ->]]; reflexivity).
    change (e :: sg ++ c :: ed) with ([e] ++ sg ++ (c :: ed)).
    rewrite !forallb_app, H1, H2, H3. reflexivity.
Qed.

Lemma newline_indent_text level :
  List.forallb text_char (Json.newline_indent level) = true.
Proof.
  unfold Json.newline_indent. cbn [List.forallb].
  change (text_char 10) with true. cbn [andb].
  induction (2 * level)%nat as [|n IH]; [reflexivity|]. exact IH.
Qed.

Lemma encode_text v :
  wf_value v = true ->
  forall level, List.forallb text_char (Json.encode level v) = true.
Proof.
  induction v as [| b | z | l | s | items IH | members IH] using value_ind';
    intros Hw level.
  - reflexivity.
  - destruct b; reflexivity.
  - apply dec_of_Z_text.
  - apply wf_float_text, Hw.
  - apply encode_string_text.
  - destruct items as [|x xs]; [reflexivity|].
    cbn [wf_value List.forallb] in Hw. apply andb_prop in Hw as [Hwx Hw].
    apply Forall_cons in IH as [IHx IH].
    cbn [Json.encode]. rewrite !forallb_app, newline_indent_text,
      newline_indent_text, (IHx Hwx). cbn [List.forallb andb].
    change (text_char 91) with true. change (text_char 93) with true.
    cbn [andb]. rewrite andb_true_r.
    induction xs as [|y ys IHys]; [reflexivity|].
    cbn [List.forallb] in Hw. apply andb_prop in Hw as [Hwy Hw].
    apply Forall_cons in IH as [IHy IH].
    cbn [List.flat_map]. rewrite !forallb_app, newline_indent_text, (IHy Hwy).
    rewrite (IHys IH Hw). reflexivity.
  - destruct members as [|[k x] kxs]; [reflexivity|].
    cbn [wf_value] in Hw. apply andb_prop in Hw as [_ Hw].
    cbn [List.forallb] in Hw. apply andb_prop in Hw as [Hwx Hw].
    apply andb_prop in Hwx as [_ Hwx].
    apply Forall_cons in IH as [IHx IH]. cbn [snd] in IHx.
    cbn [Json.encode]. rewrite !forallb_app, newline_indent_text,
      newline_indent_text, encode_string_text, (IHx Hwx).
    cbn [List.forallb andb].
    change (text_char 123) with true. change (text_char 125) with true.
    change (text_char 58) with true. change (text_char 32) with true.
    cbn [andb]. rewrite andb_true_r.
    induction kxs as [|[k' y] kys IHkys]; [reflexivity|].
    cbn [List.forallb] in Hw. apply andb_prop in Hw as [Hwy Hw].
    apply andb_prop in Hwy as [_ Hwy].
    apply Forall_cons in IH as [IHy IH]. cbn [snd] in IHy.
    cbn [List.flat_map]. rewrite !forallb_app, newline_indent_text,
      encode_string_text, (IHy Hwy).
    rewrite (IHkys IH Hw). reflexivity.
Qed.

Lemma text_char_ascii c : text_char c = true -> is_ascii c = true.
Proof.
  unfold text_char, chr_in, is_ascii. intros H. apply N.ltb_lt.
  apply orb_prop in H as [H|H]; [apply N.eqb_eq in H; lia|].
  apply andb_prop in H as [_ H]. apply N.leb_le in H. lia.
Qed.

(** Text without carriage returns is read back as it is. *)
Lemma universal_newlines_text t :
  List.forallb text_char t = true -> universal_newlines t = t.
Proof.
  induction t as [|c t IH]; [reflexivity|].
  cbn [List.forallb]. intros H. apply andb_prop in H as [Hc Ht].
  cbn [universal_newlines].
  assert (E : (c =? 13) = false).
  { unfold text_char, chr_in in Hc. apply N.eqb_neq.
    apply orb_prop in Hc as [Hc|Hc]; [apply N.eqb_eq in Hc; lia|].
    apply andb_prop in Hc as [Hc _]. apply N.leb_le in Hc. lia. }
  rewrite E, (IH Ht). reflexivity.
Qed.

(** ** What the decoder builds is well formed *)

Lemma hexval_bound c n : Json.hexval c = Some n -> n < 16.
Proof.
  unfold Json.hexval, is_digit, chr_in.
  destruct ((48 <=? c) && (c <=? 57)) eqn:E1.
  { intros [= <-]. apply andb_prop in E1 as [H1 H2].
    apply N.leb_le in H1. apply N.leb_le in H2. lia. }
  destruct ((97 <=? c) && (c <=? 102)) eqn:E2.
  { intros [= <-]. apply andb_prop in E2 as [H1 H2].
    apply N.leb_le in H1. apply N.leb_le in H2. lia. }
  destruct ((65 <=? c) && (c <=? 70)) eqn:E3; [|discriminate].
  intros [= <-]. apply andb_prop in E3 as [H1 H2].
  apply N.leb_le in H1. apply N.leb_le in H2. lia.
Qed.

Lemma hex4_bound a b c d u : Json.hex4 a b c d = Some u -> u < 65536.
Proof.
  unfold Json.hex4.
  destruct (Json.hexval a) as [x|] eqn:Ea; [|discriminate].
  destruct (Json.hexval b) as [y|] eqn:Eb; [|discriminate].
  destruct (Json.hexval c) as [z|] eqn:Ec; [|discriminate].
  destruct (Json.hexval d) as [w|] eqn:Ed; [|discriminate].
  apply hexval_bound in Ea, Eb, Ec, Ed. intros [= <-]. lia.
Qed.

Lemma unescape_bound e c : Json.unescape e = Some c -> c < 128.
Proof.
  unfold Json.unescape.
  repeat match goal with
         | |- context [if ?b =? ?k then _ else _] =>
             destruct (b =? k); [intros [= <-]; reflexivity|]
         end.
  discriminate.
Qed.

Lemma push_inv c res k r :
  Json.push c res = Some (k, r) ->
  exists k', k = c :: k' /\ res = Some (k', r).
Proof.
  destruct res as [[k' r']|]; [|discriminate].
  intros [= <- <-]. eauto.
Qed.

Lemma is_high_inv c : Json.is_high c = true -> 55296 <= c <= 56319.
Proof.
  unfold Json.is_high, chr_in. intros H. apply andb_prop in H as [H1 H2].
  apply N.leb_le in H1. apply N.leb_le in H2. lia.
Qed.

Lemma is_low_inv c : Json.is_low c = true -> 56320 <= c <= 57343.
Proof.
  unfold Json.is_low, chr_in. intros H. apply andb_prop in H as [H1 H2].
  apply N.leb_le in H1. apply N.leb_le in H2. lia.
Qed.

Lemma not_high c : c < 55296 \/ 56319 < c -> Json.is_high c = false.
Proof.
  intros H. unfold Json.is_high, chr_in.
  destruct (55296 <=? c) eqn:E1; [|reflexivity].
  destruct (c <=? 56319) eqn:E2; [|reflexivity].
  apply N.leb_le in E1. apply N.leb_le in E2. lia.
Qed.

Lemma not_low c : c < 56320 \/ 57343 < c -> Json.is_low c = false.
Proof.
  intros H. unfold Json.is_low, chr_in.
  destruct (56320 <=? c) eqn:E1; [|reflexivity].
  destruct (c <=? 57343) eqn:E2; [|reflexivity].
  apply N.leb_le in E1. apply N.leb_le in E2. lia.
Qed.

Lemma is_scalar_inv c :
  is_scalar c = true -> c < 1114112 /\ (c < 55296 \/ 57343 < c).
Proof.
  unfold is_scalar, is_surrogate, chr_in. intros H.
  apply andb_prop in H as [H1 H2]. apply N.ltb_lt in H1.
  split; [exact H1|]. apply negb_true_iff in H2.
  destruct (55296 <=? c) eqn:E1; [|apply N.leb_gt in E1; lia].
  destruct (c <=? 57343) eqn:E2; [discriminate|apply N.leb_gt in E2; lia].
Qed.

Lemma wf_str_cons c k :
  c < 1114112 ->
  (forall b k', k = b :: k' -> Json.is_high c && Json.is_low b = false) ->
  wf_str k = true -> wf_str (c :: k) = true.
Proof.
  unfold wf_str. intros Hc Hp Hk. apply andb_prop in Hk as [Hb Hn].
  cbn [List.forallb no_surrogate_pair]. rewrite Hb, Hn.
  apply N.ltb_lt in Hc. rewrite Hc. cbn [andb]. rewrite andb_true_r.
  destruct k as [|b k']; [reflexivity|].
  rewrite (Hp b k' eq_refl). reflexivity.
Qed.

(** Pushing a code point that is no surrogate half. *)
Lemma string_ok_plain s s' c k r :
  c < 1114112 -> (c < 55296 \/ 57343 < c) ->
  string_ok s' k r -> string_ok s (c :: k) r.
Proof.
  intros Hc Hs (Hk & Hr & _). split; [|split; [exact Hr|]].
  - apply wf_str_cons; [exact Hc| |exact Hk].
    intros b k' _. rewrite not_high by lia. reflexivity.
  - intros b k' [= <- <-] Hl. apply is_low_inv in Hl. lia.
Qed.

Lemma valid_text_cons c s :
  valid_text (c :: s) = true -> is_scalar c = true /\ valid_text s = true.
Proof. unfold valid_text. cbn [List.forallb]. apply andb_prop. Qed.

Lemma scan_string_ok n :
  forall s k r,
    (length s <= n)%nat -> valid_text s = true ->
    Json.scan_string s = Some (k, r) -> string_ok s k r.
Proof.
  induction n as [|n IH]; intros s k r Hlen Hv H.
  { destruct s; [discriminate|cbn in Hlen; lia]. }
  destruct s as [|c s]; [discriminate|].
  apply valid_text_cons in Hv as [Hc Hv]. cbn [length] in Hlen.
  cbn [Json.scan_string] in H.
  destruct (c =? 34) eqn:E34.
  { injection H as <- <-. split; [reflexivity|]. split; [exact Hv|].
    intros b k' [=]. }
  destruct (c =? 92) eqn:E92.
  2:{ destruct (c <? 32); [discriminate|].
      apply push_inv in H as (k' & -> & H).
      apply is_scalar_inv in Hc as [Hc1 Hc2].
      apply (string_ok_plain _ s); [exact Hc1|exact Hc2|].
      apply IH; [lia|exact Hv|exact H]. }
  apply N.eqb_eq in E92. subst c.
  destruct s as [|e r1]; [discriminate|].
  apply valid_text_cons in Hv as [_ Hv1]. cbn [length] in Hlen.
  destruct (e =? 117) eqn:E117.
  2:{ destruct (Json.unescape e) as [c'|] eqn:Eu; [|discriminate].
      apply push_inv in H as (k' & -> & H).
      apply unescape_bound in Eu.
      apply (string_ok_plain _ r1); [lia|lia|].
      apply IH; [lia|exact Hv1|exact H]. }
  apply N.eqb_eq in E117. subst e.
  destruct r1 as [|h1 [|h2 [|h3 [|h4 r2]]]]; try discriminate.
  assert (Hv2 : valid_text r2 = true).
  { do 4 (apply valid_text_cons in Hv1 as [_ Hv1]). exact Hv1. }
  cbn [length] in Hlen.
  destruct (Json.hex4 h1 h2 h3 h4) as [uni|] eqn:Eh; [|discriminate].
  pose proof (hex4_bound _ _ _ _ _ Eh) as Hu.
  (* pushing [uni] in front of the rest of the string *)
  assert (Hpush : forall k2,
            Json.scan_string r2 = Some (k2, r) ->
            (forall b, Json.is_high uni = true -> escape_head r2 b ->
                       Json.is_low b = true -> False) ->
            string_ok (92 :: 117 :: h1 :: h2 :: h3 :: h4 :: r2) (uni :: k2) r).
  { intros k2 H2 Hnl.
    destruct (IH r2 k2 r ltac:(lia) Hv2 H2) as (Hk2 & Hr & Ht).
    split; [|split; [exact Hr|]].
    - apply wf_str_cons; [lia| |exact Hk2].
      intros b k' -> . destruct (Json.is_high uni) eqn:Ehi; [|reflexivity].
      destruct (Json.is_low b) eqn:Elo; [|reflexivity]. exfalso.
      apply (Hnl b eq_refl); [|exact Elo]. apply (Ht b k' eq_refl Elo).
    - intros b k' [= <- <-] _. exists h1, h2, h3, h4, r2. auto. }
  destruct (Json.is_high uni) eqn:Ehi.
  2:{ apply push_inv in H as (k2 & -> & H). apply Hpush; [exact H|].
      intros b [=]. }
  destruct r2 as [|a [|b r3]].
  { apply push_inv in H as (k2 & -> & H). apply Hpush; [exact H|].
    intros b0 _ (l1 & l2 & l3 & l4 & r' & [=] & _). }
  { apply push_inv in H as (k2 & -> & H). apply Hpush; [exact H|].
    intros b0 _ (l1 & l2 & l3 & l4 & r' & [=] & _). }
  destruct ((a =? 92) && (b =? 117)) eqn:Eab.
  2:{ apply push_inv in H as (k2 & -> & H). apply Hpush; [exact H|].
      intros b0 _ (l1 & l2 & l3 & l4 & r' & [= -> -> _] & _).
      discriminate. }
  destruct r3 as [|l1 [|l2 [|l3 [|l4 r4]]]]; try discriminate.
  destruct (Json.hex4 l1 l2 l3 l4) as [uni2|] eqn:Eh2; [|discriminate].
  destruct (Json.is_low uni2) eqn:Elo.
  - apply push_inv in H as (k4 & -> & H).
    assert (Hv4 : valid_text r4 = true).
    { do 6 (apply valid_text_cons in Hv2 as [_ Hv2]). exact Hv2. }
    cbn [length] in Hlen.
    apply is_high_inv in Ehi. apply is_low_inv in Elo.
    apply (string_ok_plain _ r4);
      [unfold Json.join_surrogates; lia
      |unfold Json.join_surrogates; lia|].
    apply IH; [lia|exact Hv4|exact H].
  - apply push_inv in H as (k2 & -> & H). apply Hpush; [exact H|].
    intros b0 _ (m1 & m2 & m3 & m4 & r' & [= _ _ <- <- <- <- _] & Hm) Hl.
    congruence.
Qed.

Lemma scan_string_wf s k r :
  valid_text s = true -> Json.scan_string s = Some (k, r) ->
  wf_str k = true /\ valid_text r = true.
Proof.
  intros Hv H.
  destruct (scan_string_ok (length s) s k r (le_n _) Hv H) as (Hk & Hr & _).
  auto.
Qed.

Lemma skip_ws_valid s : valid_text s = true -> valid_text (Json.skip_ws s) = true.
Proof.
  induction s as [|c s IH]; [trivial|]. intros H. cbn [Json.skip_ws].
  destruct (Json.is_ws c); [|exact H].
  apply valid_text_cons in H as [_ H]. apply IH, H.
Qed.

Lemma valid_text_app a b :
  valid_text (a ++ b) = true -> valid_text b = true.
Proof.
  unfold valid_text. rewrite forallb_app. intros H.
  apply andb_prop in H as [_ H]. exact H.
Qed.

Lemma strip_prefix_valid lit s r :
  valid_text s = true -> Json.strip_prefix lit s = Some r ->
  valid_text r = true.
Proof.
  revert s. induction lit as [|a lit IH]; intros s Hv H.
  - cbn in H. congruence.
  - destruct s as [|b s]; [discriminate|]. cbn [Json.strip_prefix] in H.
    destruct (a =? b); [|discriminate].
    apply valid_text_cons in Hv as [_ Hv]. eapply IH; eauto.
Qed.

Lemma scan_number_wf s v r :
  valid_text s = true -> Json.scan_number s = Some (v, r) ->
  wf_value v = true /\ valid_text r = true.
Proof.
  intros Hv H. split.
  - destruct v; try reflexivity;
      try (apply scan_number_inv in H
             as (neg & ds & [|] & [|] & _ & _ & _ & _ & [=]); fail).
    cbn [wf_value]. eapply scan_number_float, H.
  - apply scan_number_inv in H as (neg & ds & frac & ex & -> & _).
    do 4 apply valid_text_app in Hv. exact Hv.
Qed.

Lemma scan_constant_wf s v r :
  valid_text s = true -> Json.scan_constant s = Some (v, r) ->
  wf_value v = true /\ valid_text r = true.
Proof.
  intros Hv. unfold Json.scan_constant.
  repeat match goal with
         | |- context [match Json.strip_prefix ?l s with _ => _ end] =>
             let E := fresh "E" in
             destruct (Json.strip_prefix l s) eqn:E;
             [intros [= <- <-]; split;
              [reflexivity|eapply strip_prefix_valid; eauto]|]
         | |- context [match Json.scan_number s with _ => _ end] =>
             let E := fresh "E" in
             destruct (Json.scan_number s) as [[v0 r0]|] eqn:E;
             [intros [= <- <-]; eapply scan_number_wf; eauto|]
         end.
  discriminate.
Qed.

Lemma dict_set_wf d k v :
  List.forallb wf_member d = true -> wf_member (k, v) = true ->
  List.forallb wf_member (dict_set d k v) = true.
Proof.
  intros Hd Hkv. induction d as [|[k' v'] d IH]; cbn [dict_set List.forallb].
  - rewrite Hkv. reflexivity.
  - cbn [List.forallb] in Hd. apply andb_prop in Hd as [H1 H2].
    destruct (pystr_eqb k' k) eqn:E; cbn [List.forallb].
    + apply pystr_eqb_eq in E. subst k'. rewrite Hkv, H2. reflexivity.
    + rewrite H1, (IH H2). reflexivity.
Qed.

Lemma dict_update_wf pairs d :
  List.forallb wf_member d = true -> List.forallb wf_member pairs = true ->
  List.forallb wf_member (dict_update d pairs) = true.
Proof.
  unfold dict_update. revert d.
  induction pairs as [|[k v] pairs IH]; intros d Hd Hp; cbn [List.fold_left];
    [exact Hd|].
  cbn [List.forallb] in Hp. apply andb_prop in Hp as [H1 H2].
  apply IH; [|exact H2]. apply dict_set_wf; assumption.
Qed.

Lemma wf_value_dict d :
  NoDup (List.map fst d) -> List.forallb wf_member d = true ->
  wf_value (VDict d) = true.
Proof.
  intros Hn Hw. cbn [wf_value]. apply andb_true_intro. split.
  - apply bool_decide_eq_true. exact Hn.
  - exact Hw.
Qed.

Lemma wf_value_dict_inv d :
  wf_value (VDict d) = true ->
  NoDup (List.map fst d) /\ List.forallb wf_member d = true.
Proof.
  cbn [wf_value]. intros H. apply andb_prop in H as [Hn Hw].
  apply bool_decide_eq_true in Hn. auto.
Qed.

Lemma scan_wf fuel :
  (forall s v r,
      valid_text s = true -> Json.scan_once fuel s = Some (v, r) ->
      wf_value v = true /\ valid_text r = true)
  /\ (forall s vs r,
         valid_text s = true -> Json.scan_items fuel s = Some (vs, r) ->
         List.forallb wf_value vs = true /\ valid_text r = true)
  /\ (forall s kvs r,
         valid_text s = true -> Json.scan_members fuel s = Some (kvs, r) ->
         List.forallb wf_member kvs = true /\ valid_text r = true).
Proof.
  induction fuel as [|fuel (IHo & IHi & IHm)];
    [repeat split; discriminate|].
  split; [|split].
  - intros s v r Hv H. cbn [Json.scan_once] in H.
    destruct s as [|c s']; [discriminate|].
    pose proof Hv as Hv0. apply valid_text_cons in Hv as [_ Hv].
    destruct (c =? 34).
    { destruct (Json.scan_string s') as [[k r']|] eqn:E; [|discriminate].
      injection H as <- <-. apply scan_string_wf in E; [exact E|exact Hv]. }
    destruct (c =? 123).
    { pose proof (skip_ws_valid _ Hv) as Hv'.
      destruct (Json.skip_ws s') as [|c1 r']; [discriminate|].
      apply valid_text_cons in Hv' as [_ Hv'].
      destruct (c1 =? 125); [injection H as <- <-; auto|].
      destruct (c1 =? 34); [|discriminate].
      destruct (Json.scan_members fuel r') as [[pairs r'']|] eqn:E;
        [|discriminate].
      injection H as <- <-. apply IHm in E as [Hw Hr]; [|exact Hv'].
      split; [|exact Hr]. apply wf_value_dict.
      - apply dict_update_nodup. constructor.
      - apply dict_update_wf; [reflexivity|exact Hw]. }
    destruct (c =? 91).
    { pose proof (skip_ws_valid _ Hv) as Hv'.
      destruct (Json.skip_ws s') as [|c1 r']; [discriminate|].
      destruct (c1 =? 93).
      { injection H as <- <-. apply valid_text_cons in Hv' as [_ Hv']. auto. }
      destruct (Json.scan_items fuel (c1 :: r')) as [[vs r'']|] eqn:E;
        [|discriminate].
      injection H as <- <-. apply IHi in E; [exact E|exact Hv']. }
    eapply scan_constant_wf; eauto.
  - intros s vs r Hv H. cbn [Json.scan_items] in H.
    destruct (Json.scan_once fuel s) as [[v r0]|] eqn:E; [|discriminate].
    apply IHo in E as [Hw Hr0]; [|exact Hv].
    pose proof (skip_ws_valid _ Hr0) as Hv'.
    destruct (Json.skip_ws r0) as [|c r']; [discriminate|].
    apply valid_text_cons in Hv' as [_ Hv'].
    destruct (c =? 93).
    { injection H as <- <-. cbn [List.forallb]. rewrite Hw. auto. }
    destruct (c =? 44); [|discriminate].
    destruct (Json.scan_items fuel (Json.skip_ws r')) as [[vs' r'']|] eqn:E2;
      [|discriminate].
    injection H as <- <-.
    apply IHi in E2 as [Hws Hr]; [|apply skip_ws_valid, Hv'].
    cbn [List.forallb]. rewrite Hw, Hws. auto.
  - intros s kvs r Hv H. cbn [Json.scan_members] in H.
    destruct (Json.scan_string s) as [[k r0]|] eqn:E; [|discriminate].
    apply scan_string_wf in E as [Hk Hr0]; [|exact Hv].
    pose proof (skip_ws_valid _ Hr0) as Hv1.
    destruct (Json.skip_ws r0) as [|c r1]; [discriminate|].
    apply valid_text_cons in Hv1 as [_ Hv1].
    destruct (c =? 58); [|discriminate].
    destruct (Json.scan_once fuel (Json.skip_ws r1)) as [[v r2]|] eqn:E1;
      [|discriminate].
    apply IHo in E1 as [Hw Hr2]; [|apply skip_ws_valid, Hv1].
    pose proof (skip_ws_valid _ Hr2) as Hv3.
    destruct (Json.skip_ws r2) as [|c2 r3]; [discriminate|].
    apply valid_text_cons in Hv3 as [_ Hv3].
    destruct (c2 =? 125).
    { injection H as <- <-. cbn [List.forallb wf_member]. rewrite Hk, Hw. auto. }
    destruct (c2 =? 44); [|discriminate].
    pose proof (skip_ws_valid _ Hv3) as Hv4.
    destruct (Json.skip_ws r3) as [|c3 r4]; [discriminate|].
    apply valid_text_cons in Hv4 as [_ Hv4].
    destruct (c3 =? 34); [|discriminate].
    destruct (Json.scan_members fuel r4) as [[kvs' r5]|] eqn:E2;
      [|discriminate].
    injection H as <- <-. apply IHm in E2 as [Hws Hr]; [|exact Hv4].
    cbn [List.forallb wf_member]. rewrite Hk, Hw, Hws. auto.
Qed.

(** Whatever [json.loads] returns for decoded text is well formed. *)
Lemma loads_wf s v :
  valid_text s = true -> Json.loads s = Some v -> wf_value v = true.
Proof.
  intros Hv. unfold Json.loads.
  destruct (match s with c :: _ => c =? 65279 | [] => false end);
    [discriminate|].
  destruct (Json.scan_once (S (length s)) (Json.skip_ws s)) as [[v0 r]|] eqn:E;
    [|discriminate].
  destruct (Json.skip_ws r); [|discriminate]. intros [= <-].
  apply (proj1 (scan_wf _)) in E as [Hw _]; [exact Hw|].
  apply skip_ws_valid, Hv.
Qed.

(** ** UTF-8 *)

Lemma chr_in_inv lo hi c : chr_in lo hi c = true -> lo <= c <= hi.
Proof.
  unfold chr_in. intros H. apply andb_prop in H as [H1 H2].
  apply N.leb_le in H1. apply N.leb_le in H2. lia.
Qed.

Lemma is_scalar_intro c :
  c < 1114112 -> (c < 55296 \/ 57343 < c) -> is_scalar c = true.
Proof.
  intros H1 H2. unfold is_scalar, is_surrogate, chr_in.
  apply andb_true_intro. split; [apply N.ltb_lt, H1|].
  apply negb_true_iff.
  destruct (55296 <=? c) eqn:E1; [|reflexivity].
  destruct (c <=? 57343) eqn:E2; [|reflexivity].
  apply N.leb_le in E1. apply N.leb_le in E2. lia.
Qed.

Lemma option_map_cons_inv (c : N) (o : option pystr) t :
  option_map (cons c) o = Some t -> exists t', o = Some t' /\ t = c :: t'.
Proof. destruct o; [intros [= <-]; eauto|discriminate]. Qed.

Lemma byte_of_N_to_N b : byte_of_N (Byte.to_N b) = b.
Proof. unfold byte_of_N. rewrite Byte.of_to_N. reflexivity. Qed.

Lemma map_byte_of_N_to_N (d : bytes) :
  List.map byte_of_N (List.map Byte.to_N d) = d.
Proof.
  induction d as [|b d IH]; [reflexivity|].
  cbn [List.map]. rewrite byte_of_N_to_N, IH. reflexivity.
Qed.

(** Decoding yields scalar values only, and encoding them gives the bytes
    back. *)
Lemma utf8_decode_N_spec n :
  forall bs t,
    (length bs <= n)%nat -> utf8_decode_N bs = Some t ->
    valid_text t = true
    /\ utf8_encode t = Some (List.map byte_of_N bs).
Proof.
  induction n as [|n IH]; intros bs t Hlen H.
  { destruct bs; [|cbn in Hlen; lia]. injection H as <-. auto. }
  destruct bs as [|b0 r0]; [injection H as <-; auto|].
  cbn [length] in Hlen. cbn [utf8_decode_N] in H.
  assert (Hstep : forall c k rest t',
            utf8_decode_N rest = Some t' -> (length rest <= n)%nat ->
            is_scalar c = true ->
            utf8_encode_char c = Some (List.map byte_of_N k) ->
            valid_text (c :: t') = true
            /\ utf8_encode (c :: t') = Some (List.map byte_of_N (k ++ rest))).
  { intros c k rest t' Hd Hl Hc He.
    destruct (IH rest t' Hl Hd) as [Hv Hen]. split.
    - unfold valid_text. cbn [List.forallb]. rewrite Hc. exact Hv.
    - cbn [utf8_encode]. rewrite He, Hen, map_app. reflexivity. }
  destruct (b0 <? 128) eqn:E1.
  { apply option_map_cons_inv in H as (t' & Hd & ->). apply N.ltb_lt in E1.
    apply (Hstep b0 [b0] r0 t' Hd); [lia|apply is_scalar_intro; lia|].
    unfold utf8_encode_char.
    destruct (b0 <? 128) eqn:E; [reflexivity|apply N.ltb_ge in E; lia]. }
  apply N.ltb_ge in E1.
  destruct (chr_in 194 223 b0) eqn:E2.
  { apply chr_in_inv in E2. destruct r0 as [|b1 r1]; [discriminate|].
    destruct (cont b1) eqn:C1; [|discriminate]. apply chr_in_inv in C1.
    apply option_map_cons_inv in H as (t' & Hd & ->). cbn [length] in Hlen.
    apply (Hstep _ [b0; b1] r1 t' Hd); [lia|apply is_scalar_intro; lia|].
    unfold utf8_encode_char.
    set (c := (b0 - 192) * 64 + (b1 - 128)).
    destruct (c <? 128) eqn:Ea; [apply N.ltb_lt in Ea; subst c; lia|].
    destruct (c <? 2048) eqn:Eb; [|apply N.ltb_ge in Eb; subst c; lia].
    cbn [List.map]. repeat f_equal; subst c; lia. }
  destruct (chr_in 224 239 b0) eqn:E3.
  { apply chr_in_inv in E3. destruct r0 as [|b1 [|b2 r2]]; try discriminate.
    match type of H with
    | (if ?cond then _ else _) = _ => destruct cond eqn:C; [|discriminate]
    end.
    apply andb_prop in C as [C1 C2]. apply chr_in_inv in C2.
    apply option_map_cons_inv in H as (t' & Hd & ->). cbn [length] in Hlen.
    set (c := (b0 - 224) * 4096 + (b1 - 128) * 64 + (b2 - 128)).
    assert (Hb1 : 128 <= b1 <= 191
                  /\ (b0 = 224 -> 160 <= b1) /\ (b0 = 237 -> b1 <= 159)).
    { revert C1. destruct (N.eqb_spec b0 224); destruct (N.eqb_spec b0 237);
        intros C1; apply chr_in_inv in C1; lia. }
    clear C1.
    apply (Hstep c [b0; b1; b2] r2 t' Hd);
      [lia|apply is_scalar_intro; subst c; lia|].
    unfold utf8_encode_char, is_surrogate, chr_in.
    destruct (c <? 128) eqn:Ea; [apply N.ltb_lt in Ea; subst c; lia|].
    destruct (c <? 2048) eqn:Eb; [apply N.ltb_lt in Eb; subst c; lia|].
    destruct ((55296 <=? c) && (c <=? 57343)) eqn:Es.
    { apply andb_prop in Es as [Es1 Es2].
      apply N.leb_le in Es1. apply N.leb_le in Es2. subst c. lia. }
    destruct (c <? 65536) eqn:Ec; [|apply N.ltb_ge in Ec; subst c; lia].
    cbn [List.map]. repeat f_equal; subst c; lia. }
  destruct (chr_in 240 244 b0) eqn:E4; [|discriminate].
  apply chr_in_inv in E4.
  destruct r0 as [|b1 [|b2 [|b3 r3]]]; try discriminate.
  match type of H with
  | (if ?cond then _ else _) = _ => destruct cond eqn:C; [|discriminate]
  end.
  apply andb_prop in C as [C C3]. apply andb_prop in C as [C1 C2].
  apply chr_in_inv in C2. apply chr_in_inv in C3.
  apply option_map_cons_inv in H as (t' & Hd & ->). cbn [length] in Hlen.
  set (c := (b0 - 240) * 262144 + (b1 - 128) * 4096
            + (b2 - 128) * 64 + (b3 - 128)).
  assert (Hb1 : 128 <= b1 <= 191
                /\ (b0 = 240 -> 144 <= b1) /\ (b0 = 244 -> b1 <= 143)).
  { revert C1. destruct (N.eqb_spec b0 240); destruct (N.eqb_spec b0 244);
      intros C1; apply chr_in_inv in C1; lia. }
  clear C1.
  apply (Hstep c [b0; b1; b2; b3] r3 t' Hd);
    [lia|apply is_scalar_intro; subst c; lia|].
  unfold utf8_encode_char, is_surrogate, chr_in.
  destruct (c <? 128) eqn:Ea; [apply N.ltb_lt in Ea; subst c; lia|].
  destruct (c <? 2048) eqn:Eb; [apply N.ltb_lt in Eb; subst c; lia|].
  destruct ((55296 <=? c) && (c <=? 57343)) eqn:Es.
  { apply andb_prop in Es as [Es1 Es2].
    apply N.leb_le in Es1. apply N.leb_le in Es2. subst c. lia. }
  destruct (c <? 65536) eqn:Ec; [apply N.ltb_lt in Ec; subst c; lia|].
  destruct (c <? 1114112) eqn:Ed; [|apply N.ltb_ge in Ed; subst c; lia].
  cbn [List.map]. repeat f_equal; subst c; lia.
Qed.

Lemma utf8_decode_valid d t : utf8_decode d = Some t -> valid_text t = true.
Proof.
  unfold utf8_decode. intros H.
  apply (utf8_decode_N_spec _ _ _ (le_n _)) in H as [H _]. exact H.
Qed.

(** Encoding a decoded text gives the original bytes. *)
Lemma utf8_encode_decode d t : utf8_decode d = Some t -> utf8_encode t = Some d.
Proof.
  unfold utf8_decode. intros H.
  apply (utf8_decode_N_spec _ _ _ (le_n _)) in H as [_ H].
  rewrite map_byte_of_N_to_N in H. exact H.
Qed.

Lemma universal_newlines_valid t :
  valid_text t = true -> valid_text (universal_newlines t) = true.
Proof.
  assert (H : forall n t, (length t <= n)%nat -> valid_text t = true ->
                          valid_text (universal_newlines t) = true).
  { clear t. induction n as [|n IH]; intros t Hlen Hv.
    { destruct t; [reflexivity|cbn in Hlen; lia]. }
    destruct t as [|c t]; [reflexivity|].
    apply valid_text_cons in Hv as [Hc Hv]. cbn [length] in Hlen.
    cbn [universal_newlines]. destruct (c =? 13).
    - destruct t as [|c' t']; [reflexivity|].
      apply valid_text_cons in Hv as [Hc' Hv']. cbn [length] in Hlen.
      destruct (c' =? 10); unfold valid_text; cbn [List.forallb].
      + apply (IH t'); [lia|exact Hv'].
      + change (List.forallb is_scalar (universal_newlines (c' :: t')) = true).
        apply (IH (c' :: t')); [cbn [length]; lia|].
        unfold valid_text. cbn [List.forallb]. rewrite Hc'. exact Hv'.
    - unfold valid_text. cbn [List.forallb]. rewrite Hc.
      apply (IH t); [lia|exact Hv]. }
  apply (H (length t)). lia.
Qed.

Lemma universal_newlines_id t : ~ In 13 t -> universal_newlines t = t.
Proof.
  induction t as [|c t IH]; [reflexivity|]. intros Hn.
  cbn [universal_newlines].
  destruct (N.eqb_spec c 13) as [->|_]; [exfalso; apply Hn; left; reflexivity|].
  rewrite IH; [reflexivity|]. intros Hin. apply Hn. right. exact Hin.
Qed.

Lemma utf8_encode_valid t :
  valid_text t = true -> exists bs, utf8_encode t = Some bs.
Proof.
  induction t as [|c t IH]; [eexists; reflexivity|]. intros Hv.
  apply valid_text_cons in Hv as [Hc Hv]. destruct (IH Hv) as (bs & Hbs).
  cbn [utf8_encode]. rewrite Hbs.
  apply is_scalar_inv in Hc as [H1 H2].
  unfold utf8_encode_char, is_surrogate, chr_in.
  destruct (c <? 128); [eexists; reflexivity|].
  destruct (c <? 2048); [eexists; reflexivity|].
  destruct ((55296 <=? c) && (c <=? 57343)) eqn:Es.
  { apply andb_prop in Es as [Es1 Es2].
    apply N.leb_le in Es1. apply N.leb_le in Es2. lia. }
  destruct (c <? 65536); [eexists; reflexivity|].
  destruct (c <? 1114112) eqn:E; [eexists; reflexivity|].
  apply N.ltb_ge in E. lia.
Qed.

(** ** Values the program handles are well formed *)

Lemma wf_str_ascii s : List.forallb is_ascii s = true -> wf_str s = true.
Proof.
  unfold wf_str. induction s as [|c s IH]; [reflexivity|].
  cbn [List.forallb no_surrogate_pair]. intros H.
  apply andb_prop in H as [Hc Hs]. specialize (IH Hs).
  apply andb_prop in IH as [H1 H2]. rewrite H1, H2.
  unfold is_ascii in Hc. apply N.ltb_lt in Hc.
  assert (Hh : Json.is_high c = false) by (apply not_high; lia).
  rewrite Hh. destruct (c <? 1114112) eqn:E; [|apply N.ltb_ge in E; lia].
  destruct s; reflexivity.
Qed.

Lemma lower_hex_is_ascii c : is_lower_hex c = true -> is_ascii c = true.
Proof.
  unfold is_lower_hex, is_digit, chr_in, is_ascii. intros H. apply N.ltb_lt.
  apply orb_prop in H as [H|H]; apply andb_prop in H as [_ H];
    apply N.leb_le in H; lia.
Qed.

Lemma wf_str_hex bs : wf_str (hex bs) = true.
Proof.
  apply wf_str_ascii. eapply forallb_impl; [apply lower_hex_is_ascii|].
  apply hex_lower.
Qed.

Lemma wf_str_uuid b : wf_str (uuid_str b) = true.
Proof.
  apply wf_str_ascii. unfold uuid_str. rewrite !forallb_app.
  assert (H : forall bs, List.forallb is_ascii (hex bs) = true)
    by (intros bs; eapply forallb_impl; [apply lower_hex_is_ascii|apply hex_lower]).
  rewrite !H. reflexivity.
Qed.

(** ** What no operation changes *)

Lemma keeps_env_ret {A} (a : A) : keeps_env (ret a).
Proof. intros w r w' [= <- <-]. reflexivity. Qed.

Lemma keeps_env_raise {A} e : keeps_env (@raise A e).
Proof. intros w r w' [= <- <-]. reflexivity. Qed.

Lemma keeps_env_get {A} (f : world -> A) : keeps_env (get f).
Proof. intros w r w' [= <- <-]. reflexivity. Qed.

Lemma keeps_env_bind {A B} (m : M A) (k : A -> M B) :
  keeps_env m -> (forall a, keeps_env (k a)) -> keeps_env (bind m k).
Proof.
  intros Hm Hk w r w' H. unfold bind in H.
  destruct (m w) as [[a|e] w1] eqn:E; apply Hm in E.
  - apply Hk in H. congruence.
  - injection H as <- <-. exact E.
Qed.

Lemma keeps_env_try {A} (m : M A) h :
  keeps_env m -> (forall e, keeps_env (h e)) -> keeps_env (try_except m h).
Proof.
  intros Hm Hh w r w' H. unfold try_except in H.
  destruct (m w) as [[a|e] w1] eqn:E; apply Hm in E.
  - injection H as <- <-. exact E.
  - apply Hh in H. congruence.
Qed.

Ltac keeps_prim op :=
  intros w r w' H; unfold op in H;
  repeat case_match; unfold ret, raise in H; simplify_eq; reflexivity.

Lemma keeps_env_mkdir p : keeps_env (mkdir p).
Proof. keeps_prim @mkdir. Qed.

Lemma keeps_env_chmod p mode : keeps_env (chmod p mode).
Proof. keeps_prim @chmod. Qed.

Lemma keeps_env_open_read p : keeps_env (open_read p).
Proof. keeps_prim @open_read. Qed.

Lemma keeps_env_open_write p : keeps_env (open_write p).
Proof. keeps_prim @open_write. Qed.

Lemma keeps_env_write_text p text : keeps_env (write_text p text).
Proof. keeps_prim @write_text. Qed.

Lemma keeps_env_read_text handle : keeps_env (read_text handle).
Proof. keeps_prim @read_text. Qed.

Lemma keeps_env_emit msg : keeps_env (emit msg).
Proof. intros w r w' [= <- <-]. reflexivity. Qed.

Ltac keeps :=
  repeat first
    [ apply keeps_env_ret | apply keeps_env_raise | apply keeps_env_get
    | apply keeps_env_mkdir | apply keeps_env_chmod
    | apply keeps_env_open_read | apply keeps_env_open_write
    | apply keeps_env_write_text | apply keeps_env_read_text
    | apply keeps_env_emit
    | apply keeps_env_bind; [|intros ?]
    | apply keeps_env_try; [|intros ?]
    | match goal with
      | |- keeps_env (if ?b then _ else _) => destruct b
      | |- keeps_env (match ?x with _ => _ end) => destruct x
      end ].

Lemma keeps_env_makedirs_rev rp : keeps_env (makedirs_rev rp).
Proof.
  induction rp as [|tail rhead IH]; [apply keeps_env_ret|].
  cbn [makedirs_rev]. unfold path_exists, path_isdir.
  apply keeps_env_bind; [keeps|intros ex].
  apply keeps_env_bind.
  - destruct (negb ex); [|keeps].
    apply keeps_env_try; [exact IH|intros e]. keeps.
  - intros _. keeps.
Qed.


Lemma keeps_env_create_backup p : keeps_env (create_backup p).
Proof. unfold create_backup. keeps. Qed.


(** ** The merged document *)

Lemma to_dict_keys cfg : List.map fst (to_dict cfg) = known_keys.
Proof. reflexivity. Qed.

Lemma dict_get_update_other pairs :
  forall d k, ~ In k (List.map fst pairs) ->
              dict_get (dict_update d pairs) k = dict_get d k.
Proof.
  unfold dict_update.
  induction pairs as [|[k0 v0] pairs IH]; intros d k Hk; [reflexivity|].
  cbn [fold_left fst snd]. cbn [List.map fst In] in Hk.
  rewrite IH by tauto. apply dict_get_set_ne. tauto.
Qed.

Ltac key_neq := let E := fresh in intros E; vm_compute in E; discriminate E.

(** After the merge the four known keys hold the new identifiers. *)
Lemma dict_get_update_to_dict d cfg :
  let new_data := dict_update d (to_dict cfg) in
  dict_get new_data (str "telemetry.macMachineId")
  = Some (telemetry_mac_machine_id cfg)
  /\ dict_get new_data (str "telemetry.machineId")
     = Some (telemetry_machine_id cfg)
  /\ dict_get new_data (str "telemetry.devDeviceId")
     = Some (telemetry_dev_device_id cfg)
  /\ dict_get new_data (str "telemetry.sqmId") = Some (telemetry_sqm_id cfg).
Proof.
  unfold dict_update, to_dict. cbn [fold_left fst snd].
  split_and!.
  - rewrite !dict_get_set_ne by key_neq. apply dict_get_set_eq.
  - rewrite !dict_get_set_ne by key_neq. apply dict_get_set_eq.
  - rewrite !dict_get_set_ne by key_neq. apply dict_get_set_eq.
  - apply dict_get_set_eq.
Qed.

Lemma to_dict_wf cfg :
  wf_config cfg = true -> List.forallb wf_member (to_dict cfg) = true.
Proof.
  unfold wf_config. intros H.
  apply andb_prop in H as [H H4]. apply andb_prop in H as [H H3].
  apply andb_prop in H as [H1 H2].
  unfold to_dict. cbn [forallb wf_member]. rewrite H1, H2, H3, H4.
  vm_compute. reflexivity.
Qed.

Lemma merged_wf orig cfg :
  wf_value (VDict orig) = true -> wf_config cfg = true ->
  wf_value (VDict (dict_update orig (to_dict cfg))) = true.
Proof.
  intros Ho Hc. apply wf_value_dict_inv in Ho as [Hn Hm].
  apply wf_value_dict.
  - apply dict_update_nodup, Hn.
  - apply dict_update_wf; [exact Hm|apply to_dict_wf, Hc].
Qed.

Lemma dumps_ascii v :
  wf_value v = true -> List.forallb is_ascii (Json.dumps v) = true.
Proof.
  intros H. apply forallb_forall. intros c Hc.
  apply text_char_ascii.
  pose proof (encode_text v H 0%nat) as Ht.
  rewrite forallb_forall in Ht. apply Ht, Hc.
Qed.

Lemma dumps_encoded v :
  wf_value v = true -> utf8_encode (Json.dumps v) = Some (document v).
Proof. intros H. apply utf8_encode_ascii, dumps_ascii, H. Qed.

(** Reading the document back gives the value that was written. *)
Lemma json_load_document v w :
  wf_value v = true -> json_load (document v) w = (Ok v, w).
Proof.
  intros H. unfold json_load, read_text, document.
  rewrite (utf8_decode_ascii _ (dumps_ascii v H)).
  unfold bind, ret.
  pose proof (universal_newlines_text _ (encode_text v H 0%nat)) as Hn.
  fold (Json.dumps v) in Hn. rewrite Hn, (loads_dumps v H). reflexivity.
Qed.

Lemma json_load_ok data t v w :
  utf8_decode data = Some t -> Json.loads (universal_newlines t) = Some v ->
  json_load data w = (Ok v, w).
Proof.
  intros Hd Hl. unfold json_load, read_text. rewrite Hd.
  unfold bind, ret. rewrite Hl. reflexivity.
Qed.

(** What [json.load] returns is well formed. *)
Lemma json_load_wf data v w w' :
  json_load data w = (Ok v, w') -> wf_value v = true /\ w' = w.
Proof.
  unfold json_load, read_text.
  destruct (utf8_decode data) as [t|] eqn:Hd; [|discriminate].
  unfold bind, ret.
  destruct (Json.loads (universal_newlines t)) as [v0|] eqn:Hl; [|discriminate].
  intros [= <- <-]. split; [|reflexivity].
  apply (loads_wf _ _ (universal_newlines_valid _ (utf8_decode_valid _ _ Hd)) Hl).
Qed.

(** ** Running the file operations *)

Lemma get_config_path_run user w :
  get_config_path user w = (Ok (config_path_of (system w) user), w).
Proof. reflexivity. Qed.

Lemma config_path_nonempty sys user : config_path_of sys user <> [].
Proof.
  destruct (config_path_split sys user) as (d & _ & ->).
  destruct d; discriminate.
Qed.

Lemma makedirs_existing d w :
  fs_tree (fs w) -> is_dir (fs w) d = true -> makedirs d w = (Ok tt, w).
Proof.
  intros Ht Hd. unfold makedirs.
  destruct (List.rev d) as [|tail rhead] eqn:E; [reflexivity|].
  assert (Ed : d = List.rev rhead ++ [tail]).
  { rewrite <- (rev_involutive d), E. reflexivity. }
  cbn [makedirs_rev]. cbn [List.rev]. rewrite <- Ed.
  assert (Hh : is_dir (fs w) (List.rev rhead) = true).
  { apply (fs_tree_ancestors _ d Ht Hd). exists [tail]. exact Ed. }
  rewrite (bind_ok _ _ _ _ _ (path_exists_run _ _)).
  unfold is_dir in Hh.
  destruct (stat (fs w) (List.rev rhead)) as [n|] eqn:Es; [|discriminate].
  cbn [negb]. rewrite (bind_ok _ _ _ _ _ (eq_refl : ret tt w = (Ok tt, w))).
  assert (Hm : exists c, mkdir d w = (Raise (OSError c (SysMkdir d)), w)).
  { unfold mkdir. destruct (faults w (SysMkdir d)); [eauto|].
    unfold is_dir in Hd. destruct (stat (fs w) d); [eauto|discriminate]. }
  destruct Hm as [c Hm]. rewrite (try_except_raise _ _ _ _ _ Hm).
  unfold bind, path_isdir, get. rewrite Hd. reflexivity.
Qed.

Lemma open_read_file p w m d :
  stat (fs w) p = Some (File m d) -> faults w (SysOpenRead p) = false ->
  open_read p w = (Ok d, w).
Proof. intros Hs Hf. unfold open_read. rewrite Hf, Hs. reflexivity. Qed.

Lemma open_write_file p w m d :
  stat (fs w) p = Some (File m d) -> faults w (SysOpenWrite p) = false ->
  open_write p w = (Ok tt, set_fs (<[p := File m []]> (fs w)) w).
Proof. intros Hs Hf. unfold open_write. rewrite Hf, Hs. reflexivity. Qed.

Lemma open_write_new p w :
  stat (fs w) p = None -> is_dir (fs w) (dirname p) = true ->
  faults w (SysOpenWrite p) = false ->
  open_write p w
  = (Ok tt, set_fs (<[p := File (new_mode 438 w) []]> (fs w)) w).
Proof.
  intros Hs Hd Hf. unfold open_write. rewrite Hf, Hs.
  unfold is_dir in Hd.
  destruct (stat (fs w) (dirname p)) as [[|]|]; try discriminate. reflexivity.
Qed.

Lemma write_text_empty p text b f m w :
  utf8_encode text = Some b ->
  write_text p text (set_fs (<[p := File m []]> f) w)
  = (Ok tt, set_fs (<[p := File m b]> f) w).
Proof.
  intros He. unfold write_text. rewrite He. cbn [fs set_fs].
  rewrite lookup_insert_eq. cbn [app]. rewrite insert_insert_eq. reflexivity.
Qed.

(** ** The guarded block of [save_config] *)

(** The file is absent: the merge starts from the empty object. *)
Lemma write_merged_absent cfg p w :
  stat (fs w) p = None -> is_dir (fs w) (dirname p) = true ->
  faults w (SysOpenWrite p) = false -> wf_config cfg = true ->
  write_merged cfg p w
  = (Ok tt,
     set_fs (<[p := File (new_mode 438 w)
                      (document (VDict (dict_update [] (to_dict cfg))))]>
               (fs w)) w).
Proof.
  intros Hs Hd Hf Hc. unfold write_merged. apply try_except_ok.
  rewrite (bind_ok _ _ _ _ _ (path_exists_run _ _)). rewrite Hs.
  rewrite (bind_ok _ _ _ _ _ (eq_refl : ret (VDict []) w = (Ok (VDict []), w))).
  cbn [dict_merge].
  rewrite (bind_ok _ _ _ _ _ (eq_refl : ret _ w = (Ok _, w))).
  rewrite (bind_ok _ _ _ _ _ (open_write_new _ _ Hs Hd Hf)).
  unfold json_dump. apply write_text_empty, dumps_encoded.
  apply merged_wf; [reflexivity|exact Hc].
Qed.

(** The file holds a JSON object: the merge starts from it. *)
Lemma write_merged_object cfg p w m data t orig :
  stat (fs w) p = Some (File m data) ->
  faults w (SysOpenRead p) = false -> faults w (SysOpenWrite p) = false ->
  utf8_decode data = Some t ->
  Json.loads (universal_newlines t) = Some (VDict orig) ->
  wf_config cfg = true ->
  write_merged cfg p w
  = (Ok tt,
     set_fs (<[p := File m (document (VDict (dict_update orig (to_dict cfg))))]>
               (fs w)) w).
Proof.
  intros Hs Hr Hw Hd Hl Hc. unfold write_merged. apply try_except_ok.
  rewrite (bind_ok _ _ _ _ _ (path_exists_run _ _)). rewrite Hs.
  erewrite bind_ok; cycle 1.
  { erewrite bind_ok by (eapply open_read_file; eassumption).
    eapply json_load_ok; eassumption. }
  cbn [dict_merge].
  rewrite (bind_ok _ _ _ _ _ (eq_refl : ret _ w = (Ok _, w))).
  rewrite (bind_ok _ _ _ _ _ (open_write_file _ _ _ _ Hs Hw)).
  unfold json_dump. apply write_text_empty, dumps_encoded.
  apply merged_wf; [|exact Hc].
  apply (loads_wf _ _ (universal_newlines_valid _ (utf8_decode_valid _ _ Hd)) Hl).
Qed.

Lemma write_merged_failure cfg p w m data e :
  stat (fs w) p = Some (File m data) -> load_failure w p data = Some e ->
  write_merged cfg p w
  = (Raise (AppError ERR_CONFIG (str "save_config") p e), w).
Proof.
  intros Hs Hl. unfold write_merged, load_failure in *.
  erewrite try_except_raise; [reflexivity|].
  rewrite (bind_ok _ _ _ _ _ (path_exists_run _ _)). rewrite Hs.
  unfold bind at 1. unfold bind at 1. unfold open_read. rewrite Hs.
  destruct (faults w (SysOpenRead p)); [injection Hl as <-; reflexivity|].
  unfold json_load, read_text.
  destruct (utf8_decode data) as [t|]; [|injection Hl as <-; reflexivity].
  unfold bind at 1. unfold ret at 1.
  destruct (Json.loads (universal_newlines t)) as [v|];
    [|injection Hl as <-; reflexivity].
  unfold ret at 1.
  destruct v; try discriminate; injection Hl as <-; reflexivity.
Qed.

(** Whenever the block succeeds, the file holds the merge of a well-formed
    object with the new identifiers, and nothing else changed. *)
Lemma write_merged_ok cfg p w w' :
  write_merged cfg p w = (Ok tt, w') ->
  exists orig m b,
    wf_value (VDict orig) = true
    /\ utf8_encode (Json.dumps (VDict (dict_update orig (to_dict cfg))))
       = Some b
    /\ w' = set_fs (<[p := File m b]> (fs w)) w.
Proof.
  unfold write_merged, try_except.
  match goal with
  | |- context [match ?c w with _ => _ end] =>
      destruct (c w) as [[[]|e] w1] eqn:E
  end; [|discriminate].
  intros [= <-].
  rewrite (bind_ok _ _ _ _ _ (path_exists_run _ _)) in E.
  unfold bind at 1 in E.
  match type of E with
  | context [match ?c w with _ => _ end] =>
      destruct (c w) as [[v|e] w2] eqn:E1
  end; [|discriminate].
  assert (Hv : wf_value v = true /\ w2 = w).
  { destruct (stat (fs w) p).
    - unfold bind, open_read in E1.
      destruct (faults w (SysOpenRead p)); [discriminate|].
      destruct (stat (fs w) p) as [[|m d]|]; try discriminate.
      apply json_load_wf in E1. exact E1.
    - injection E1 as <- <-. auto. }
  destruct Hv as [Hv ->]. clear E1.
  destruct v as [| | | | | |orig]; try discriminate E.
  cbn [dict_merge] in E.
  rewrite (bind_ok _ _ _ _ _ (eq_refl : ret _ w = (Ok _, w))) in E.
  unfold bind, open_write in E.
  destruct (faults w (SysOpenWrite p)); [discriminate|].
  unfold json_dump, write_text in E.
  destruct (stat (fs w) p) as [[|m d]|].
  - discriminate.
  - destruct (utf8_encode _) as [b|] eqn:Eb; [|discriminate].
    cbn [fs set_fs] in E. rewrite lookup_insert_eq in E.
    injection E as <-. exists orig, m, b.
    split; [exact Hv|]. split; [exact Eb|].
    cbn [app]. rewrite insert_insert_eq. reflexivity.
  - destruct (stat (fs w) (dirname p)) as [[|]|]; try discriminate.
    destruct (utf8_encode _) as [b|] eqn:Eb; [|discriminate].
    cbn [fs set_fs] in E. rewrite lookup_insert_eq in E.
    injection E as <-. exists orig, (new_mode 438 w), b.
    split; [exact Hv|]. split; [exact Eb|].
    cbn [app]. rewrite insert_insert_eq. reflexivity.
Qed.

(** ** The backup block of [save_config] *)

Lemma chmod_file p w m data :
  stat (fs w) p = Some (File m data) -> faults w (SysChmod p) = false ->
  chmod p 438 w = (Ok tt, set_fs (<[p := File 438 data]> (fs w)) w).
Proof. intros Hs Hf. unfold chmod. rewrite Hf, Hs. reflexivity. Qed.

Lemma file_data_insert f p m d : p <> [] -> file_data (<[p := File m d]> f) p = Some d.
Proof. intros H. unfold file_data. rewrite stat_insert_eq by exact H. reflexivity. Qed.

Lemma create_backup_run p w m data :
  let b := backup_path_of p (now w) in
  p <> [] -> b <> p -> b <> [] ->
  stat (fs w) p = Some (File m data) -> faults w (SysChmod p) = false ->
  exists w1,
    create_backup p w = (Ok tt, w1)
    /\ env_of w1 = env_of w
    /\ stat (fs w1) p = Some (File 438 data)
    /\ (forall q, q <> p -> q <> b -> fs w1 !! q = fs w !! q)
    /\ (backup_done w w1 b data
        \/ exists e, out w1 = out w ++ [MsgBackupFailed e])
    /\ (faults w (SysOpenRead p) = false ->
        faults w (SysOpenWrite b) = false ->
        is_dir (fs w) b = false ->
        (stat (fs w) b = None -> is_dir (fs w) (dirname b) = true) ->
        utf8_decode data <> None ->
        backup_done w w1 b data).
Proof.
  intros b Hp Hbp Hb Hs Hc.
  set (f0 := <[p := File 438 data]> (fs w)).
  assert (Hs0 : stat f0 p = Some (File 438 data))
    by (apply stat_insert_eq, Hp).
  assert (Hsb : stat f0 b = stat (fs w) b)
    by (apply stat_insert_ne; congruence).
  assert (Hdir : forall q, is_dir f0 q = is_dir (fs w) q).
  { intros q. apply (is_dir_insert_same_kind _ _ _ _ _ Hs). exact I. }
  assert (Hframe0 : forall n q,
             q <> p -> q <> b -> <[b := n]> f0 !! q = fs w !! q).
  { intros n q H1 H2. rewrite lookup_insert_ne by congruence.
    apply lookup_insert_ne. congruence. }
  assert (Hframe1 : forall q, q <> p -> f0 !! q = fs w !! q).
  { intros q H1. apply lookup_insert_ne. congruence. }
  assert (Hp1 : forall n, stat (<[b := n]> f0) p = Some (File 438 data)).
  { intros n. rewrite stat_insert_ne by exact Hbp. exact Hs0. }
  unfold create_backup.
  rewrite (bind_ok _ _ _ _ _ (chmod_file _ _ _ _ Hs Hc)).
  fold f0. set (w0 := set_fs f0 w).
  rewrite (bind_ok _ _ _ _ _ (eq_refl : get now w0 = (Ok (now w), w0))).
  fold b. unfold try_except, bind at 1, open_read.
  change (faults w0) with (faults w). change (fs w0) with f0. rewrite Hs0.
  destruct (faults w (SysOpenRead p)) eqn:Fr.
  { eexists. split; [reflexivity|]. split; [reflexivity|].
    split; [exact Hs0|]. split; [intros q H1 _; apply Hframe1, H1|].
    split; [right; eexists; reflexivity|discriminate]. }
  unfold bind at 1, open_write.
  change (faults w0) with (faults w). change (fs w0) with f0. rewrite Hsb.
  destruct (faults w (SysOpenWrite b)) eqn:Fw.
  { eexists. split; [reflexivity|]. split; [reflexivity|].
    split; [exact Hs0|]. split; [intros q H1 _; apply Hframe1, H1|].
    split; [right; eexists; reflexivity|discriminate]. }
  (* what opening the backup for writing leaves behind *)
  assert (Hcopy : forall mb,
    exists w1,
      match (text <- read_text data;;
             _ <- write_text b text;; emit (MsgBackupCreated b))
              (set_fs (<[b := File mb []]> f0) w0) with
      | (Ok a, w') => (Ok a, w')
      | (Raise e, w') => emit (MsgBackupFailed e) w'
      end = (Ok tt, w1)
      /\ env_of w1 = env_of w
      /\ stat (fs w1) p = Some (File 438 data)
      /\ (forall q, q <> p -> q <> b -> fs w1 !! q = fs w !! q)
      /\ (backup_done w w1 b data
          \/ exists e, out w1 = out w ++ [MsgBackupFailed e])
      /\ (utf8_decode data <> None -> backup_done w w1 b data)).
  { intros mb. unfold read_text.
    destruct (utf8_decode data) as [t|] eqn:Hd.
    - destruct (utf8_encode_valid (universal_newlines t)) as [bs Hbs].
      { apply universal_newlines_valid, (utf8_decode_valid _ _ Hd). }
      rewrite (bind_ok _ _ _ _ _ (eq_refl : ret _ _ = (Ok _, _))).
      change (set_fs (<[b:=File mb []]> f0) w0)
        with (set_fs (<[b:=File mb []]> f0) w).
      rewrite (bind_ok _ _ _ _ _ (write_text_empty _ _ _ _ _ _ Hbs)).
      assert (Hdone : backup_done w
                (set_out (out w ++ [MsgBackupCreated b])
                   (set_fs (<[b:=File mb bs]> f0) w)) b data).
      { exists t, bs. split; [exact Hd|]. split; [exact Hbs|].
        split; [apply file_data_insert, Hb|reflexivity]. }
      eexists. split; [reflexivity|]. split; [reflexivity|].
      split; [apply Hp1|]. split; [apply Hframe0|].
      split; [left; exact Hdone|intros _; exact Hdone].
    - eexists. split; [reflexivity|]. split; [reflexivity|].
      split; [apply Hp1|]. split; [apply Hframe0|].
      split; [right; eexists; reflexivity|congruence]. }
  destruct (stat (fs w) b) as [[mb|mb db]|] eqn:Sb.
  - eexists. split; [reflexivity|]. split; [reflexivity|].
    split; [exact Hs0|]. split; [intros q H1 _; apply Hframe1, H1|].
    split; [right; eexists; reflexivity|].
    unfold is_dir. rewrite Sb. discriminate.
  - destruct (Hcopy mb) as (w1 & H1 & H2 & H3 & H4 & H5 & H6).
    exists w1. split; [exact H1|]. do 4 (split; [assumption|]).
    intros _ _ _ _. exact H6.
  - pose proof (Hdir (dirname b)) as Hdb. unfold is_dir in Hdb.
    destruct (stat f0 (dirname b)) as [[md|md dd]|] eqn:Sd.
    + destruct (Hcopy (new_mode 438 w0)) as (w1 & H1 & H2 & H3 & H4 & H5 & H6).
      exists w1. split; [exact H1|]. do 4 (split; [assumption|]).
      intros _ _ _ _. exact H6.
    + eexists. split; [reflexivity|]. split; [reflexivity|].
      split; [exact Hs0|]. split; [intros q H1 _; apply Hframe1, H1|].
      split; [right; eexists; reflexivity|].
      intros _ _ _ Hd. specialize (Hd eq_refl). unfold is_dir in Hd.
      rewrite <- Hdb in Hd. discriminate.
    + eexists. split; [reflexivity|]. split; [reflexivity|].
      split; [exact Hs0|]. split; [intros q H1 _; apply Hframe1, H1|].
      split; [right; eexists; reflexivity|].
      intros _ _ _ Hd. specialize (Hd eq_refl). unfold is_dir in Hd.
      rewrite <- Hdb in Hd. discriminate.
Qed.

(** ** [save_config] as a whole *)

Lemma dict_update_keys pairs :
  forall d k, In k (List.map fst (dict_update d pairs))
              <-> In k (List.map fst d) \/ In k (List.map fst pairs).
Proof.
  unfold dict_update.
  induction pairs as [|[k0 v0] pairs IH]; intros d k.
  - cbn. tauto.
  - cbn [fold_left fst snd List.map In]. rewrite IH, dict_set_keys_in.
    intuition congruence.
Qed.

Lemma env_faults w1 w : env_of w1 = env_of w -> faults w1 = faults w.
Proof. unfold env_of. congruence. Qed.

Lemma env_system w1 w : env_of w1 = env_of w -> system w1 = system w.
Proof. unfold env_of. congruence. Qed.

Lemma env_now w1 w : env_of w1 = env_of w -> now w1 = now w.
Proof. unfold env_of. congruence. Qed.

Lemma backup_path_nonempty p t : backup_path_of p t <> [].
Proof.
  unfold backup_path_of. destruct p as [|x [|y p]]; cbn; discriminate.
Qed.

(** The file exists: [save_config] is the backup block followed by the
    guarded block, and the backup block always hands over. *)
Lemma save_config_existing cfg user w p m data :
  get_config_path user w = (Ok p, w) ->
  fs_tree (fs w) -> stat (fs w) p = Some (File m data) ->
  faults w (SysChmod p) = false ->
  let b := backup_path_of p (now w) in
  exists w1,
    save_config cfg user w = write_merged cfg p w1
    /\ env_of w1 = env_of w
    /\ stat (fs w1) p = Some (File 438 data)
    /\ (forall q, q <> p -> q <> b -> fs w1 !! q = fs w !! q)
    /\ (backup_done w w1 b data
        \/ exists e, out w1 = out w ++ [MsgBackupFailed e])
    /\ (faults w (SysOpenRead p) = false ->
        faults w (SysOpenWrite b) = false ->
        is_dir (fs w) b = false ->
        utf8_decode data <> None ->
        backup_done w w1 b data).
Proof.
  intros Hp Ht Hs Hc b. rewrite get_config_path_run in Hp.
  injection Hp as Hp.
  destruct (config_path_split (system w) user) as (d & Hd & Ep).
  rewrite Hp in Ep.
  assert (Hne : p <> []) by (rewrite Ep; destruct d; discriminate).
  assert (Hdir : is_dir (fs w) (dirname p) = true).
  { rewrite stat_lookup in Hs by exact Hne. apply Ht in Hs. exact Hs. }
  destruct (create_backup_run p w m data Hne) as (w1 & H1 & H2 & H3 & H4 & H5 & H6);
    [rewrite Ep; apply backup_path_neq|apply backup_path_nonempty|exact Hs|exact Hc|].
  exists w1. split.
  - unfold save_config. rewrite (bind_ok _ _ _ _ _ (get_config_path_run _ _)).
    rewrite Hp.
    rewrite (bind_ok _ _ _ _ _ (makedirs_existing _ _ Ht Hdir)).
    rewrite (bind_ok _ _ _ _ _ (path_exists_run _ _)). rewrite Hs.
    rewrite (bind_ok _ _ _ _ _ H1). reflexivity.
  - do 4 (split; [assumption|]).
    intros F1 F2 F3 F4. apply H6; try assumption.
    intros _. fold b. unfold b. rewrite Ep, backup_path_dirname.
    rewrite Ep, dirname_app in Hdir. exact Hdir.
Qed.

(** The file is absent: the directories are made, then the file. *)
Lemma save_config_absent cfg user w p :
  get_config_path user w = (Ok p, w) ->
  fs_tree (fs w) -> stat (fs w) p = None -> creatable w (dirname p) ->
  faults w (SysOpenWrite p) = false -> wf_config cfg = true ->
  exists w1,
    grows_dirs w w1 (dirname p)
    /\ is_dir (fs w1) (dirname p) = true
    /\ fs w1 !! p = None
    /\ save_config cfg user w
       = (Ok tt,
          set_fs (<[p := File (new_mode 438 w)
                           (document (VDict (dict_update [] (to_dict cfg))))]>
                    (fs w1)) w1).
Proof.
  intros Hp Ht Hs Hc Hf Hcfg. rewrite get_config_path_run in Hp.
  injection Hp as Hp.
  destruct (config_path_split (system w) user) as (d & Hd & Ep).
  rewrite Hp in Ep.
  assert (Hne : p <> []) by (rewrite Ep; destruct d; discriminate).
  destruct (makedirs_total _ _ Ht Hc) as (w1 & Hm).
  pose proof (makedirs_spec _ _ _ _ Hm) as [G D]. specialize (D eq_refl).
  assert (Hs1 : fs w1 !! p = None).
  { destruct G as (_ & _ & F). rewrite stat_lookup in Hs by exact Hne.
    destruct (F p) as [E|(_ & [r Hr] & _)]; [congruence|].
    exfalso. rewrite Ep, dirname_app in Hr.
    apply (f_equal (@length (list N))) in Hr.
    rewrite !length_app in Hr. cbn in Hr. lia. }
  assert (Hw1 : w1 = set_fs (fs w1) w) by apply G.
  exists w1. split; [exact G|]. split; [exact D|]. split; [exact Hs1|].
  unfold save_config. rewrite (bind_ok _ _ _ _ _ (get_config_path_run _ _)).
  rewrite Hp. rewrite (bind_ok _ _ _ _ _ Hm).
  rewrite (bind_ok _ _ _ _ _ (path_exists_run _ _)).
  rewrite (stat_lookup _ _ Hne), Hs1.
  rewrite (bind_ok _ _ _ _ _ (eq_refl : ret tt w1 = (Ok tt, w1))).
  rewrite write_merged_absent; try assumption.
  - rewrite Hw1. reflexivity.
  - rewrite stat_lookup by exact Hne. exact Hs1.
  - rewrite Hw1. exact Hf.
Qed.

(** Whenever [save_config] succeeds, its last step was a successful
    guarded block in a world with the same surroundings. *)
Lemma save_config_ok cfg user w w' :
  save_config cfg user w = (Ok tt, w') ->
  exists w1,
    env_of w1 = env_of w
    /\ write_merged cfg (config_path_of (system w) user) w1 = (Ok tt, w').
Proof.
  unfold save_config. rewrite (bind_ok _ _ _ _ _ (get_config_path_run _ _)).
  set (p := config_path_of (system w) user).
  unfold bind at 1.
  destruct (makedirs (dirname p) w) as [[[]|e] wa] eqn:E1; [|discriminate].
  rewrite (bind_ok _ _ _ _ _ (path_exists_run _ _)).
  unfold bind at 1.
  match goal with
  | |- context [match ?c wa with _ => _ end] =>
      destruct (c wa) as [[[]|e] wb] eqn:E2
  end; [|discriminate].
  intros H. exists wb. split; [|exact H].
  apply keeps_env_makedirs_rev in E1.
  transitivity (env_of wa); [|exact E1].
  destruct (stat (fs wa) p).
  - apply keeps_env_create_backup in E2. exact E2.
  - injection E2 as <-. reflexivity.
Qed.

(** ** [read_existing_config] *)

(** The guarded block only reads. *)
Lemma read_existing_config_raise user w e w' :
  read_existing_config user w = (Raise e, w') ->
  w' = w
  /\ exists cause,
       e = AppError ERR_CONFIG (str "read_config")
             (config_path_of (system w) user) cause.
Proof.
  unfold read_existing_config.
  rewrite (bind_ok _ _ _ _ _ (get_config_path_run _ _)).
  set (p := config_path_of (system w) user).
  unfold try_except.
  match goal with
  | |- context [match ?c w with _ => _ end] =>
      destruct (c w) as [[a|e0] w1] eqn:E
  end; [discriminate|].
  intros [= <- <-]. split; [|eauto].
  unfold path_exists, json_load, read_text, py_get in E.
  unfold bind, get, open_read, ret, raise in E.
  repeat (case_match; unfold bind, ret, raise in *; simplify_eq); reflexivity.
Qed.

Lemma read_existing_config_object user w p m data v members :
  get_config_path user w = (Ok p, w) ->
  stat (fs w) p = Some (File m data) -> faults w (SysOpenRead p) = false ->
  json_load data w = (Ok v, w) -> v = VDict members ->
  read_existing_config user w
  = (Ok (Some (mkStorageConfig
                 (default (VStr []) (dict_get members (str "telemetry.macMachineId")))
                 (default (VStr []) (dict_get members (str "telemetry.machineId")))
                 (default (VStr []) (dict_get members (str "telemetry.devDeviceId")))
                 (default (VStr []) (dict_get members (str "telemetry.sqmId"))))),
     w).
Proof.
  intros Hp Hs Hf Hl ->. unfold read_existing_config.
  rewrite (bind_ok _ _ _ _ _ Hp).
  apply try_except_ok.
  rewrite (bind_ok _ _ _ _ _ (path_exists_run _ _)). rewrite Hs.
  rewrite (bind_ok _ _ _ _ _ (open_read_file _ _ _ _ Hs Hf)).
  rewrite (bind_ok _ _ _ _ _ Hl).
  unfold py_get, bind, ret.
  repeat match goal with
         | |- context [dict_get members ?k] => destruct (dict_get members k)
         end; reflexivity.
Qed.

(** ** A sample machine *)

Lemma fs_tree_check_sound f : fs_tree_check f = true -> fs_tree f.
Proof.
  unfold fs_tree_check. rewrite forallb_forall. intros H q n Hq.
  apply (H (q, n)). apply list_elem_of_In, elem_of_map_to_list, Hq.
Qed.

Lemma prefixes_spec (a d : path) : a `prefix_of` d -> In a (prefixes d).
Proof.
  intros [r ->]. unfold prefixes. apply in_map_iff.
  exists (length a). split.
  - rewrite firstn_app, Nat.sub_diag, firstn_all. cbn. apply app_nil_r.
  - apply in_seq. rewrite length_app. lia.
Qed.

Lemma creatable_check_sound w d : creatable_check w d = true -> creatable w d.
Proof.
  unfold creatable_check. rewrite forallb_forall. intros H a Ha.
  specialize (H a (prefixes_spec _ _ Ha)).
  destruct (is_dir (fs w) a); [left; reflexivity|right].
  cbn [orb] in H. apply andb_prop in H as [H1 H2].
  destruct (stat (fs w) a); [discriminate|].
  split; [reflexivity|]. destruct (faults w (SysMkdir a)); [discriminate|reflexivity].
Qed.

(** ** Reading what is not an object *)

(** C10: when the configuration file exists and its content is valid JSON
    that is not an object (an array, a number, a string, ...),
    [read_existing_config] returns neither a configuration nor [None]: the
    key extraction fails inside the guarded block, so the call raises the
    configuration error of operation [read_config] that carries the path
    and the cause. *)
Theorem read_existing_config_not_object user w p m data t v :
  get_config_path user w = (Ok p, w) ->
  stat (fs w) p = Some (File m data) ->
  faults w (SysOpenRead p) = false ->
  utf8_decode data = Some t ->
  Json.loads (universal_newlines t) = Some v ->
  is_object v = false ->
  read_existing_config user w
  = (Raise (AppError ERR_CONFIG (str "read_config") p AttributeError), w).
Proof.
  intros Hp Hs Hf Hd Hl Hv. unfold read_existing_config.
  rewrite (bind_ok _ _ _ _ _ Hp).
  erewrite try_except_raise; [reflexivity|].
  rewrite (bind_ok _ _ _ _ _ (path_exists_run _ _)). rewrite Hs.
  rewrite (bind_ok _ _ _ _ _ (open_read_file _ _ _ _ Hs Hf)).
  rewrite (bind_ok _ _ _ _ _ (json_load_ok _ _ _ _ Hd Hl)).
  destruct v; try discriminate Hv; reflexivity.
Qed.

Lemma read_existing_config_not_object_array :
  let w := sample_world (alice_disk (bytes_of "[1, 2]")) [] in
  read_existing_config alice w
  = (Raise (AppError ERR_CONFIG (str "read_config") (linux_path alice)
              AttributeError), w).
Proof.
  intros w.
  apply (read_existing_config_not_object alice w (linux_path alice) 420
           (bytes_of "[1, 2]") (str "[1, 2]") (VList [VInt 1; VInt 2])).
  - reflexivity.
  - vm_compute. reflexivity.
  - reflexivity.
  - vm_compute. reflexivity.
  - vm_compute. reflexivity.
  - reflexivity.
Defined.

Lemma run_outcome {A} (m : M A) w r :
  fst (m w) = r -> m w = (r, snd (m w)).
Proof. destruct (m w) as [r0 w']. cbn. intros ->. reflexivity. Qed.

(** ** The first save *)

(** C9: when the configuration file does not exist yet, [save_config]
    creates the missing directories of the parent chain and then the file
    (holding the four identifiers); nothing else on the disk changes, in
    particular no backup file appears, and nothing is printed. *)
Theorem save_config_creates cfg user w p :
  get_config_path user w = (Ok p, w) ->
  fs_tree (fs w) ->
  stat (fs w) p = None ->
  creatable w (dirname p) ->
  faults w (SysOpenWrite p) = false ->
  wf_config cfg = true ->
  exists w',
    save_config cfg user w = (Ok tt, w')
    /\ (forall a, a `prefix_of` dirname p -> is_dir (fs w') a = true)
    /\ stat (fs w') p
       = Some (File (new_mode 438 w)
                    (document (VDict (dict_of_pairs (to_dict cfg)))))
    /\ (forall q, q <> p -> ~ q `prefix_of` dirname p ->
                  fs w' !! q = fs w !! q)
    /\ (forall t, fs w' !! backup_path_of p t = fs w !! backup_path_of p t)
    /\ out w' = out w.
Proof.
  intros Hp Ht Hs Hc Hf Hcfg.
  destruct (save_config_absent cfg user w p Hp Ht Hs Hc Hf Hcfg)
    as (w1 & G & D & Hs1 & Hrun).
  rewrite get_config_path_run in Hp. injection Hp as Hp.
  destruct (config_path_split (system w) user) as (d & Hd & Ep).
  rewrite Hp in Ep.
  assert (Hne : p <> []) by (rewrite Ep; destruct d; discriminate).
  destruct G as (Hw1 & Ht1 & F). specialize (Ht1 Ht).
  assert (Hframe : forall q, q <> p -> ~ q `prefix_of` dirname p ->
                             <[p := File (new_mode 438 w)
                                      (document (VDict (dict_of_pairs (to_dict cfg))))]>
                               (fs w1) !! q = fs w !! q).
  { intros q Hq Hn. rewrite lookup_insert_ne by congruence.
    destruct (F q) as [E|(_ & P & _)]; [exact E|contradiction]. }
  eexists. split; [exact Hrun|]. cbn [fs set_fs out set_out].
  split; [|split; [|split; [|split]]].
  - intros a Ha. apply is_dir_insert_file.
    + rewrite stat_lookup by exact Hne. exact Hs1.
    + apply (fs_tree_ancestors _ _ Ht1 D a Ha).
  - apply stat_insert_eq, Hne.
  - exact Hframe.
  - intros t. apply Hframe.
    + rewrite Ep. apply backup_path_neq.
    + intros [r Hr]. rewrite Ep, dirname_app, backup_path_split in Hr.
      apply (f_equal (@length (list N))) in Hr.
      rewrite !length_app in Hr. cbn in Hr. lia.
  - rewrite Hw1. reflexivity.
Qed.

Lemma save_config_creates_sample :
  exists w',
    save_config sample_config alice fresh_world = (Ok tt, w')
    /\ (forall a, a `prefix_of` dirname (linux_path alice) ->
                  is_dir (fs w') a = true)
    /\ stat (fs w') (linux_path alice)
       = Some (File (new_mode 438 fresh_world)
                    (document (VDict (dict_of_pairs (to_dict sample_config)))))
    /\ (forall q, q <> linux_path alice ->
                  ~ q `prefix_of` dirname (linux_path alice) ->
                  fs w' !! q = fs fresh_world !! q)
    /\ (forall t, fs w' !! backup_path_of (linux_path alice) t
                  = fs fresh_world !! backup_path_of (linux_path alice) t)
    /\ out w' = out fresh_world.
Proof.
  apply (save_config_creates sample_config alice fresh_world
           (linux_path alice)).
  - reflexivity.
  - apply fs_tree_check_sound. vm_compute. reflexivity.
  - vm_compute. reflexivity.
  - apply creatable_check_sound. vm_compute. reflexivity.
  - reflexivity.
  - vm_compute. reflexivity.
Defined.

(** ** Saving over an existing document *)

(** C5: when the configuration file holds a JSON object, [save_config]
    writes a document that reads back as an object in which the four
    telemetry keys hold the new identifiers and every other key of the old
    object holds its old value; the keys of the new object are those of the
    old one and the four telemetry keys. *)
Theorem save_config_merges cfg user w p m data t orig :
  get_config_path user w = (Ok p, w) ->
  fs_tree (fs w) ->
  stat (fs w) p = Some (File m data) ->
  faults w (SysChmod p) = false ->
  faults w (SysOpenRead p) = false ->
  faults w (SysOpenWrite p) = false ->
  utf8_decode data = Some t ->
  Json.loads (universal_newlines t) = Some (VDict orig) ->
  wf_config cfg = true ->
  exists w' new_data,
    save_config cfg user w = (Ok tt, w')
    /\ (f <- open_read p ;; json_load f) w' = (Ok (VDict new_data), w')
    /\ dict_get new_data (str "telemetry.macMachineId")
       = Some (telemetry_mac_machine_id cfg)
    /\ dict_get new_data (str "telemetry.machineId")
       = Some (telemetry_machine_id cfg)
    /\ dict_get new_data (str "telemetry.devDeviceId")
       = Some (telemetry_dev_device_id cfg)
    /\ dict_get new_data (str "telemetry.sqmId") = Some (telemetry_sqm_id cfg)
    /\ (forall k, ~ In k known_keys -> dict_get new_data k = dict_get orig k)
    /\ (forall k, In k (List.map fst new_data)
                  <-> In k (List.map fst orig) \/ In k known_keys).
Proof.
  intros Hp Ht Hs Hc Hr Hw Hd Hl Hcfg.
  destruct (save_config_existing cfg user w p m data Hp Ht Hs Hc)
    as (w1 & Hrun & Henv & Hs1 & _).
  pose proof (env_faults _ _ Henv) as Hfl.
  assert (Hne : p <> []).
  { rewrite get_config_path_run in Hp. injection Hp as <-.
    apply config_path_nonempty. }
  assert (Hwf : wf_value (VDict (dict_update orig (to_dict cfg))) = true).
  { apply merged_wf; [|exact Hcfg].
    apply (loads_wf _ _ (universal_newlines_valid _ (utf8_decode_valid _ _ Hd))
             Hl). }
  eexists. exists (dict_update orig (to_dict cfg)).
  split.
  { rewrite Hrun. apply (write_merged_object cfg p w1 438 data t orig);
      try assumption; rewrite Hfl; assumption. }
  split.
  { erewrite bind_ok; [apply json_load_document, Hwf|].
    eapply open_read_file.
    - cbn [fs set_fs]. apply stat_insert_eq, Hne.
    - cbn [faults set_fs]. rewrite Hfl. exact Hr. }
  destruct (dict_get_update_to_dict orig cfg) as (G1 & G2 & G3 & G4).
  do 4 (split; [assumption|]). split.
  - intros k Hk. apply dict_get_update_other. rewrite to_dict_keys. exact Hk.
  - intros k. rewrite dict_update_keys, to_dict_keys. reflexivity.
Qed.

Lemma save_config_merges_sample :
  exists w' new_data,
    save_config sample_config alice themed_world = (Ok tt, w')
    /\ (f <- open_read (linux_path alice) ;; json_load f) w'
       = (Ok (VDict new_data), w')
    /\ dict_get new_data (str "telemetry.macMachineId")
       = Some (telemetry_mac_machine_id sample_config)
    /\ dict_get new_data (str "telemetry.machineId")
       = Some (telemetry_machine_id sample_config)
    /\ dict_get new_data (str "telemetry.devDeviceId")
       = Some (telemetry_dev_device_id sample_config)
    /\ dict_get new_data (str "telemetry.sqmId")
       = Some (telemetry_sqm_id sample_config)
    /\ (forall k, ~ In k known_keys
                  -> dict_get new_data k = dict_get theme_only k)
    /\ (forall k, In k (List.map fst new_data)
                  <-> In k (List.map fst theme_only) \/ In k known_keys).
Proof.
  apply (save_config_merges sample_config alice themed_world
           (linux_path alice) 420
           (document (VDict theme_only)) (Json.dumps (VDict theme_only))
           theme_only).
  - reflexivity.
  - apply fs_tree_check_sound. vm_compute. reflexivity.
  - vm_compute. reflexivity.
  - reflexivity.
  - reflexivity.
  - reflexivity.
  - vm_compute. reflexivity.
  - vm_compute. reflexivity.
  - vm_compute. reflexivity.
Defined.

(** ** Writing, then reading *)

(** C6: after a successful [save_config] of a configuration,
    [read_existing_config] for the same user returns that configuration:
    the four fields read are the four fields written. *)
Theorem save_then_read cfg user w p w' :
  get_config_path user w = (Ok p, w) ->
  wf_config cfg = true ->
  faults w (SysOpenRead p) = false ->
  save_config cfg user w = (Ok tt, w') ->
  get_config_path user w' = (Ok p, w')
  /\ read_existing_config user w' = (Ok (Some cfg), w').
Proof.
  intros Hp Hcfg Hr Hsave.
  rewrite get_config_path_run in Hp. injection Hp as Hp.
  destruct (save_config_ok _ _ _ _ Hsave) as (w1 & Henv & Hm).
  rewrite Hp in Hm.
  destruct (write_merged_ok _ _ _ _ Hm) as (orig & m & b & Ho & Hb & ->).
  assert (Hwf : wf_value (VDict (dict_update orig (to_dict cfg))) = true)
    by (apply merged_wf; assumption).
  rewrite (dumps_encoded _ Hwf) in Hb. injection Hb as <-.
  assert (Hne : p <> []) by (rewrite <- Hp; apply config_path_nonempty).
  assert (Hp' : get_config_path user
                  (set_fs (<[p := File m (document
                              (VDict (dict_update orig (to_dict cfg))))]>
                            (fs w1)) w1)
                = (Ok p, set_fs (<[p := File m (document
                              (VDict (dict_update orig (to_dict cfg))))]>
                            (fs w1)) w1)).
  { rewrite get_config_path_run. cbn [system set_fs].
    rewrite (env_system _ _ Henv), Hp. reflexivity. }
  split; [exact Hp'|].
  erewrite read_existing_config_object; [| exact Hp' | | | |reflexivity].
  - destruct (dict_get_update_to_dict orig cfg) as (G1 & G2 & G3 & G4).
    rewrite G1, G2, G3, G4. destruct cfg; reflexivity.
  - cbn [fs set_fs]. apply stat_insert_eq, Hne.
  - cbn [faults set_fs]. rewrite (env_faults _ _ Henv). exact Hr.
  - apply json_load_document, Hwf.
Qed.

Lemma save_then_read_sample :
  get_config_path alice saved_world = (Ok (linux_path alice), saved_world)
  /\ read_existing_config alice saved_world
     = (Ok (Some sample_config), saved_world).
Proof.
  apply (save_then_read sample_config alice themed_world
           (linux_path alice) saved_world).
  - reflexivity.
  - vm_compute. reflexivity.
  - reflexivity.
  - unfold saved_world. apply (run_outcome (save_config sample_config alice) themed_world (Ok tt)).
    vm_compute. reflexivity.
Defined.

(** ** The load of step 3 *)

(** C2, as the claim states it, fails: with a configuration file that does
    not parse, and with one that cannot be opened, [save_config] does not
    go on with an empty object; it raises the configuration error of
    operation [save_config] and the file keeps its content. *)
Lemma save_config_unreadable_raises :
  (fst (save_config sample_config alice broken_world)
   = Raise (AppError ERR_CONFIG (str "save_config") (linux_path alice)
              JSONDecodeError)
   /\ file_data (fs (snd (save_config sample_config alice broken_world)))
        (linux_path alice) = Some (bytes_of "{"))
  /\ (fst (save_config sample_config alice locked_world)
      = Raise (AppError ERR_CONFIG (str "save_config") (linux_path alice)
                 (OSError EACCES (SysOpenRead (linux_path alice))))
      /\ file_data (fs (snd (save_config sample_config alice locked_world)))
           (linux_path alice) = Some (bytes_of "{}")).
Proof. split; split; vm_compute; reflexivity. Qed.

(** C2 (amended): step 3 of [save_config] starts from the empty object
    only when the file is absent, and the save then succeeds with a
    document of the four identifiers; when the file exists and cannot be
    opened, is not UTF-8, is not JSON, or holds no object, [save_config]
    raises the configuration error of operation [save_config] with that
    cause, after the backup block and without rewriting the file. *)
Theorem save_config_load_strict cfg user w p :
  get_config_path user w = (Ok p, w) ->
  fs_tree (fs w) ->
  (stat (fs w) p = None -> creatable w (dirname p) ->
   faults w (SysOpenWrite p) = false -> wf_config cfg = true ->
   exists w',
     save_config cfg user w = (Ok tt, w')
     /\ file_data (fs w') p
        = Some (document (VDict (dict_update [] (to_dict cfg)))))
  /\ (forall m data e,
        stat (fs w) p = Some (File m data) ->
        faults w (SysChmod p) = false ->
        load_failure w p data = Some e ->
        exists w',
          save_config cfg user w
          = (Raise (AppError ERR_CONFIG (str "save_config") p e), w')
          /\ file_data (fs w') p = Some data).
Proof.
  intros Hp Ht. split.
  - intros Hs Hc Hf Hcfg.
    destruct (save_config_absent cfg user w p Hp Ht Hs Hc Hf Hcfg)
      as (w1 & _ & _ & _ & Hrun).
    eexists. split; [exact Hrun|]. cbn [fs set_fs].
    apply file_data_insert.
    rewrite get_config_path_run in Hp. injection Hp as <-.
    apply config_path_nonempty.
  - intros m data e Hs Hc Hl.
    destruct (save_config_existing cfg user w p m data Hp Ht Hs Hc)
      as (w1 & Hrun & Henv & Hs1 & _).
    exists w1. split.
    + rewrite Hrun. apply (write_merged_failure cfg p w1 438 data e Hs1).
      unfold load_failure in *. rewrite (env_faults _ _ Henv). exact Hl.
    + unfold file_data. rewrite Hs1. reflexivity.
Qed.

Lemma save_config_load_strict_broken :
  exists w',
    save_config sample_config alice broken_world
    = (Raise (AppError ERR_CONFIG (str "save_config") (linux_path alice)
                JSONDecodeError), w')
    /\ file_data (fs w') (linux_path alice) = Some (bytes_of "{").
Proof.
  refine (proj2 (save_config_load_strict sample_config alice broken_world
                   (linux_path alice) _ _)
            420 (bytes_of "{") JSONDecodeError _ _ _).
  - reflexivity.
  - apply fs_tree_check_sound. vm_compute. reflexivity.
  - vm_compute. reflexivity.
  - reflexivity.
  - vm_compute. reflexivity.
Defined.

(** ** The backup *)

(** C4, as the claim states it, fails: the backup of a document whose line
    ends in CR LF is reported as created and is not a copy of its bytes. *)
Lemma save_config_backup_not_verbatim :
  fst (save_config sample_config alice crlf_world) = Ok tt
  /\ out (snd (save_config sample_config alice crlf_world))
     = [MsgBackupCreated (backup_path_of (linux_path alice) 1700000000)]
  /\ file_data (fs crlf_world) (linux_path alice)
     = Some (bytes_of "{}" ++ [x0d; x0a])
  /\ file_data (fs (snd (save_config sample_config alice crlf_world)))
       (backup_path_of (linux_path alice) 1700000000)
     = Some (bytes_of "{}" ++ [x0a])
  /\ file_data (fs (snd (save_config sample_config alice crlf_world)))
       (backup_path_of (linux_path alice) 1700000000)
     <> file_data (fs crlf_world) (linux_path alice).
Proof.
  split_and!; try (vm_compute; reflexivity).
  vm_compute. discriminate.
Qed.

(** C4 (amended): when the configuration file exists (and its mode can be
    set), [save_config] relaxes its mode and runs the backup block, which
    touches no path but [<path>.<seconds>.bak] and always hands over to the
    merge-and-write step.  A backup that is reported holds the text of the
    file, decoded as UTF-8 and with every CR LF or CR read as LF, encoded
    again: the very bytes of the file when its text has no carriage return.
    A backup that fails is only logged.  The backup is made whenever the
    file can be opened, is UTF-8, and the backup path can be opened for
    writing and is no directory. *)
Theorem save_config_backup cfg user w p m data :
  get_config_path user w = (Ok p, w) ->
  fs_tree (fs w) ->
  stat (fs w) p = Some (File m data) ->
  faults w (SysChmod p) = false ->
  exists w1,
    save_config cfg user w = write_merged cfg p w1
    /\ stat (fs w1) p = Some (File 438 data)
    /\ (forall q, q <> p -> q <> backup_path_of p (now w) ->
                  fs w1 !! q = fs w !! q)
    /\ ((exists t bs,
           utf8_decode data = Some t
           /\ utf8_encode (universal_newlines t) = Some bs
           /\ file_data (fs w1) (backup_path_of p (now w)) = Some bs
           /\ (~ In 13 t -> bs = data)
           /\ out w1 = out w ++ [MsgBackupCreated (backup_path_of p (now w))])
        \/ exists e, out w1 = out w ++ [MsgBackupFailed e])
    /\ (faults w (SysOpenRead p) = false ->
        faults w (SysOpenWrite (backup_path_of p (now w))) = false ->
        is_dir (fs w) (backup_path_of p (now w)) = false ->
        utf8_decode data <> None ->
        out w1 = out w ++ [MsgBackupCreated (backup_path_of p (now w))]).
Proof.
  intros Hp Ht Hs Hc.
  destruct (save_config_existing cfg user w p m data Hp Ht Hs Hc)
    as (w1 & Hrun & _ & Hs1 & Hframe & Hcase & Hdone).
  assert (Hshape : backup_done w w1 (backup_path_of p (now w)) data ->
    exists t bs,
      utf8_decode data = Some t
      /\ utf8_encode (universal_newlines t) = Some bs
      /\ file_data (fs w1) (backup_path_of p (now w)) = Some bs
      /\ (~ In 13 t -> bs = data)
      /\ out w1 = out w ++ [MsgBackupCreated (backup_path_of p (now w))]).
  { intros (t & bs & Hd & Hbs & Hfile & Hout).
    exists t, bs. do 3 (split; [assumption|]). split; [|exact Hout].
    intros Hcr. rewrite (universal_newlines_id _ Hcr) in Hbs.
    rewrite (utf8_encode_decode _ _ Hd) in Hbs. congruence. }
  exists w1. do 3 (split; [assumption|]). split.
  - destruct Hcase as [Hb|He]; [left; apply Hshape, Hb|right; exact He].
  - intros F1 F2 F3 F4.
    destruct (Hdone F1 F2 F3 F4) as (_ & _ & _ & _ & _ & Hout). exact Hout.
Qed.

Lemma save_config_backup_themed :
  exists w1,
    save_config sample_config alice themed_world
    = write_merged sample_config (linux_path alice) w1
    /\ stat (fs w1) (linux_path alice)
       = Some (File 438 (document (VDict theme_only)))
    /\ (forall q, q <> linux_path alice ->
                  q <> backup_path_of (linux_path alice) (now themed_world) ->
                  fs w1 !! q = fs themed_world !! q)
    /\ ((exists t bs,
           utf8_decode (document (VDict theme_only)) = Some t
           /\ utf8_encode (universal_newlines t) = Some bs
           /\ file_data (fs w1)
                (backup_path_of (linux_path alice) (now themed_world))
              = Some bs
           /\ (~ In 13 t -> bs = document (VDict theme_only))
           /\ out w1
              = out themed_world
                ++ [MsgBackupCreated
                      (backup_path_of (linux_path alice) (now themed_world))])
        \/ exists e, out w1 = out themed_world ++ [MsgBackupFailed e])
    /\ (faults themed_world (SysOpenRead (linux_path alice)) = false ->
        faults themed_world
          (SysOpenWrite (backup_path_of (linux_path alice) (now themed_world)))
        = false ->
        is_dir (fs themed_world)
          (backup_path_of (linux_path alice) (now themed_world)) = false ->
        utf8_decode (document (VDict theme_only)) <> None ->
        out w1
        = out themed_world
          ++ [MsgBackupCreated
                (backup_path_of (linux_path alice) (now themed_world))]).
Proof.
  apply (save_config_backup sample_config alice themed_world
           (linux_path alice) 420 (document (VDict theme_only))).
  - reflexivity.
  - apply fs_tree_check_sound. vm_compute. reflexivity.
  - vm_compute. reflexivity.
  - reflexivity.
Defined.

(** ** A failed read in [main] *)

Lemma confirm_action_yes q w line rest :
  stdin w = line :: rest -> said_yes (strip (lower line)) = true ->
  confirm_action q w
  = (Ok true, set_stdin rest (set_out (out w ++ [MsgPrompt q]) w)).
Proof.
  intros Hin Hyes. unfold confirm_action. rewrite Hin.
  cbn [confirm_loop].
  rewrite (bind_ok _ _ _ _ _ (eq_refl : emit (MsgPrompt q) w = (Ok tt, _))).
  unfold bind, input. cbn [stdin set_out]. rewrite Hin, Hyes. reflexivity.
Qed.

(** C3 (what the code does): when [read_existing_config] fails and the
    user answers yes to the question whether to go on, [main] reaches the
    generation step with its variable [current_config] never assigned:
    reading it raises [UnboundLocalError], which the outer handler prints
    as an error.  No identifier is generated, [save_config] is not called,
    and the disk is as before; only the console and the consumed answer
    differ. *)
Theorem main_body_read_failure user w e w1 line rest :
  read_existing_config user (set_out (out w ++ [MsgReadingConfig]) w)
  = (Raise e, w1) ->
  stdin w = line :: rest ->
  said_yes (strip (lower line)) = true ->
  main_body user w
  = (Ok (Next tt),
     set_out (out w ++ [MsgReadingConfig; MsgReadFailed e;
                        MsgPrompt AskContinue; MsgGenerating;
                        MsgError (UnboundLocalError "current_config")])
       (set_stdin rest w)).
Proof.
  intros Hread Hin Hyes.
  destruct (read_existing_config_raise _ _ _ _ Hread) as (-> & cause & He).
  set (w0 := set_out (out w ++ [MsgReadingConfig]) w) in *.
  set (w2 := set_out (out w0 ++ [MsgReadFailed e]) w0).
  assert (Hhandler :
    try_except_AppError
      (current_config <- read_existing_config user ;;
       _ <- match current_config with
            | Some c => show_config c CurrentConfig
            | None => emit MsgNoConfig
            end ;;
       ret (Next (Some current_config)))
      (fun e =>
         _ <- emit (MsgReadFailed e) ;;
         go <- confirm_action AskContinue ;;
         if go then ret (Next None) else ret Return) w0
    = (Ok (Next None),
       set_stdin rest (set_out (out w2 ++ [MsgPrompt AskContinue]) w2))).
  { unfold try_except_AppError.
    rewrite (bind_raise _ _ _ _ _ Hread). rewrite He at 1. rewrite <- He.
    rewrite (bind_ok _ _ _ _ _
               (eq_refl : emit (MsgReadFailed e) w0 = (Ok tt, w2))).
    rewrite (bind_ok _ _ _ _ _
               (confirm_action_yes AskContinue w2 line rest Hin Hyes)).
    reflexivity. }
  unfold main_body.
  erewrite try_except_raise; cycle 1.
  { rewrite (bind_ok _ _ _ _ _
               (eq_refl : emit MsgReadingConfig w = (Ok tt, w0))).
    rewrite (bind_ok _ _ _ _ _ Hhandler).
    rewrite (bind_ok _ _ _ _ _ (eq_refl : emit MsgGenerating _ = (Ok tt, _))).
    reflexivity. }
  unfold bind, emit, modify, ret. subst w2 w0.
  unfold set_out, set_stdin. cbn. rewrite <- !app_assoc. reflexivity.
Qed.

Lemma main_body_read_failure_broken :
  main_body alice broken_world
  = (Ok (Next tt),
     set_out [MsgReadingConfig;
              MsgReadFailed
                (AppError ERR_CONFIG (str "read_config") (linux_path alice)
                   JSONDecodeError);
              MsgPrompt AskContinue; MsgGenerating;
              MsgError (UnboundLocalError "current_config")]
       (set_stdin [] broken_world)).
Proof.
  apply (main_body_read_failure alice broken_world
           (AppError ERR_CONFIG (str "read_config") (linux_path alice)
              JSONDecodeError)
           (snd (read_existing_config alice
                   (set_out (out broken_world ++ [MsgReadingConfig])
                      broken_world)))
           (str "y") []).
  - apply (run_outcome (read_existing_config alice)).
    vm_compute. reflexivity.
  - reflexivity.
  - vm_compute. reflexivity.
Defined.

(** ** Device identifiers *)

Lemma hex_byte_shape b :
  exists c d, hex_byte b = [c; d]
              /\ is_lower_hex c = true /\ is_lower_hex d = true.
Proof.
  pose proof (hex_byte_lower b) as H. unfold hex_byte in *.
  cbn [forallb] in H. apply andb_prop in H as [H1 H2].
  apply andb_prop in H2 as [H2 _]. eauto.
Qed.

Lemma version_byte_shape x :
  exists d, hex_byte (byte_of_N (N.lor (N.land (Byte.to_N x) 15) 64)) = [52; d]
            /\ is_lower_hex d = true.
Proof. destruct x; eexists; (split; [reflexivity|reflexivity]). Qed.

Lemma variant_byte_shape x :
  exists c d, hex_byte (byte_of_N (N.lor (N.land (Byte.to_N x) 63) 128)) = [c; d]
              /\ List.existsb (N.eqb c) (str "89ab") = true
              /\ is_lower_hex c = true /\ is_lower_hex d = true.
Proof. destruct x; do 2 eexists; (split; [reflexivity|split_and!; reflexivity]). Qed.

Lemma uuid_str_uuid4 b :
  length b = 16%nat -> matches_uuid4 (uuid_str (uuid4_bytes b)) = true.
Proof.
  intros H.
  destruct b as [|x0 [|x1 [|x2 [|x3 [|x4 [|x5 [|x6 [|x7 [|x8 [|x9 [|x10 [|x11 [|x12 [|x13 [|x14 [|x15 [|? ?]]]]]]]]]]]]]]]]];
    try discriminate H. clear H.
  unfold uuid4_bytes. cbn [alter list_alter].
  unfold uuid_str. cbn [firstn skipn]. unfold hex. cbn [List.map List.concat].
  destruct (version_byte_shape x6) as (v & -> & Hv).
  destruct (variant_byte_shape x8) as (c & d & -> & Hc & Hc' & Hd).
  repeat match goal with
         | |- context [hex_byte ?x] =>
             let c := fresh "c" in let d := fresh "d" in
             let H1 := fresh in let H2 := fresh in
             destruct (hex_byte_shape x) as (c & d & -> & H1 & H2)
         end.
  cbn [app]. unfold matches_uuid4.
  cbn [length Nat.eqb firstn skipn nth forallb andb].
  repeat match goal with H : is_lower_hex _ = true |- _ => rewrite H; clear H end.
  rewrite Hc. reflexivity.
Qed.

Example matches_uuid4_accepts :
  matches_uuid4 (str "eddccbba-a998-4776-a554-43322110ffee") = true.
Proof. reflexivity. Qed.

Example matches_uuid4_rejects :
  matches_uuid4 (str "eddccbba-a998-1776-a554-43322110ffee") = false
  /\ matches_uuid4 (str "eddccbba-a998-4776-c554-43322110ffee") = false
  /\ matches_uuid4 (str "EDDCCBBA-A998-4776-A554-43322110FFEE") = false
  /\ matches_uuid4 (str "eddccbbaa9984776a55443322110ffee") = false.
Proof. split_and!; reflexivity. Qed.

(** X1: [generate_dev_device_id] never fails, and every value it returns
    is the canonical text of a version-4 UUID: 36 characters, lowercase hex
    digits in groups of 8, 4, 4, 4 and 12 separated by hyphens, with the
    version digit [4] and a variant digit among [8], [9], [a] and [b]. *)
Theorem generate_dev_device_id_uuid4 (w : world) :
  exists s w',
    generate_dev_device_id w = (Ok s, w') /\ matches_uuid4 s = true.
Proof.
  destruct (generate_dev_device_id_run w) as (b & Hb & Hrun).
  eexists. eexists. split; [exact Hrun|]. apply uuid_str_uuid4, Hb.
Qed.

(** ** Generation touches nothing but the random sources *)

Lemma keeps_outside_ret {A} (a : A) : keeps_outside (ret a).
Proof. intros w. reflexivity. Qed.

Lemma keeps_outside_raise {A} e : keeps_outside (@raise A e).
Proof. intros w. reflexivity. Qed.

Lemma keeps_outside_bind {A B} (m : M A) (k : A -> M B) :
  keeps_outside m -> (forall a, keeps_outside (k a)) ->
  keeps_outside (bind m k).
Proof.
  intros Hm Hk w. unfold bind. specialize (Hm w).
  destruct (m w) as [[a|e] w1]; cbn [snd] in *.
  - rewrite Hk. exact Hm.
  - exact Hm.
Qed.

Lemma keeps_outside_urandom n : keeps_outside (urandom n).
Proof.
  intros w. unfold urandom. destruct (draw_many n (os_random w)). reflexivity.
Qed.

Lemma keeps_outside_randint a b : keeps_outside (randint a b).
Proof. intros w. reflexivity. Qed.

Lemma keeps_outside_choices population k : keeps_outside (choices population k).
Proof.
  intros w. unfold choices. destruct population; [reflexivity|].
  destruct (draw_many k (py_random w)). reflexivity.
Qed.

Lemma keeps_outside_encode_utf8 s : keeps_outside (encode_utf8 s).
Proof. intros w. unfold encode_utf8. destruct (utf8_encode s); reflexivity. Qed.

Lemma keeps_outside_generate_mac_machine_id :
  keeps_outside generate_mac_machine_id.
Proof.
  apply keeps_outside_bind; [apply keeps_outside_urandom|].
  intros data. apply keeps_outside_ret.
Qed.

Lemma keeps_outside_generate_machine_id : keeps_outside generate_machine_id.
Proof.
  unfold generate_machine_id.
  apply keeps_outside_bind; [apply keeps_outside_randint|intros n].
  apply keeps_outside_bind; [apply keeps_outside_choices|intros u].
  apply keeps_outside_bind; [apply keeps_outside_encode_utf8|intros b].
  apply keeps_outside_ret.
Qed.

Lemma keeps_outside_generate_dev_device_id :
  keeps_outside generate_dev_device_id.
Proof.
  apply keeps_outside_bind; [apply keeps_outside_urandom|].
  intros data. apply keeps_outside_ret.
Qed.

Lemma keeps_outside_new_storage_config old_config :
  keeps_outside (new_storage_config old_config).
Proof.
  unfold new_storage_config.
  apply keeps_outside_bind; [apply keeps_outside_generate_mac_machine_id|].
  intros mac.
  apply keeps_outside_bind; [apply keeps_outside_generate_machine_id|].
  intros mid.
  apply keeps_outside_bind; [apply keeps_outside_generate_dev_device_id|].
  intros dev. lazy zeta.
  destruct old_config as [old|].
  - destruct (truthy (telemetry_sqm_id old)); [apply keeps_outside_ret|].
    apply keeps_outside_bind; [apply keeps_outside_generate_mac_machine_id|].
    intros sqm. apply keeps_outside_ret.
  - apply keeps_outside_bind; [apply keeps_outside_generate_mac_machine_id|].
    intros sqm. apply keeps_outside_ret.
Qed.

(** X2: [new_storage_config] never fails, and it changes nothing but the
    state of the two random sources: the disk, the environment, the
    pending input, the process table and the console are as before. *)
Theorem new_storage_config_only_random
  (old_config : option StorageConfig) (w : world) :
  (exists c, fst (new_storage_config old_config w) = Ok c)
  /\ outside_random (snd (new_storage_config old_config w))
     = outside_random w.
Proof.
  split; [|apply keeps_outside_new_storage_config].
  destruct (new_storage_config_run old_config w)
    as (d1 & mid & b & d4 & w1 & w2 & H).
  lazy zeta in H.
  destruct H as (_ & _ & _ & _ & _ & _ & _ & _ & _ & Hrun).
  rewrite Hrun. eexists. reflexivity.
Qed.

(** ** Generated configurations can be stored *)

Lemma run_ok_inv {A} (m : M A) w a a' w1 w1' :
  m w = (Ok a, w1) -> m w = (Ok a', w1') -> a = a' /\ w1 = w1'.
Proof. intros H1 H2. rewrite H1 in H2. split; congruence. Qed.

Lemma wf_str_hexdigest data : wf_str (Sha256.hexdigest data) = true.
Proof.
  apply wf_str_ascii. pose proof (hexdigest_hex64 data) as H.
  unfold matches_hex64 in H. apply andb_prop in H as [_ H].
  eapply forallb_impl; [apply lower_hex_is_ascii|exact H].
Qed.

Lemma new_storage_config_wf old_config w c w' :
  (forall old, old_config = Some old ->
               wf_value (telemetry_sqm_id old) = true) ->
  new_storage_config old_config w = (Ok c, w') -> wf_config c = true.
Proof.
  intros Hold Hnew.
  destruct (new_storage_config_run old_config w)
    as (d1 & mid & b & d4 & w1 & w2 & H).
  lazy zeta in H.
  destruct H as (_ & _ & _ & _ & Hmid & _ & _ & _ & _ & Hrun).
  destruct (run_ok_inv _ _ _ _ _ _ Hrun Hnew) as [<- _]. clear Hrun Hnew.
  unfold wf_config.
  cbn [telemetry_mac_machine_id telemetry_machine_id telemetry_dev_device_id
       telemetry_sqm_id wf_value].
  rewrite wf_str_hexdigest, wf_str_uuid.
  rewrite (wf_str_ascii mid)
    by (eapply forallb_impl; [apply lower_hex_is_ascii|exact Hmid]).
  cbn [andb].
  destruct old_config as [old|]; cbn [inherits_sqm].
  - destruct (truthy (telemetry_sqm_id old)).
    + apply (Hold old eq_refl).
    + apply wf_str_hexdigest.
  - apply wf_str_hexdigest.
Qed.

(** The [sqmId] of a generated configuration is never empty. *)
Lemma new_storage_config_sqm_truthy old_config w c w' :
  new_storage_config old_config w = (Ok c, w') ->
  truthy (telemetry_sqm_id c) = true.
Proof.
  intros Hnew.
  destruct (new_storage_config_run old_config w)
    as (d1 & mid & b & d4 & w1 & w2 & H).
  lazy zeta in H.
  destruct H as (_ & _ & _ & _ & _ & _ & _ & _ & _ & Hrun).
  destruct (run_ok_inv _ _ _ _ _ _ Hrun Hnew) as [<- _]. clear Hrun Hnew.
  cbn [telemetry_sqm_id].
  destruct old_config as [old|]; cbn [inherits_sqm].
  - destruct (truthy (telemetry_sqm_id old)) eqn:Ht; [exact Ht|].
    apply hex64_nonempty, hexdigest_hex64.
  - apply hex64_nonempty, hexdigest_hex64.
Qed.

(** X3: the [sqmId] that [new_storage_config] once produced is kept by
    every later generation that starts from its result, whatever the random
    sources give: only the other three identifiers are drawn again. *)
Theorem new_storage_config_keeps_sqm_id old_config w c1 w1 wx :
  new_storage_config old_config w = (Ok c1, w1) ->
  exists c2 wy,
    new_storage_config (Some c1) wx = (Ok c2, wy)
    /\ telemetry_sqm_id c2 = telemetry_sqm_id c1.
Proof.
  intros H1. apply new_storage_config_sqm_truthy in H1.
  destruct (new_storage_config_run (Some c1) wx)
    as (d1 & mid & b & d4 & wa & wb & H).
  lazy zeta in H.
  destruct H as (_ & _ & _ & _ & _ & _ & _ & _ & _ & Hrun).
  cbn [inherits_sqm] in Hrun. rewrite H1 in Hrun.
  eexists. eexists. split; [exact Hrun|reflexivity].
Qed.

Lemma new_storage_config_keeps_sqm_id_sample :
  exists c2 wy,
    new_storage_config (Some generated_config) themed_world = (Ok c2, wy)
    /\ telemetry_sqm_id c2 = telemetry_sqm_id generated_config.
Proof.
  apply (new_storage_config_keeps_sqm_id None fresh_world generated_config
           (snd (new_storage_config None fresh_world)) themed_world).
  apply (run_outcome (new_storage_config None)). vm_compute. reflexivity.
Defined.

(** ** More on [read_existing_config] *)

Lemma read_existing_config_readonly user w r w' :
  read_existing_config user w = (r, w') -> w' = w.
Proof.
  unfold read_existing_config.
  rewrite (bind_ok _ _ _ _ _ (get_config_path_run _ _)).
  set (p := config_path_of (system w) user).
  unfold try_except.
  match goal with
  | |- context [match ?c w with _ => _ end] =>
      destruct (c w) as [[a|e0] w1] eqn:E
  end; intros [= <- <-];
  unfold path_exists, json_load, read_text, py_get in E;
  unfold bind, get, open_read, ret, raise in E;
  repeat (case_match; unfold bind, ret, raise in *; simplify_eq); reflexivity.
Qed.

(** X4: [read_existing_config] only reads: whatever it returns, the world
    is as before; and every exception it raises is the configuration error
    of operation [read_config] that carries the path of the file. *)
Theorem read_existing_config_outcome (user : pystr) (w : world) :
  snd (read_existing_config user w) = w
  /\ forall e,
       fst (read_existing_config user w) = Raise e ->
       exists cause,
         e = AppError ERR_CONFIG (str "read_config")
               (config_path_of (system w) user) cause.
Proof.
  destruct (read_existing_config user w) as [r w'] eqn:E. cbn [fst snd].
  split.
  - apply (read_existing_config_readonly _ _ _ _ E).
  - intros e ->. apply (read_existing_config_raise _ _ _ _ E).
Qed.

(** X5: when the configuration file is absent, [read_existing_config]
    returns [None]; when it holds a JSON object, each of the four fields is
    the value stored under its key, whatever its type, or the empty string
    when the key is missing, and the other keys are ignored. *)
Theorem read_existing_config_fields user w p :
  get_config_path user w = (Ok p, w) ->
  (stat (fs w) p = None -> read_existing_config user w = (Ok None, w))
  /\ (forall m data t members,
        stat (fs w) p = Some (File m data) ->
        faults w (SysOpenRead p) = false ->
        utf8_decode data = Some t ->
        Json.loads (universal_newlines t) = Some (VDict members) ->
        read_existing_config user w
        = (Ok (Some (mkStorageConfig
             (default (VStr []) (dict_get members (str "telemetry.macMachineId")))
             (default (VStr []) (dict_get members (str "telemetry.machineId")))
             (default (VStr []) (dict_get members (str "telemetry.devDeviceId")))
             (default (VStr []) (dict_get members (str "telemetry.sqmId"))))),
           w)).
Proof.
  intros Hp. split.
  - intros Hs. unfold read_existing_config.
    rewrite (bind_ok _ _ _ _ _ Hp). apply try_except_ok.
    rewrite (bind_ok _ _ _ _ _ (path_exists_run _ _)). rewrite Hs.
    reflexivity.
  - intros m data t members Hs Hf Hd Hl.
    apply (read_existing_config_object user w p m data (VDict members) members
             Hp Hs Hf (json_load_ok _ _ _ _ Hd Hl) eq_refl).
Qed.

Lemma read_existing_config_fields_themed :
  read_existing_config alice themed_world = (Ok (Some empty_config), themed_world).
Proof.
  refine (proj2 (read_existing_config_fields alice themed_world
                   (linux_path alice) _)
            420 (document (VDict theme_only)) (Json.dumps (VDict theme_only))
            theme_only _ _ _ _).
  - reflexivity.
  - vm_compute. reflexivity.
  - reflexivity.
  - vm_compute. reflexivity.
  - vm_compute. reflexivity.
Defined.

Lemma dict_get_wf d k v :
  List.forallb wf_member d = true -> dict_get d k = Some v ->
  wf_value v = true.
Proof.
  induction d as [|[k0 v0] d IH]; [discriminate|].
  cbn [forallb wf_member dict_get]. intros H.
  apply andb_prop in H as [H0 Hd]. apply andb_prop in H0 as [_ Hv].
  destruct (pystr_eqb k0 k); [intros [= <-]; exact Hv|apply IH, Hd].
Qed.

Lemma default_wf d k :
  List.forallb wf_member d = true ->
  wf_value (default (VStr []) (dict_get d k)) = true.
Proof.
  intros H. destruct (dict_get d k) as [v|] eqn:E; [|reflexivity].
  apply (dict_get_wf _ _ _ H E).
Qed.

(** What [read_existing_config] returns can be stored again. *)
Lemma read_existing_config_wf user w c w' :
  read_existing_config user w = (Ok (Some c), w') -> wf_config c = true.
Proof.
  unfold read_existing_config.
  rewrite (bind_ok _ _ _ _ _ (get_config_path_run _ _)).
  set (p := config_path_of (system w) user).
  unfold try_except.
  match goal with
  | |- context [match ?m w with _ => _ end] =>
      destruct (m w) as [[a|e0] w1] eqn:E
  end; [|discriminate].
  intros [= -> <-].
  rewrite (bind_ok _ _ _ _ _ (path_exists_run _ _)) in E.
  destruct (stat (fs w) p) as [n|]; [|discriminate].
  unfold bind at 1 in E.
  destruct (open_read p w) as [[data|e] w2] eqn:Eo; [|discriminate].
  unfold bind at 1 in E.
  destruct (json_load data w2) as [[v|e] w3] eqn:El; [|discriminate].
  apply json_load_wf in El as [Hv ->].
  destruct v as [| | | | | |d]; try discriminate E.
  apply wf_value_dict_inv in Hv as [_ Hm].
  unfold py_get, bind, ret in E.
  repeat match type of E with
         | context [dict_get d ?k] =>
             let H := fresh "G" in
             pose proof (default_wf d k Hm) as H;
             destruct (dict_get d k); cbn [default from_option id] in H
         end;
    injection E as <-; unfold wf_config;
    cbn [telemetry_mac_machine_id telemetry_machine_id
         telemetry_dev_device_id telemetry_sqm_id];
    rewrite ?G, ?G0, ?G1, ?G2; reflexivity.
Qed.

(** ** Generating, saving and reading in turn *)

Lemma read_after_save cfg user w w' :
  wf_config cfg = true ->
  faults w (SysOpenRead (config_path_of (system w) user)) = false ->
  save_config cfg user w = (Ok tt, w') ->
  read_existing_config user w' = (Ok (Some cfg), w').
Proof.
  intros Hcfg Hr Hsave. set (p := config_path_of (system w) user) in *.
  destruct (save_config_ok _ _ _ _ Hsave) as (w1 & Henv & Hm).
  fold p in Hm.
  destruct (write_merged_ok _ _ _ _ Hm) as (orig & m & b & Ho & Hb & ->).
  assert (Hwf : wf_value (VDict (dict_update orig (to_dict cfg))) = true)
    by (apply merged_wf; assumption).
  rewrite (dumps_encoded _ Hwf) in Hb. injection Hb as <-.
  assert (Hne : p <> []) by apply config_path_nonempty.
  erewrite read_existing_config_object; [| | | | |reflexivity].
  - destruct (dict_get_update_to_dict orig cfg) as (G1 & G2 & G3 & G4).
    rewrite G1, G2, G3, G4. destruct cfg; reflexivity.
  - rewrite get_config_path_run. cbn [system set_fs].
    rewrite (env_system _ _ Henv). reflexivity.
  - cbn [fs set_fs]. apply stat_insert_eq, Hne.
  - cbn [faults set_fs]. rewrite (env_faults _ _ Henv). exact Hr.
  - apply json_load_document, Hwf.
Qed.

Lemma outside_random_env w w' :
  outside_random w' = outside_random w -> env_of w' = env_of w.
Proof. unfold outside_random. congruence. Qed.

(** X6: one pass of the program's pipeline closes: when the current
    configuration was read (or found absent), a new one generated from it
    and saved, reading again returns exactly the configuration that was
    generated. *)
Theorem read_generate_save_read user w p old w0 c w1 w2 :
  get_config_path user w = (Ok p, w) ->
  faults w (SysOpenRead p) = false ->
  read_existing_config user w = (Ok old, w0) ->
  new_storage_config old w0 = (Ok c, w1) ->
  save_config c user w1 = (Ok tt, w2) ->
  read_existing_config user w2 = (Ok (Some c), w2).
Proof.
  intros Hp Hf Hread Hnew Hsave.
  rewrite get_config_path_run in Hp. injection Hp as Hp.
  pose proof (read_existing_config_readonly _ _ _ _ Hread) as ->.
  pose proof (keeps_outside_new_storage_config old w) as Hout.
  rewrite Hnew in Hout. cbn [snd] in Hout.
  apply outside_random_env in Hout.
  apply (read_after_save c user w1 w2).
  - apply (new_storage_config_wf old w c w1); [|exact Hnew].
    intros o ->. apply read_existing_config_wf in Hread.
    unfold wf_config in Hread. apply andb_prop in Hread as [_ H]. exact H.
  - rewrite (env_system _ _ Hout), (env_faults _ _ Hout), Hp. exact Hf.
  - exact Hsave.
Qed.

Lemma read_generate_save_read_themed :
  read_existing_config alice resaved_world
  = (Ok (Some regenerated_config), resaved_world).
Proof.
  apply (read_generate_save_read alice themed_world (linux_path alice)
           (Some empty_config) reread_world regenerated_config
           regenerated_world resaved_world).
  - reflexivity.
  - reflexivity.
  - apply (run_outcome (read_existing_config alice)). vm_compute. reflexivity.
  - apply (run_outcome (new_storage_config (Some empty_config))).
    vm_compute. reflexivity.
  - apply (run_outcome (save_config regenerated_config alice)).
    vm_compute. reflexivity.
Defined.

(** ** How [save_config] fails *)

Lemma makedirs_rev_raise rp :
  forall w e w', makedirs_rev rp w = (Raise e, w') ->
                 exists c q, e = OSError c (SysMkdir q).
Proof.
  induction rp as [|tail rhead IH]; intros w e w' H; [discriminate|].
  cbn [makedirs_rev] in H.
  rewrite (bind_ok _ _ _ _ _ (path_exists_run _ _)) in H.
  unfold bind at 1 in H.
  match type of H with
  | context [match ?c w with _ => _ end] =>
      destruct (c w) as [[[]|e1] w1] eqn:E1
  end.
  - unfold try_except in H.
    destruct (mkdir (List.rev (tail :: rhead)) w1) as [[[]|e2] w2] eqn:E2;
      [discriminate|].
    apply mkdir_raise in E2 as (-> & c & ->).
    unfold bind, path_isdir, get in H.
    destruct (is_dir (fs w1) (List.rev (tail :: rhead))); [discriminate|].
    injection H as He _. subst e. eauto.
  - injection H as He _. subst e1.
    destruct (negb _); [|discriminate].
    unfold try_except in E1.
    destruct (makedirs_rev rhead w) as [[[]|e0] w0] eqn:E0; [discriminate|].
    destruct (IH _ _ _ E0) as (c & q & ->).
    destruct c; try discriminate E1; injection E1 as He _; subst e; eauto.
Qed.

Lemma create_backup_raise p w e w' :
  create_backup p w = (Raise e, w') ->
  w' = w /\ exists c, e = OSError c (SysChmod p).
Proof.
  unfold create_backup, bind at 1.
  destruct (chmod p 438 w) as [[[]|e0] w0] eqn:Ec.
  - rewrite (bind_ok _ _ _ _ _ (eq_refl : get now w0 = (Ok (now w0), w0))).
    unfold try_except.
    match goal with
    | |- context [match ?c w0 with _ => _ end] =>
        destruct (c w0) as [[[]|e1] w1]
    end; discriminate.
  - intros [= <- <-]. unfold chmod in Ec.
    destruct (faults w (SysChmod p)); [injection Ec as <- <-; eauto|].
    destruct (stat (fs w) p) as [[|]|]; try discriminate.
    injection Ec as <- <-. eauto.
Qed.

Lemma write_merged_raise cfg p w e w' :
  write_merged cfg p w = (Raise e, w') ->
  exists cause, e = AppError ERR_CONFIG (str "save_config") p cause.
Proof.
  unfold write_merged, try_except.
  match goal with
  | |- context [match ?c w with _ => _ end] =>
      destruct (c w) as [[[]|e1] w1]
  end; [discriminate|].
  intros [= <- _]. eauto.
Qed.

Lemma grows_dirs_file_data w w' d :
  grows_dirs w w' d ->
  forall q, file_data (fs w') q = file_data (fs w) q.
Proof.
  intros (_ & _ & F) q. unfold file_data.
  destruct q as [|x q]; [reflexivity|]. cbn [stat].
  destruct (F (x :: q)) as [->|(-> & _ & m & ->)]; reflexivity.
Qed.

(** X7: [save_config] fails in three ways only.  What goes wrong inside
    its guarded block comes out as the configuration error of operation
    [save_config] with the path; a directory that cannot be made and a mode
    that cannot be set are outside that block, come out as the bare
    [OSError], and then no regular file has changed. *)
Theorem save_config_raises cfg user w e w' :
  save_config cfg user w = (Raise e, w') ->
  (exists cause,
     e = AppError ERR_CONFIG (str "save_config")
           (config_path_of (system w) user) cause)
  \/ ((exists c call,
         e = OSError c call
         /\ ((exists q, call = SysMkdir q)
             \/ call = SysChmod (config_path_of (system w) user)))
      /\ forall q, file_data (fs w') q = file_data (fs w) q).
Proof.
  unfold save_config.
  rewrite (bind_ok _ _ _ _ _ (get_config_path_run _ _)).
  set (p := config_path_of (system w) user).
  unfold bind at 1.
  destruct (makedirs (dirname p) w) as [[[]|e1] w1] eqn:E1.
  - pose proof (makedirs_spec _ _ _ _ E1) as [G _].
    rewrite (bind_ok _ _ _ _ _ (path_exists_run _ _)).
    unfold bind at 1.
    match goal with
    | |- context [match ?c w1 with _ => _ end] =>
        destruct (c w1) as [[[]|e2] w2] eqn:E2
    end.
    + intros H. left. apply (write_merged_raise _ _ _ _ _ H).
    + intros [= <- <-]. right.
      destruct (stat (fs w1) p); [|discriminate].
      apply create_backup_raise in E2 as (-> & c & ->).
      split; [eauto 6|]. apply (grows_dirs_file_data _ _ _ G).
  - intros [= <- <-]. right.
    pose proof (makedirs_spec _ _ _ _ E1) as [G _].
    apply makedirs_rev_raise in E1 as (c & q & ->).
    split; [eauto 8|]. apply (grows_dirs_file_data _ _ _ G).
Qed.

Lemma save_config_raises_foreign :
  (exists cause,
     OSError EACCES (SysChmod (linux_path alice))
     = AppError ERR_CONFIG (str "save_config")
         (config_path_of (system foreign_world) alice) cause)
  \/ ((exists c call,
         OSError EACCES (SysChmod (linux_path alice)) = OSError c call
         /\ ((exists q, call = SysMkdir q)
             \/ call = SysChmod (config_path_of (system foreign_world) alice)))
      /\ forall q,
           file_data (fs (snd (save_config sample_config alice foreign_world))) q
           = file_data (fs foreign_world) q).
Proof.
  apply (save_config_raises sample_config alice foreign_world
           (OSError EACCES (SysChmod (linux_path alice)))
           (snd (save_config sample_config alice foreign_world))).
  apply (run_outcome (save_config sample_config alice)).
  vm_compute. reflexivity.
Defined.

(** ** The shape of the merged object *)

Lemma dict_get_none d k : dict_get d k = None <-> ~ In k (List.map fst d).
Proof.
  induction d as [|[k0 v0] d IH]; cbn [dict_get List.map fst In]; [tauto|].
  destruct (pystr_eqb k0 k) eqn:E.
  - apply pystr_eqb_eq in E. split; [discriminate|tauto].
  - assert (k0 <> k) by (intros ->; rewrite pystr_eqb_refl in E; discriminate).
    rewrite IH. tauto.
Qed.

Lemma pystr_eqb_sym a b : pystr_eqb a b = pystr_eqb b a.
Proof. unfold pystr_eqb. apply bool_decide_ext. split; congruence. Qed.

Lemma dict_get_some_in d k v :
  dict_get d k = Some v -> In k (List.map fst d).
Proof.
  induction d as [|[k0 v0] d IH]; [discriminate|].
  cbn [dict_get List.map fst In].
  destruct (pystr_eqb k0 k) eqn:E; [|auto].
  apply pystr_eqb_eq in E. auto.
Qed.

Lemma dict_set_present d k v :
  NoDup (List.map fst d) -> In k (List.map fst d) ->
  dict_set d k v
  = List.map (fun kv => if pystr_eqb (fst kv) k then (fst kv, v) else kv) d.
Proof.
  induction d as [|[k0 v0] d IH]; [intros _ []|].
  cbn [List.map fst dict_set]. intros Hn Hin.
  apply NoDup_cons in Hn as [Hk0 Hn].
  destruct (pystr_eqb k0 k) eqn:E.
  - apply pystr_eqb_eq in E. subst k0. f_equal.
    clear IH Hin. induction d as [|[k1 v1] d IHd]; [reflexivity|].
    cbn [List.map fst] in *.
    rewrite pystr_eqb_neq.
    + f_equal. apply IHd.
      * intros H. apply Hk0. right. exact H.
      * apply NoDup_cons in Hn as [_ Hn]. exact Hn.
    + intros ->. apply Hk0. left.
  - f_equal. apply IH; [exact Hn|].
    destruct Hin as [->|Hin]; [|exact Hin].
    rewrite pystr_eqb_refl in E. discriminate.
Qed.

Lemma map_overridden_ext pairs pairs' (d : dict) :
  (forall k, In k (List.map fst d) -> dict_get pairs k = dict_get pairs' k) ->
  List.map (overridden pairs) d = List.map (overridden pairs') d.
Proof.
  intros H. apply map_ext_in. intros [k v] Hin. unfold overridden. cbn [fst snd].
  rewrite H; [reflexivity|]. apply in_map_iff. exists (k, v). auto.
Qed.

Lemma filter_is_new_key_ext d d' (pairs : dict) :
  (forall k, In k (List.map fst pairs) -> dict_get d k = None <-> dict_get d' k = None) ->
  List.filter (is_new_key d) pairs = List.filter (is_new_key d') pairs.
Proof.
  intros H. induction pairs as [|[k v] pairs IH]; [reflexivity|].
  cbn [List.filter]. rewrite IH by (intros k0 Hk0; apply H; right; exact Hk0).
  assert (E : is_new_key d (k, v) = is_new_key d' (k, v)).
  { unfold is_new_key. cbn [fst].
    specialize (H k (or_introl eq_refl)).
    destruct (dict_get d k), (dict_get d' k); try reflexivity.
    - destruct H as [_ H]. specialize (H eq_refl). discriminate.
    - destruct H as [H _]. specialize (H eq_refl). discriminate. }
  rewrite E. reflexivity.
Qed.

(** [{**d, **pairs}]: the members of [d] in their order, each with its
    value or the one [pairs] gives to its key, then the members of [pairs]
    whose keys are new, in their order. *)
Lemma dict_update_shape pairs :
  NoDup (List.map fst pairs) ->
  forall d, NoDup (List.map fst d) ->
            dict_update d pairs
            = List.map (overridden pairs) d ++ List.filter (is_new_key d) pairs.
Proof.
  unfold dict_update.
  induction pairs as [|[k v] pairs IH]; intros Hp d Hd.
  - cbn. rewrite app_nil_r. symmetry. etransitivity; [|apply map_id].
    apply map_ext. intros [k v]. reflexivity.
  - cbn [List.map fst] in Hp. apply NoDup_cons in Hp as [Hk Hp].
    rewrite list_elem_of_In in Hk.
    cbn [fold_left fst snd].
    rewrite (IH Hp) by (apply dict_set_nodup, Hd).
    cbn [List.filter]. unfold is_new_key at 2. cbn [fst].
    destruct (dict_get d k) as [v0|] eqn:Eg.
    + assert (Hin : In k (List.map fst d)).
      { apply (dict_get_some_in _ _ _ Eg). }
      assert (Hf : List.filter (is_new_key (dict_set d k v)) pairs
                   = List.filter (is_new_key d) pairs).
      { apply filter_is_new_key_ext. intros k1 _.
        rewrite !dict_get_none, dict_set_keys_in. split; [tauto|].
        intros H [->|H']; tauto. }
      rewrite Hf, (dict_set_present _ _ _ Hd Hin). f_equal.
      rewrite List.map_map. apply map_ext. intros [k1 v1].
      unfold overridden. cbn [fst snd dict_get].
      rewrite (pystr_eqb_sym k k1).
      destruct (pystr_eqb k1 k) eqn:E; cbn [fst snd]; [|reflexivity].
      apply pystr_eqb_eq in E. subst k1.
      apply dict_get_none in Hk. rewrite Hk. reflexivity.
    + apply dict_get_none in Eg.
      rewrite (dict_set_fresh _ _ _ Eg), List.map_app, <- app_assoc.
      f_equal.
      * apply map_ext_in. intros [k1 v1] Hin. unfold overridden.
        cbn [fst snd dict_get].
        rewrite pystr_eqb_neq; [reflexivity|].
        intros ->. apply Eg. apply in_map_iff. exists (k1, v1). auto.
      * cbn [List.map app]. unfold overridden at 1. cbn [fst snd].
        apply dict_get_none in Hk. rewrite Hk. cbn [default from_option].
        f_equal. apply filter_is_new_key_ext. intros k1 Hk1.
        rewrite !dict_get_none, List.map_app, in_app_iff. cbn [List.map fst In].
        split; [tauto|]. intros H [H'|[->|[]]]; [tauto|].
        apply dict_get_none in Hk. tauto.
Qed.

Lemma known_keys_nodup : NoDup known_keys.
Proof.
  unfold known_keys.
  repeat (apply NoDup_cons_2; [rewrite list_elem_of_In; cbn [In];
                               intros H; repeat destruct H as [H|H];
                               try (vm_compute in H; discriminate H);
                               exact H|]).
  apply NoDup_nil_2.
Qed.

Lemma dict_set_same d k v : dict_get d k = Some v -> dict_set d k v = d.
Proof.
  induction d as [|[k0 v0] d IH]; [discriminate|].
  cbn [dict_get dict_set]. destruct (pystr_eqb k0 k).
  - intros [= ->]. reflexivity.
  - intros H. rewrite (IH H). reflexivity.
Qed.

(** Merging the same identifiers again changes nothing. *)
Lemma dict_update_to_dict_again d cfg :
  dict_update (dict_update d (to_dict cfg)) (to_dict cfg)
  = dict_update d (to_dict cfg).
Proof.
  destruct (dict_get_update_to_dict d cfg) as (G1 & G2 & G3 & G4).
  lazy zeta in G1, G2, G3, G4.
  set (nd := dict_update d (to_dict cfg)) in *.
  unfold dict_update, to_dict. cbn [fold_left fst snd].
  rewrite (dict_set_same _ _ _ G1), (dict_set_same _ _ _ G2),
    (dict_set_same _ _ _ G3), (dict_set_same _ _ _ G4).
  reflexivity.
Qed.

Lemma document_decodes v :
  wf_value v = true ->
  utf8_decode (document v) = Some (Json.dumps v)
  /\ Json.loads (universal_newlines (Json.dumps v)) = Some v.
Proof.
  intros H. split.
  - apply utf8_decode_ascii, dumps_ascii, H.
  - pose proof (universal_newlines_text _ (encode_text v H 0%nat)) as Hn.
    fold (Json.dumps v) in Hn. rewrite Hn. apply loads_dumps, H.
Qed.

(** A save over a document that holds an object, step by step. *)
Lemma save_config_object_run cfg user w p m data t orig :
  get_config_path user w = (Ok p, w) ->
  fs_tree (fs w) ->
  stat (fs w) p = Some (File m data) ->
  faults w (SysChmod p) = false ->
  faults w (SysOpenRead p) = false ->
  faults w (SysOpenWrite p) = false ->
  utf8_decode data = Some t ->
  Json.loads (universal_newlines t) = Some (VDict orig) ->
  wf_config cfg = true ->
  exists w1,
    env_of w1 = env_of w
    /\ wf_value (VDict orig) = true
    /\ wf_value (VDict (dict_update orig (to_dict cfg))) = true
    /\ save_config cfg user w
       = (Ok tt,
          set_fs (<[p := File 438
                          (document (VDict (dict_update orig (to_dict cfg))))]>
                    (fs w1)) w1).
Proof.
  intros Hp Ht Hs Hc Hr Hw Hd Hl Hcfg.
  destruct (save_config_existing cfg user w p m data Hp Ht Hs Hc)
    as (w1 & Hrun & Henv & Hs1 & _).
  pose proof (env_faults _ _ Henv) as Hfl.
  assert (Ho : wf_value (VDict orig) = true).
  { apply (loads_wf _ _ (universal_newlines_valid _ (utf8_decode_valid _ _ Hd))
             Hl). }
  exists w1. split; [exact Henv|]. split; [exact Ho|].
  split; [apply merged_wf; assumption|].
  rewrite Hrun. apply (write_merged_object cfg p w1 438 data t orig);
    try assumption; rewrite Hfl; assumption.
Qed.

(** X8: a save over a document that holds an object keeps the members of
    the object in their order, each with its old value or, under a
    telemetry key, the new identifier; the telemetry keys the object lacked
    follow, in the order [macMachineId], [machineId], [devDeviceId],
    [sqmId].  The file is left with mode [0o666]. *)
Theorem save_config_keeps_order cfg user w p m data t orig :
  get_config_path user w = (Ok p, w) ->
  fs_tree (fs w) ->
  stat (fs w) p = Some (File m data) ->
  faults w (SysChmod p) = false ->
  faults w (SysOpenRead p) = false ->
  faults w (SysOpenWrite p) = false ->
  utf8_decode data = Some t ->
  Json.loads (universal_newlines t) = Some (VDict orig) ->
  wf_config cfg = true ->
  exists w' data',
    save_config cfg user w = (Ok tt, w')
    /\ stat (fs w') p = Some (File 438 data')
    /\ json_load data' w'
       = (Ok (VDict (List.map (overridden (to_dict cfg)) orig
                     ++ List.filter (is_new_key orig) (to_dict cfg))), w').
Proof.
  intros Hp Ht Hs Hc Hr Hw Hd Hl Hcfg.
  destruct (save_config_object_run cfg user w p m data t orig
              Hp Ht Hs Hc Hr Hw Hd Hl Hcfg) as (w1 & _ & Ho & Hwf & Hrun).
  eexists. eexists. split; [exact Hrun|]. split.
  - cbn [fs set_fs]. apply stat_insert_eq.
    rewrite get_config_path_run in Hp. injection Hp as <-.
    apply config_path_nonempty.
  - rewrite (json_load_document _ _ Hwf). repeat f_equal.
    apply dict_update_shape.
    + rewrite to_dict_keys. apply known_keys_nodup.
    + apply wf_value_dict_inv in Ho as [Hn _]. exact Hn.
Qed.

Lemma save_config_keeps_order_themed :
  exists w' data',
    save_config sample_config alice themed_world = (Ok tt, w')
    /\ stat (fs w') (linux_path alice) = Some (File 438 data')
    /\ json_load data' w'
       = (Ok (VDict (List.map (overridden (to_dict sample_config)) theme_only
                     ++ List.filter (is_new_key theme_only)
                          (to_dict sample_config))), w').
Proof.
  apply (save_config_keeps_order sample_config alice themed_world
           (linux_path alice) 420
           (document (VDict theme_only)) (Json.dumps (VDict theme_only))
           theme_only).
  - reflexivity.
  - apply fs_tree_check_sound. vm_compute. reflexivity.
  - vm_compute. reflexivity.
  - reflexivity.
  - reflexivity.
  - reflexivity.
  - vm_compute. reflexivity.
  - vm_compute. reflexivity.
  - vm_compute. reflexivity.
Defined.

(** X9: saving the same configuration a second time leaves the document
    as the first save wrote it. *)
Theorem save_config_twice cfg user w p w1 :
  get_config_path user w = (Ok p, w) ->
  wf_config cfg = true ->
  save_config cfg user w = (Ok tt, w1) ->
  fs_tree (fs w1) ->
  faults w (SysChmod p) = false ->
  faults w (SysOpenRead p) = false ->
  faults w (SysOpenWrite p) = false ->
  exists w2 data,
    save_config cfg user w1 = (Ok tt, w2)
    /\ file_data (fs w1) p = Some data
    /\ file_data (fs w2) p = Some data.
Proof.
  intros Hp Hcfg Hsave Ht Hc Hr Hw.
  rewrite get_config_path_run in Hp. injection Hp as Hp.
  destruct (save_config_ok _ _ _ _ Hsave) as (w0 & Henv & Hm).
  rewrite Hp in Hm.
  destruct (write_merged_ok _ _ _ _ Hm) as (orig & m & b & Ho & Hb & ->).
  assert (Hwf : wf_value (VDict (dict_update orig (to_dict cfg))) = true)
    by (apply merged_wf; assumption).
  rewrite (dumps_encoded _ Hwf) in Hb.
  assert (Eb : b = document (VDict (dict_update orig (to_dict cfg))))
    by congruence.
  subst b. clear Hb.
  assert (Hne : p <> []) by (rewrite <- Hp; apply config_path_nonempty).
  set (doc := document (VDict (dict_update orig (to_dict cfg)))) in *.
  set (w1 := set_fs (<[p := File m doc]> (fs w0)) w0) in *.
  assert (Hs1 : stat (fs w1) p = Some (File m doc))
    by (apply stat_insert_eq, Hne).
  assert (Hf1 : faults w1 = faults w) by (apply (env_faults _ _ Henv)).
  assert (Hp1 : get_config_path user w1 = (Ok p, w1)).
  { rewrite get_config_path_run. cbn [system set_fs w1].
    rewrite (env_system _ _ Henv), Hp. reflexivity. }
  destruct (document_decodes _ Hwf) as [Hdec Hload].
  rewrite <- Hf1 in Hc, Hr, Hw.
  destruct (save_config_object_run cfg user w1 p m doc _ _
              Hp1 Ht Hs1 Hc Hr Hw Hdec Hload Hcfg)
    as (w2 & _ & _ & _ & Hrun).
  rewrite dict_update_to_dict_again in Hrun. fold doc in Hrun.
  eexists. exists doc. split; [exact Hrun|]. split.
  - unfold file_data. rewrite Hs1. reflexivity.
  - cbn [fs set_fs]. apply file_data_insert, Hne.
Qed.

Lemma save_config_twice_themed :
  exists w2 data,
    save_config sample_config alice saved_world = (Ok tt, w2)
    /\ file_data (fs saved_world) (linux_path alice) = Some data
    /\ file_data (fs w2) (linux_path alice) = Some data.
Proof.
  apply (save_config_twice sample_config alice themed_world
           (linux_path alice) saved_world).
  - reflexivity.
  - vm_compute. reflexivity.
  - apply (run_outcome (save_config sample_config alice)).
    vm_compute. reflexivity.
  - apply fs_tree_check_sound. vm_compute. reflexivity.
  - reflexivity.
  - reflexivity.
  - reflexivity.
Defined.

(** ** Backup paths *)

Lemma dec_of_N_inj a b : dec_of_N a = dec_of_N b -> a = b.
Proof.
  intros H. apply (f_equal Json.nat_of_digits) in H.
  rewrite !nat_of_digits_dec_of_N in H. exact H.
Qed.

(** X10: the backup path is a sibling of the configuration file, differs
    from it, and backups made at different seconds have different paths,
    so that only a backup of the same second can be overwritten. *)
Theorem backup_path_of_distinct (p : path) (t1 t2 : Z) :
  (0 < length p)%nat -> (0 <= t1)%Z -> (0 <= t2)%Z ->
  dirname (backup_path_of p t1) = dirname p
  /\ backup_path_of p t1 <> p
  /\ (backup_path_of p t1 = backup_path_of p t2 -> t1 = t2).
Proof.
  intros Hp H1 H2.
  assert (Hne : p <> []) by (destruct p; [cbn in Hp; lia|discriminate]).
  destruct (exists_last Hne) as (d & x & ->).
  split; [|split].
  - rewrite backup_path_dirname, dirname_app. reflexivity.
  - apply backup_path_neq.
  - rewrite !backup_path_split. intros E.
    apply app_inv_head in E. injection E as E.
    apply app_inv_head in E. cbn [app] in E. injection E as E.
    apply app_inv_tail in E.
    destruct t1 as [|a|a], t2 as [|b|b]; try lia; cbn [dec_of_Z] in E;
      apply dec_of_N_inj in E; lia.
Qed.

Lemma backup_path_of_distinct_sample :
  dirname (backup_path_of (linux_path alice) 1700000000)
  = dirname (linux_path alice)
  /\ backup_path_of (linux_path alice) 1700000000 <> linux_path alice
  /\ (backup_path_of (linux_path alice) 1700000000
      = backup_path_of (linux_path alice) 1700000001
      -> 1700000000%Z = 1700000001%Z).
Proof.
  apply (backup_path_of_distinct (linux_path alice) 1700000000 1700000001).
  - vm_compute. lia.
  - lia.
  - lia.
Defined.

(** ** Asking for confirmation *)

Lemma confirm_loop_answer q bad :
  forall w good rest,
    stdin w = bad ++ good :: rest ->
    List.forallb (fun l => negb (valid_answer l)) bad = true ->
    valid_answer good = true ->
    confirm_loop q (bad ++ good :: rest) w
    = (Ok (said_yes (strip (lower good))),
       set_stdin rest
         (set_out (out w ++ reprompts q bad ++ [MsgPrompt q]) w)).
Proof.
  induction bad as [|b bad IH]; intros w good rest Hin Hbad Hgood.
  - cbn [app] in *. cbn [confirm_loop].
    rewrite (bind_ok _ _ _ _ _ (eq_refl : emit (MsgPrompt q) w = (Ok tt, _))).
    unfold bind, input. cbn [stdin set_out]. rewrite Hin.
    unfold valid_answer in Hgood.
    destruct (said_yes (strip (lower good))); [reflexivity|].
    cbn [orb] in Hgood. rewrite Hgood. reflexivity.
  - cbn [app forallb] in *. apply andb_prop in Hbad as [Hb Hbad].
    cbn [confirm_loop].
    rewrite (bind_ok _ _ _ _ _ (eq_refl : emit (MsgPrompt q) w = (Ok tt, _))).
    unfold bind at 1, input. cbn [stdin set_out]. rewrite Hin.
    unfold valid_answer in Hb. apply negb_true_iff, orb_false_iff in Hb as [Hy Hn].
    rewrite Hy, Hn.
    rewrite (bind_ok _ _ _ _ _ (eq_refl : emit MsgInvalidAnswer _ = (Ok tt, _))).
    rewrite (IH _ good rest); [|reflexivity|exact Hbad|exact Hgood].
    unfold set_stdin, set_out, reprompts. cbn.
    rewrite <- !app_assoc. reflexivity.
Qed.

Lemma confirm_loop_eof q bad :
  forall w,
    stdin w = bad ->
    List.forallb (fun l => negb (valid_answer l)) bad = true ->
    confirm_loop q bad w
    = (Raise EOFError,
       set_stdin [] (set_out (out w ++ reprompts q bad ++ [MsgPrompt q]) w)).
Proof.
  induction bad as [|b bad IH]; intros w Hin Hbad.
  - cbn [confirm_loop].
    rewrite (bind_ok _ _ _ _ _ (eq_refl : emit (MsgPrompt q) w = (Ok tt, _))).
    unfold bind, input. cbn [stdin set_out]. rewrite Hin.
    unfold set_stdin, set_out. cbn. rewrite Hin. reflexivity.
  - cbn [forallb] in *. apply andb_prop in Hbad as [Hb Hbad].
    cbn [confirm_loop].
    rewrite (bind_ok _ _ _ _ _ (eq_refl : emit (MsgPrompt q) w = (Ok tt, _))).
    unfold bind at 1, input. cbn [stdin set_out]. rewrite Hin.
    unfold valid_answer in Hb. apply negb_true_iff, orb_false_iff in Hb as [Hy Hn].
    rewrite Hy, Hn.
    rewrite (bind_ok _ _ _ _ _ (eq_refl : emit MsgInvalidAnswer _ = (Ok tt, _))).
    rewrite IH; [|reflexivity|exact Hbad].
    unfold set_stdin, set_out, reprompts. cbn.
    rewrite <- !app_assoc. reflexivity.
Qed.

(** X11: [confirm_action] asks again after every answer that is neither
    a yes ([y], [yes], [是]) nor a no ([n], [no], [否]) once put in lower
    case and stripped, and returns at the first that is: [True] for a yes,
    [False] for a no.  It reads exactly the answers up to that one and
    prints the question before each and a hint after each unusable one. *)
Theorem confirm_action_answer q w bad good rest :
  stdin w = bad ++ good :: rest ->
  List.forallb (fun l => negb (valid_answer l)) bad = true ->
  valid_answer good = true ->
  confirm_action q w
  = (Ok (said_yes (strip (lower good))),
     set_stdin rest (set_out (out w ++ reprompts q bad ++ [MsgPrompt q]) w)).
Proof.
  intros Hin Hbad Hgood. unfold confirm_action. rewrite Hin.
  apply confirm_loop_answer; assumption.
Qed.

Lemma confirm_action_answer_sample :
  confirm_action AskOverwrite
    (sample_world alice_home [str "maybe"; []; str "  YeS "; str "n"])
  = (Ok (said_yes (strip (lower (str "  YeS ")))),
     set_stdin [str "n"]
       (set_out (out (sample_world alice_home
                        [str "maybe"; []; str "  YeS "; str "n"])
                 ++ reprompts AskOverwrite [str "maybe"; []]
                 ++ [MsgPrompt AskOverwrite])
          (sample_world alice_home [str "maybe"; []; str "  YeS "; str "n"]))).
Proof.
  apply (confirm_action_answer AskOverwrite
           (sample_world alice_home [str "maybe"; []; str "  YeS "; str "n"])
           [str "maybe"; []] (str "  YeS ") [str "n"]).
  - reflexivity.
  - vm_compute. reflexivity.
  - vm_compute. reflexivity.
Defined.

(** X12: when the input ends before a usable answer, [confirm_action]
    raises [EOFError], after it has printed the question once more. *)
Theorem confirm_action_eof q w :
  List.forallb (fun l => negb (valid_answer l)) (stdin w) = true ->
  confirm_action q w
  = (Raise EOFError,
     set_stdin []
       (set_out (out w ++ reprompts q (stdin w) ++ [MsgPrompt q]) w)).
Proof.
  intros Hbad. unfold confirm_action. apply confirm_loop_eof; [reflexivity|exact Hbad].
Qed.

Lemma confirm_action_eof_sample :
  confirm_action AskContinue (sample_world alice_home [str "ja"])
  = (Raise EOFError,
     set_stdin []
       (set_out (out (sample_world alice_home [str "ja"])
                 ++ reprompts AskContinue
                      (stdin (sample_world alice_home [str "ja"]))
                 ++ [MsgPrompt AskContinue])
          (sample_world alice_home [str "ja"]))).
Proof.
  apply (confirm_action_eof AskContinue (sample_world alice_home [str "ja"])).
  vm_compute. reflexivity.
Defined.

(** ** Running processes *)

Lemma insert_sorted_in x l z :
  In z (insert_sorted x l) <-> z = x \/ In z l.
Proof.
  induction l as [|y l IH]; cbn [insert_sorted In]; [intuition|].
  destruct (x <? y)%Z eqn:E1; [cbn [In]; intuition|].
  destruct (x =? y)%Z eqn:E2.
  - apply Z.eqb_eq in E2. subst y. cbn [In]. intuition.
  - cbn [In]. rewrite IH. intuition.
Qed.

Lemma ascending_cons x l :
  ascending (x :: l) = true
  <-> (forall y, List.head l = Some y -> (x < y)%Z) /\ ascending l = true.
Proof.
  cbn [ascending]. rewrite andb_true_iff. destruct l as [|y l]; cbn [List.head].
  - intuition discriminate.
  - rewrite Z.ltb_lt. split; intros [H1 H2]; (split; [|exact H2]).
    + intros z [= <-]. exact H1.
    + apply H1. reflexivity.
Qed.

Lemma insert_sorted_head x l y :
  List.head (insert_sorted x l) = Some y ->
  y = x \/ List.head l = Some y.
Proof.
  destruct l as [|z l]; cbn [insert_sorted List.head]; [intros [= <-]; auto|].
  destruct (x <? z)%Z; [intros [= <-]; auto|].
  destruct (x =? z)%Z; cbn [List.head]; auto.
Qed.

Lemma insert_sorted_ascending x l :
  ascending l = true -> ascending (insert_sorted x l) = true.
Proof.
  induction l as [|y l IH]; [reflexivity|].
  intros H. pose proof H as H0. apply ascending_cons in H as [Hh Hl].
  cbn [insert_sorted].
  destruct (x <? y)%Z eqn:E1.
  - apply ascending_cons. split; [|exact H0].
    intros z [= <-]. apply Z.ltb_lt, E1.
  - destruct (x =? y)%Z eqn:E2; [exact H0|].
    apply ascending_cons. split; [|apply IH, Hl].
    intros z Hz. apply insert_sorted_head in Hz as [->|Hz]; [|apply Hh, Hz].
    apply Z.ltb_ge in E1. apply Z.eqb_neq in E2. lia.
Qed.

Lemma sorted_set_members pids pid :
  In pid pids -> In pid (sorted_set pids).
Proof.
  unfold sorted_set. induction pids as [|x l IH]; [tauto|].
  cbn [fold_right In]. rewrite insert_sorted_in. intuition.
Qed.

(** X13: the list of pids that [check_cursor_running] shows and kills,
    [sorted(set(pids))], is strictly ascending, so that no pid is there
    twice, and holds exactly the pids that were found. *)
Theorem sorted_set_ascending (pids : list Z) :
  ascending (sorted_set pids) = true
  /\ forall pid, In pid (sorted_set pids) <-> In pid pids.
Proof.
  unfold sorted_set. induction pids as [|x l [IH1 IH2]]; [split; [reflexivity|tauto]|].
  cbn [fold_right]. split.
  - apply insert_sorted_ascending, IH1.
  - intros pid. rewrite insert_sorted_in, IH2. cbn [In]. intuition.
Qed.

Lemma filter_all {A} (f : A -> bool) l :
  (forall x, f x = true) -> List.filter f l = l.
Proof.
  intros H. induction l as [|x l IH]; [reflexivity|].
  cbn [List.filter]. rewrite H, IH. reflexivity.
Qed.

Lemma filter_twice {A} (f g : A -> bool) l :
  List.filter f (List.filter g l) = List.filter (fun x => g x && f x) l.
Proof.
  induction l as [|x l IH]; [reflexivity|].
  cbn [List.filter]. destruct (g x); cbn [andb List.filter]; rewrite IH;
    reflexivity.
Qed.

Lemma kill_all_run l :
  forall w, exists w',
    kill_all l w = (Ok tt, w')
    /\ procs w' = List.filter (fun q => negb (killed_by w l q)) (procs w)
    /\ out w' = out w ++ List.map MsgKilled l
    /\ fs w' = fs w /\ stdin w' = stdin w /\ faults w' = faults w.
Proof.
  induction l as [|pid l IH]; intros w.
  - exists w. split; [reflexivity|]. cbn [List.map killed_by existsb negb].
    rewrite app_nil_r. split_and!; try reflexivity.
    symmetry. apply filter_all. reflexivity.
  - cbn [kill_all]. unfold bind at 1, kill, modify.
    set (w1 := if faults w (SysKill pid) then w
               else set_procs (List.filter (fun q => negb (q =? pid)%Z) (procs w)) w).
    rewrite (bind_ok _ _ _ _ _ (eq_refl : emit (MsgKilled pid) w1 = (Ok tt, _))).
    destruct (IH (set_out (out w1 ++ [MsgKilled pid]) w1))
      as (w' & Hrun & Hp & Ho & Hf & Hs & Hfl).
    assert (E1 : faults w1 = faults w /\ out w1 = out w /\ fs w1 = fs w
                 /\ stdin w1 = stdin w
                 /\ procs w1 = List.filter
                                 (fun q => negb ((q =? pid)%Z
                                                 && negb (faults w (SysKill pid))))
                                 (procs w)).
    { subst w1. destruct (faults w (SysKill pid)); split_and!; try reflexivity.
      - symmetry. apply filter_all. intros q. rewrite andb_false_r. reflexivity.
      - cbn [procs set_procs]. apply filter_ext. intros q.
        rewrite andb_true_r. reflexivity. }
    destruct E1 as (F1 & O1 & S1 & I1 & P1).
    exists w'. split; [exact Hrun|].
    cbn [procs fs stdin faults out set_out] in Hp, Ho, Hf, Hs, Hfl.
    split_and!.
    + rewrite Hp, P1. rewrite filter_twice. apply filter_ext. intros q.
      unfold killed_by. cbn [existsb]. cbn [faults set_out]. rewrite F1.
      rewrite negb_orb. reflexivity.
    + rewrite Ho, O1, <- app_assoc. reflexivity.
    + congruence.
    + congruence.
    + congruence.
Qed.

Lemma killed_by_listed w l q :
  In q l -> killed_by w l q = negb (faults w (SysKill q)).
Proof.
  intros Hin. unfold killed_by.
  destruct (faults w (SysKill q)) eqn:Hf; cbn [negb].
  - destruct (existsb _ l) eqn:E; [|reflexivity].
    apply existsb_exists in E as (pid & _ & Hc).
    apply andb_prop in Hc as [Hq Hn]. apply Z.eqb_eq in Hq. subst pid.
    rewrite Hf in Hn. discriminate.
  - apply existsb_exists. exists q. split; [exact Hin|].
    rewrite Z.eqb_refl, Hf. reflexivity.
Qed.

(** X14: when Cursor processes are found and the answer to the question
    is [y] (in either case, nothing else), [check_cursor_running] kills
    every pid once, in ascending order, reports each as terminated whether
    or not the kill took effect, and returns [False] without looking
    again: the processes that could not be killed are still running. *)
Theorem check_cursor_running_kills w line rest :
  (0 < length (procs w))%nat ->
  stdin w = line :: rest ->
  pystr_eqb (lower line) (str "y") = true ->
  exists w',
    check_cursor_running w = (Ok false, w')
    /\ procs w' = List.filter (fun q => faults w (SysKill q)) (procs w)
    /\ out w'
       = out w ++ [MsgProcessesFound (sorted_set (procs w)); MsgAskKill]
         ++ List.map MsgKilled (sorted_set (procs w))
    /\ stdin w' = rest
    /\ fs w' = fs w.
Proof.
  intros Hn Hin Hy. unfold check_cursor_running.
  rewrite (bind_ok _ _ _ _ _
             (eq_refl : get_running_cursor_processes w = (Ok (procs w), w))).
  destruct (procs w) as [|pid0 pids] eqn:Ep; [cbn in Hn; lia|].
  rewrite <- Ep. clear Hn.
  set (l := sorted_set (procs w)).
  set (w1 := set_out (out w ++ [MsgProcessesFound l]) w).
  set (w2 := set_out (out w1 ++ [MsgAskKill]) w1).
  rewrite (bind_ok _ _ _ _ _ (eq_refl : emit (MsgProcessesFound l) w = (Ok tt, w1))).
  rewrite (bind_ok _ _ _ _ _ (eq_refl : emit MsgAskKill w1 = (Ok tt, w2))).
  unfold bind at 1, input. cbn [stdin w2 w1 set_out]. rewrite Hin.
  rewrite Hy.
  destruct (kill_all_run l (set_stdin rest w2))
    as (w' & Hrun & Hp & Ho & Hf & Hs & _).
  rewrite (bind_ok _ _ _ _ _ Hrun).
  exists w'. split; [reflexivity|].
  cbn [procs out fs stdin set_stdin set_out w2 w1] in Hp, Ho, Hf, Hs.
  split_and!.
  - rewrite Hp. apply filter_ext_in. intros q Hq.
    rewrite killed_by_listed by (apply sorted_set_members, Hq).
    rewrite negb_involutive. reflexivity.
  - rewrite Ho, <- !app_assoc. reflexivity.
  - exact Hs.
  - exact Hf.
Qed.

Lemma check_cursor_running_kills_busy :
  exists w',
    check_cursor_running (busy_world [str "Y"]) = (Ok false, w')
    /\ procs w'
       = List.filter (fun q => faults (busy_world [str "Y"]) (SysKill q))
           (procs (busy_world [str "Y"]))
    /\ out w'
       = out (busy_world [str "Y"])
         ++ [MsgProcessesFound (sorted_set (procs (busy_world [str "Y"])));
             MsgAskKill]
         ++ List.map MsgKilled (sorted_set (procs (busy_world [str "Y"])))
    /\ stdin w' = []
    /\ fs w' = fs (busy_world [str "Y"]).
Proof.
  apply (check_cursor_running_kills (busy_world [str "Y"]) (str "Y") []).
  - vm_compute. lia.
  - reflexivity.
  - vm_compute. reflexivity.
Defined.

(** X15: any other answer, [yes] and [ y] and the empty line among them,
    counts as a no: [check_cursor_running] kills nothing, prints the
    command to kill the processes by hand, and returns [True]. *)
Theorem check_cursor_running_declined w line rest :
  (0 < length (procs w))%nat ->
  stdin w = line :: rest ->
  pystr_eqb (lower line) (str "y") = false ->
  check_cursor_running w
  = (Ok true,
     set_out (out w ++ [MsgProcessesFound (sorted_set (procs w)); MsgAskKill;
                        MsgManualKill (sorted_set (procs w))])
       (set_stdin rest w)).
Proof.
  intros Hn Hin Hy. unfold check_cursor_running.
  rewrite (bind_ok _ _ _ _ _
             (eq_refl : get_running_cursor_processes w = (Ok (procs w), w))).
  destruct (procs w) as [|pid0 pids] eqn:Ep; [cbn in Hn; lia|].
  rewrite <- Ep. clear Hn.
  set (l := sorted_set (procs w)).
  set (w1 := set_out (out w ++ [MsgProcessesFound l]) w).
  set (w2 := set_out (out w1 ++ [MsgAskKill]) w1).
  rewrite (bind_ok _ _ _ _ _ (eq_refl : emit (MsgProcessesFound l) w = (Ok tt, w1))).
  rewrite (bind_ok _ _ _ _ _ (eq_refl : emit MsgAskKill w1 = (Ok tt, w2))).
  unfold bind at 1, input. cbn [stdin w2 w1 set_out]. rewrite Hin.
  rewrite Hy. unfold bind, emit, modify, ret.
  unfold set_out, set_stdin. cbn. rewrite <- !app_assoc. reflexivity.
Qed.

Lemma check_cursor_running_declined_busy :
  check_cursor_running (busy_world [str "yes"])
  = (Ok true,
     set_out (out (busy_world [str "yes"])
              ++ [MsgProcessesFound (sorted_set (procs (busy_world [str "yes"])));
                  MsgAskKill;
                  MsgManualKill (sorted_set (procs (busy_world [str "yes"])))])
       (set_stdin [] (busy_world [str "yes"]))).
Proof.
  apply (check_cursor_running_declined (busy_world [str "yes"]) (str "yes") []).
  - vm_compute. lia.
  - reflexivity.
  - vm_compute. reflexivity.
Defined.

Example busy_world_pids :
  sorted_set (procs (busy_world [])) = [17; 300; 4242]%Z
  /\ List.filter (fun q => faults (busy_world []) (SysKill q))
       (procs (busy_world [])) = [4242; 4242]%Z.
Proof. split; reflexivity. Qed.

(** ** Declining the overwrite *)

Lemma show_config_run config t w :
  show_config config t w = (Ok tt, set_out (out w ++ shown config t) w).
Proof.
  unfold show_config, bind, emit, modify, shown, set_out. cbn.
  rewrite <- !app_assoc. reflexivity.
Qed.


Lemma outside_random_inv w w' :
  outside_random w' = outside_random w ->
  fs w' = fs w /\ stdin w' = stdin w /\ out w' = out w.
Proof. unfold outside_random. intros H. split_and!; congruence. Qed.




(** ** Declining after a failed read *)

Lemma confirm_action_no q w line rest :
  stdin w = line :: rest ->
  said_yes (strip (lower line)) = false ->
  said_no (strip (lower line)) = true ->
  confirm_action q w
  = (Ok false, set_stdin rest (set_out (out w ++ [MsgPrompt q]) w)).
Proof.
  intros Hin Hy Hn. unfold confirm_action. rewrite Hin.
  cbn [confirm_loop].
  rewrite (bind_ok _ _ _ _ _ (eq_refl : emit (MsgPrompt q) w = (Ok tt, _))).
  unfold bind, input. cbn [stdin set_out]. rewrite Hin, Hy, Hn. reflexivity.
Qed.

(** X17: when [read_existing_config] fails and the user answers no to
    the question whether to go on, [main] returns at once: nothing is
    generated (the random sources are untouched), nothing is written, and
    the program does not wait for the final key press. *)
Theorem main_body_read_failure_declined user w e w1 line rest :
  read_existing_config user (set_out (out w ++ [MsgReadingConfig]) w)
  = (Raise e, w1) ->
  stdin w = line :: rest ->
  said_yes (strip (lower line)) = false ->
  said_no (strip (lower line)) = true ->
  main_body user w
  = (Ok Return,
     set_out (out w ++ [MsgReadingConfig; MsgReadFailed e;
                        MsgPrompt AskContinue])
       (set_stdin rest w)).
Proof.
  intros Hread Hin Hy Hn.
  destruct (read_existing_config_raise _ _ _ _ Hread) as (-> & cause & He).
  set (w0 := set_out (out w ++ [MsgReadingConfig]) w) in *.
  set (w2 := set_out (out w0 ++ [MsgReadFailed e]) w0).
  unfold main_body. erewrite try_except_ok; [reflexivity|].
  rewrite (bind_ok _ _ _ _ _
             (eq_refl : emit MsgReadingConfig w = (Ok tt, w0))).
  erewrite bind_ok; cycle 1.
  { unfold try_except_AppError.
    rewrite (bind_raise _ _ _ _ _ Hread). rewrite He at 1. rewrite <- He.
    rewrite (bind_ok _ _ _ _ _
               (eq_refl : emit (MsgReadFailed e) w0 = (Ok tt, w2))).
    rewrite (bind_ok _ _ _ _ _
               (confirm_action_no AskContinue w2 line rest Hin Hy Hn)).
    reflexivity. }
  cbn iota. unfold ret. subst w2 w0. unfold set_out, set_stdin. cbn.
  rewrite <- !app_assoc. reflexivity.
Qed.

Lemma main_body_read_failure_declined_broken :
  main_body alice broken_declining_world
  = (Ok Return,
     set_out (out broken_declining_world
              ++ [MsgReadingConfig;
                  MsgReadFailed
                    (AppError ERR_CONFIG (str "read_config") (linux_path alice)
                       JSONDecodeError);
                  MsgPrompt AskContinue])
       (set_stdin [] broken_declining_world)).
Proof.
  apply (main_body_read_failure_declined alice broken_declining_world
           (AppError ERR_CONFIG (str "read_config") (linux_path alice)
              JSONDecodeError)
           (snd (read_existing_config alice
                   (set_out (out broken_declining_world ++ [MsgReadingConfig])
                      broken_declining_world)))
           (str "no") []).
  - apply (run_outcome (read_existing_config alice)). vm_compute. reflexivity.
  - reflexivity.
  - vm_compute. reflexivity.
  - vm_compute. reflexivity.
Defined.

(** ** The machine identifier as text *)

(** X18: every value returned by [generate_machine_id] has 72 lowercase
    hex digits and begins with [61757468307c757365725f], the hex digits of
    [auth0|user_]. *)
Theorem generate_machine_id_text (w : world) :
  exists v w' tail,
    generate_machine_id w = (Ok v, w')
    /\ v = str "61757468307c757365725f" ++ tail
    /\ length v = 72%nat
    /\ List.forallb is_lower_hex v = true.
Proof.
  destruct (generate_machine_id_run w) as (n & u & w' & Hn & Hlen & Hu & Hrun).
  destruct (format_02d_two_digits n Hn) as (H1 & _ & _).
  eexists. exists w'.
  exists (hex (List.map byte_of_N (format_02d n ++ u))).
  split; [exact Hrun|]. split; [|split].
  - rewrite List.map_app. unfold hex. rewrite List.map_app, concat_app.
    reflexivity.
  - rewrite hex_length, length_map, !length_app, H1, Hlen. reflexivity.
  - apply hex_lower.
Qed.

(** ** A failed save keeps the document *)

Lemma keeps_file_ret p {A} (a : A) : keeps_file p (ret a).
Proof. intros w r w' [= <- <-]. reflexivity. Qed.

Lemma keeps_file_raise p {A} e : keeps_file p (@raise A e).
Proof. intros w r w' [= <- <-]. reflexivity. Qed.















(** ** The exit status *)














Example run_unattended_output :
  out (snd (run unattended_world))
  = [MsgBanner; MsgReadingConfig;
     MsgReadFailed
       (AppError ERR_CONFIG (str "read_config") (linux_path alice)
          JSONDecodeError);
     MsgPrompt AskContinue; MsgError EOFError].
Proof. vm_compute. reflexivity. Qed.

(** ** Confirming the overwrite *)

(** X21: when the current configuration was read (or is absent) and the
    user answers yes to the question whether to overwrite, [main] saves
    exactly the configuration it generated and showed.  A save that
    succeeds is followed by the two success messages; a save that fails
    is printed as an error; in both cases the guarded part of [main] ends
    normally. *)
Theorem main_body_confirmed user w old w1 line rest c wg r ws :
  read_existing_config user (set_out (out w ++ [MsgReadingConfig]) w)
  = (Ok old, w1) ->
  stdin w = line :: rest ->
  said_yes (strip (lower line)) = true ->
  new_storage_config old (before_generation w old) = (Ok c, wg) ->
  save_config c user (before_save wg c rest) = (r, ws) ->
  main_body user w
  = (Ok (Next tt),
     set_out (out ws ++ match r with
                        | Ok _ => [MsgSuccess; MsgDone]
                        | Raise e => [MsgError e]
                        end) ws).
Proof.
  intros Hread Hin Hy Hnew Hsave.
  pose proof (read_existing_config_readonly _ _ _ _ Hread) as ->.
  set (w0 := set_out (out w ++ [MsgReadingConfig]) w) in *.
  set (w2 := set_out (out w0 ++ seen old) w0).
  assert (Hshow :
    try_except_AppError
      (current_config <- read_existing_config user ;;
       _ <- match current_config with
            | Some c => show_config c CurrentConfig
            | None => emit MsgNoConfig
            end ;;
       ret (Next (Some current_config)))
      (fun e =>
         _ <- emit (MsgReadFailed e) ;;
         go <- confirm_action AskContinue ;;
         if go then ret (Next None) else ret Return) w0
    = (Ok (Next (Some old)), w2)).
  { unfold try_except_AppError.
    rewrite (bind_ok _ _ _ _ _ Hread).
    erewrite bind_ok; [reflexivity|].
    subst w2. unfold seen.
    destruct old as [c0|]; [apply show_config_run|reflexivity]. }
  assert (E3 : set_out (out w2 ++ [MsgGenerating]) w2 = before_generation w old).
  { unfold before_generation, w2, w0, set_out. cbn.
    rewrite <- !app_assoc. reflexivity. }
  pose proof (keeps_outside_new_storage_config old (before_generation w old))
    as Hout.
  rewrite Hnew in Hout. cbn [snd] in Hout.
  apply outside_random_inv in Hout as (_ & Hstdin & _).
  set (w5 := set_out (out wg ++ shown c NewConfig) wg).
  assert (Hask : confirm_action AskOverwrite w5
                 = (Ok true,
                    set_stdin rest
                      (set_out (out w5 ++ [MsgPrompt AskOverwrite]) w5))).
  { apply (confirm_action_yes AskOverwrite w5 line rest); [|exact Hy].
    cbn [stdin w5 set_out]. rewrite Hstdin. exact Hin. }
  set (w6 := set_stdin rest (set_out (out w5 ++ [MsgPrompt AskOverwrite]) w5))
    in *.
  assert (E7 : set_out (out w6 ++ [MsgSaving]) w6 = before_save wg c rest).
  { unfold before_save, w6, w5, set_out, set_stdin. cbn.
    rewrite <- !app_assoc. reflexivity. }
  assert (Hbody :
    (_ <- emit MsgReadingConfig ;;
     r0 <- try_except_AppError
            (current_config <- read_existing_config user ;;
             _ <- match current_config with
                  | Some c => show_config c CurrentConfig
                  | None => emit MsgNoConfig
                  end ;;
             ret (Next (Some current_config)))
            (fun e =>
               _ <- emit (MsgReadFailed e) ;;
               go <- confirm_action AskContinue ;;
               if go then ret (Next None) else ret Return) ;;
     match r0 with
     | Return => ret Return
     | Next current_config =>
         _ <- emit MsgGenerating ;;
         old0 <- read_local "current_config" current_config ;;
         new_config <- new_storage_config old0 ;;
         _ <- show_config new_config NewConfig ;;
         go <- confirm_action AskOverwrite ;;
         if negb go then
           _ <- emit MsgCancelled ;; _ <- wait_exit ;; ret Return
         else
           _ <- emit MsgSaving ;;
           _ <- save_config new_config user ;;
           _ <- emit MsgSuccess ;;
           _ <- emit MsgDone ;;
           ret (Next tt)
     end) w
    = match r with
      | Ok _ => (Ok (Next tt), set_out (out ws ++ [MsgSuccess; MsgDone]) ws)
      | Raise e => (Raise e, ws)
      end).
  { rewrite (bind_ok _ _ _ _ _
               (eq_refl : emit MsgReadingConfig w = (Ok tt, w0))).
    rewrite (bind_ok _ _ _ _ _ Hshow).
    rewrite (bind_ok _ _ _ _ _
               (eq_refl : emit MsgGenerating w2 = (Ok tt, _))).
    rewrite E3.
    rewrite (bind_ok _ _ _ _ _
               (eq_refl : read_local "current_config" (Some old)
                            (before_generation w old)
                          = (Ok old, before_generation w old))).
    rewrite (bind_ok _ _ _ _ _ Hnew).
    rewrite (bind_ok _ _ _ _ _ (show_config_run c NewConfig wg)).
    fold w5. rewrite (bind_ok _ _ _ _ _ Hask). cbn [negb].
    rewrite (bind_ok _ _ _ _ _ (eq_refl : emit MsgSaving w6 = (Ok tt, _))).
    rewrite E7. unfold bind at 1. rewrite Hsave.
    destruct r as [[]|e]; [|reflexivity].
    unfold bind, emit, modify, ret, set_out. cbn.
    rewrite <- !app_assoc. reflexivity. }
  unfold main_body. destruct r as [[]|e].
  - apply try_except_ok. exact Hbody.
  - erewrite try_except_raise; [reflexivity|exact Hbody].
Qed.

Lemma main_body_confirmed_sample :
  main_body alice confirming_world
  = (Ok (Next tt),
     set_out
       (out (snd (save_config regenerated_config alice
                    (before_save
                       (snd (new_storage_config (Some empty_config)
                               (before_generation confirming_world
                                  (Some empty_config))))
                       regenerated_config [])))
        ++ [MsgSuccess; MsgDone])
       (snd (save_config regenerated_config alice
               (before_save
                  (snd (new_storage_config (Some empty_config)
                          (before_generation confirming_world
                             (Some empty_config))))
                  regenerated_config [])))).
Proof.
  apply (main_body_confirmed alice confirming_world (Some empty_config)
           (snd (read_existing_config alice
                   (set_out (out confirming_world ++ [MsgReadingConfig])
                      confirming_world)))
           (str "y") [] regenerated_config
           (snd (new_storage_config (Some empty_config)
                   (before_generation confirming_world (Some empty_config))))
           (Ok tt)).
  - apply (run_outcome (read_existing_config alice)). vm_compute. reflexivity.
  - reflexivity.
  - vm_compute. reflexivity.
  - apply (run_outcome (new_storage_config (Some empty_config))).
    vm_compute. reflexivity.
  - apply (run_outcome (save_config regenerated_config alice)).
    vm_compute. reflexivity.
Defined.
